(** * BLDC motor controller: commutation, speed loop, soft ramp, power monitor

    Shallow embedding of [motor.cpp] (src/unnamed/part_004, lines 1-974) and
    of the shared value store [shared.c] (same file, lines 975-1058), with the
    properties of the specification stated over it.

    Conventions.
    - A C [double] is an IEEE-754 binary64 value: Rocq's primitive [float].
      The soft-ramp handler only adds, subtracts and compares, so it is
      written once over an interface [DoubleOps] and instantiated both at
      [float] (what the target executes) and at [Q] (exact arithmetic).
      The ramp properties are proved for both: over [Q] for all
      non-negative targets, over [float] for the integer targets the
      operator interface can write.
    - [uint8_t], [uint16_t], [uint32_t] are [Z] with the wrap-around written
      out.  A conversion double -> integer whose value does not fit is
      undefined in C; the model returns [None] there.
    - Globals and function-[static] locals are fields of explicit state
      records, one record per task or handler footprint.
    - Calls into the motor library are recorded as a trace of [MotorCall].
    - Time and preemption are explicit where a property depends on them:
      the speed task runs on a schedule given by its two delay calls, and
      the ADC interrupts that arrive inside one pass of the consumer loop
      are an input of that pass. *)

From Stdlib Require Import ZArith QArith Floats Bool List Lia Lqa.
From stdpp Require Import base list.
Import ListNotations.

Set Warnings "-inexact-float".
Open Scope Z_scope.

(* ===================================================================== *)
(** ** Machine integers and doubles                                       *)
(* ===================================================================== *)

Definition uint8_t (z : Z) : Z := z mod 2 ^ 8.
Definition uint16_t (z : Z) : Z := z mod 2 ^ 16.
Definition uint32_t (z : Z) : Z := z mod 2 ^ 32.

(** [(double) z] for an integer [z]; exact for |z| < 2^53. *)
Definition double_of_Z (z : Z) : float :=
  if z <? 0 then (- of_uint63 (Uint63.of_Z (- z)))%float
  else of_uint63 (Uint63.of_Z z).

(** Integral part of a double (rounding toward zero), when it has one. *)
Definition trunc_double (f : float) : option Z :=
  match Prim2SF f with
  | S754_zero _ => Some 0
  | S754_finite s m e =>
      let mag := if 0 <=? e then Z.pos m * 2 ^ e else Z.shiftr (Z.pos m) (- e) in
      Some (if s then - mag else mag)
  | S754_infinity _ | S754_nan => None
  end.

(** [(int) f]: defined when the integral part fits a 32-bit [int]. *)
Definition int_of_double (f : float) : option Z :=
  match trunc_double f with
  | Some z => if (- 2 ^ 31 <=? z) && (z <? 2 ^ 31) then Some z else None
  | None => None
  end.

(** [(uint16_t) f]: defined when the integral part lies in 0 .. 65535. *)
Definition uint16_of_double (f : float) : option Z :=
  match trunc_double f with
  | Some z => if (0 <=? z) && (z <? 2 ^ 16) then Some z else None
  | None => None
  end.

(** [(uint32_t) f]: defined when the integral part lies in 0 .. 2^32 - 1. *)
Definition uint32_of_double (f : float) : option Z :=
  match trunc_double f with
  | Some z => if (0 <=? z) && (z <? 2 ^ 32) then Some z else None
  | None => None
  end.

(** The arithmetic the ramp handler needs from [double]. *)
Class DoubleOps (D : Type) := {
  of_int : Z -> D;
  dadd : D -> D -> D;
  dsub : D -> D -> D;
  dle : D -> D -> bool;
  dlt : D -> D -> bool
}.

#[export] Instance float_ops : DoubleOps float := {
  of_int := double_of_Z;
  dadd := PrimFloat.add;
  dsub := PrimFloat.sub;
  dle := PrimFloat.leb;
  dlt := PrimFloat.ltb
}.

#[export] Instance Q_ops : DoubleOps Q := {
  of_int := inject_Z;
  dadd := Qplus;
  dsub := Qminus;
  dle := Qle_bool;
  dlt := fun x y => negb (Qle_bool y x)
}.

(* ===================================================================== *)
(** ** shared.c: the shared value store                                   *)
(* ===================================================================== *)

(** Modelled from the spec: the FreeRTOS mutex is not part of the sources.
    Spec section 5: "per-entry mutual-exclusion locks with a caller-specified
    timeout; on timeout, the operation fails soft", with "wait forever"
    semantics for [portMAX_DELAY].  A mutex is described by the number of
    ticks after which its current holder gives it back (0 when it is free). *)
Record SemaphoreHandle_t := { busy_ticks : Z }.

Definition portMAX_DELAY : Z := 2 ^ 32 - 1.

(** Modelled from the spec: [xSemaphoreTake m t] obtains the mutex when it
    becomes free within [t] ticks, and always when [t = portMAX_DELAY];
    otherwise [t] ticks have gone by and the call fails. *)
Definition xSemaphoreTake (m : SemaphoreHandle_t) (blockingTime : Z)
  : bool * SemaphoreHandle_t :=
  if (blockingTime =? portMAX_DELAY) || (busy_ticks m <=? blockingTime)
  then (true, m)
  else (false, {| busy_ticks := busy_ticks m - blockingTime |}).

(** Modelled from the spec: giving the mutex back leaves it free. *)
Definition xSemaphoreGive (m : SemaphoreHandle_t) : SemaphoreHandle_t :=
  {| busy_ticks := 0 |}.

(** [typedef struct { double filtered; volatile double raw; } val;] *)
Record val (D : Type) := { filtered : D; raw : D }.
Arguments filtered {D} _.
Arguments raw {D} _.

(** [typedef struct { SemaphoreHandle_t mutex; val values; } sharedValues;] *)
Record sharedValues (D : Type) := { mutex : SemaphoreHandle_t; values : val D }.
Arguments mutex {D} _.
Arguments values {D} _.

(** [getter]: result code, content of [*buff] afterwards, the entry. *)
Definition getter {D} (dataPoint : sharedValues D) (buff : val D)
    (blockingTime : Z) : Z * val D * sharedValues D :=
  match xSemaphoreTake (mutex dataPoint) blockingTime with
  | (false, m) =>
      (uint8_t (-1), buff, {| mutex := m; values := values dataPoint |})
  | (true, m) =>
      (0, values dataPoint,
       {| mutex := xSemaphoreGive m; values := values dataPoint |})
  end.

Definition setter {D} (dataPoint : sharedValues D) (v : val D)
    (blockingTime : Z) : Z * sharedValues D :=
  match xSemaphoreTake (mutex dataPoint) blockingTime with
  | (false, m) => (uint8_t (-1), {| mutex := m; values := values dataPoint |})
  | (true, m) => (0, {| mutex := xSemaphoreGive m; values := v |})
  end.

Definition setterVal {D} (dataPoint : sharedValues D) (value : D)
    (setting : bool) (blockingTime : Z) : Z * sharedValues D :=
  match xSemaphoreTake (mutex dataPoint) blockingTime with
  | (false, m) => (uint8_t (-1), {| mutex := m; values := values dataPoint |})
  | (true, m) =>
      let v := values dataPoint in
      let v' := if setting
                then {| filtered := value; raw := raw v |}
                else {| filtered := filtered v; raw := value |} in
      (0, {| mutex := xSemaphoreGive m; values := v' |})
  end.

(* ===================================================================== *)
(** ** motor.cpp: soft ramp / emergency stop timer                        *)
(* ===================================================================== *)

(** The globals read and written by [xTimer1AHandler]. *)
Record RampState (D : Type) := {
  motorState : bool;
  estop : bool;
  rpmData : sharedValues D;
  softSetRPM : D;
  steps : D;
  esteps : D
}.
Arguments motorState {D} _.
Arguments estop {D} _.
Arguments rpmData {D} _.
Arguments softSetRPM {D} _.
Arguments steps {D} _.
Arguments esteps {D} _.

Definition set_motorState {D} (b : bool) (st : RampState D) : RampState D :=
  {| motorState := b; estop := estop st; rpmData := rpmData st;
     softSetRPM := softSetRPM st; steps := steps st; esteps := esteps st |}.

Definition set_softSetRPM {D} (x : D) (st : RampState D) : RampState D :=
  {| motorState := motorState st; estop := estop st; rpmData := rpmData st;
     softSetRPM := x; steps := steps st; esteps := esteps st |}.

Definition set_estop {D} (b : bool) (st : RampState D) : RampState D :=
  {| motorState := motorState st; estop := b; rpmData := rpmData st;
     softSetRPM := softSetRPM st; steps := steps st; esteps := esteps st |}.

(** [rpmData.values.raw = x], written without taking the mutex. *)
Definition set_rpm_raw {D} (x : D) (st : RampState D) : RampState D :=
  {| motorState := motorState st; estop := estop st;
     rpmData := {| mutex := mutex (rpmData st);
                   values := {| filtered := filtered (values (rpmData st));
                                raw := x |} |};
     softSetRPM := softSetRPM st; steps := steps st; esteps := esteps st |}.

(** [setupTimers]: [steps = 500 / 100; esteps = 1000 / 100;] (integer
    divisions, converted to double on assignment). *)
Definition setupTimers {D} `{DoubleOps D} (st : RampState D) : RampState D :=
  {| motorState := motorState st; estop := estop st; rpmData := rpmData st;
     softSetRPM := softSetRPM st;
     steps := of_int (500 / 100); esteps := of_int (1000 / 100) |}.

(** [xTimer1AHandler], lines 317-353.  The local [setRPM] is read once, at
    the top; the write [rpmData.values.raw = 0] under E-stop does not change
    it. *)
Definition xTimer1AHandler {D} `{DoubleOps D} (st : RampState D) : RampState D :=
  let internalSteps := steps st in
  let setRPM := raw (values (rpmData st)) in
  if negb (motorState st) && dle setRPM (of_int 0) then st
  else
    let st := set_motorState true st in
    let st := if estop st then set_rpm_raw (of_int 0) st else st in
    let internalSteps := if estop st then esteps st else internalSteps in
    if dle (dsub setRPM internalSteps) (softSetRPM st)
       && dle (softSetRPM st) (dadd setRPM internalSteps)
    then
      let st := set_softSetRPM setRPM st in
      if dle setRPM (of_int 0) then set_motorState false st else st
    else if dlt setRPM (softSetRPM st)
    then set_softSetRPM (dsub (softSetRPM st) internalSteps) st
    else set_softSetRPM (dadd (softSetRPM st) internalSteps) st.

(** Zero-initialised globals, then [setupTimers]. *)
Definition ramp_boot {D} `{DoubleOps D} : RampState D :=
  setupTimers
    {| motorState := false; estop := false;
       rpmData := {| mutex := {| busy_ticks := 0 |};
                     values := {| filtered := of_int 0; raw := of_int 0 |} |};
       softSetRPM := of_int 0; steps := of_int 0; esteps := of_int 0 |}.

(** What the rest of the system may do between two ticks: the operator
    interface writes the target ([setterVal(&rpmData, x, 0, ...)]) and the
    E-stop flag is set or cleared ([eStopSetter]). *)
Record RampInput (D : Type) := {
  write_target : option D;
  write_estop : option bool
}.
Arguments write_target {D} _.
Arguments write_estop {D} _.

Definition apply_input {D} (i : RampInput D) (st : RampState D) : RampState D :=
  let st := match write_target i with
            | Some x => set_rpm_raw x st
            | None => st
            end in
  match write_estop i with
  | Some b => set_estop b st
  | None => st
  end.

(** One external update followed by one timer tick. *)
Definition ramp_step {D} `{DoubleOps D} (st : RampState D) (i : RampInput D)
  : RampState D :=
  xTimer1AHandler (apply_input i st).

(** The states visited by a sequence of updates and ticks (the state just
    before each tick, paired with the state just after it). *)
Fixpoint ramp_trace {D} `{DoubleOps D} (st : RampState D)
    (inputs : list (RampInput D)) : list (RampState D * RampState D) :=
  match inputs with
  | [] => []
  | i :: inputs' =>
      let pre := apply_input i st in
      let post := xTimer1AHandler pre in
      (pre, post) :: ramp_trace post inputs'
  end.

(** The target of a tick as section 4.4 of the specification has it: 0
    while E-stop is asserted (step 3, "force target to 0"), the stored
    target otherwise; and the step size the tick uses. *)
Definition tick_target {D} `{DoubleOps D} (st : RampState D) : D :=
  if estop st then of_int 0 else raw (values (rpmData st)).

Definition tick_step {D} (st : RampState D) : D :=
  if estop st then esteps st else steps st.

(** What one tick does to the ramped setpoint, in exact arithmetic: it stays
    between its old value and the target (it approaches the target and does
    not pass it), it moves by at most one step, from within one step of the
    target it lands on the target, switching the motor off when that target
    is 0, and from further away it moves by a full step toward the
    target. *)
Definition ramp_tick_ok (pre post : RampState Q) : Prop :=
  let t := tick_target pre in
  let k := tick_step pre in
  let x := softSetRPM pre in
  let x' := softSetRPM post in
  ((x <= t -> x <= x' /\ x' <= t) /\ (t <= x -> t <= x' /\ x' <= x))%Q
  /\ (x - k <= x' /\ x' <= x + k)%Q
  /\ ((t - k <= x /\ x <= t + k)%Q ->
      (x' == t)%Q /\ ((t == 0)%Q -> motorState post = false))
  /\ ((x < t - k)%Q -> (x' == x + k)%Q)
  /\ ((t + k < x)%Q -> (x' == x - k)%Q).

(** The stored target is the target of the tick: E-stop is clear, or the
    stored target is 0 already. *)
Definition target_stored (st : RampState Q) : Prop :=
  estop st = false \/ (raw (values (rpmData st)) == 0)%Q.

(** States of the ramp the system can be in: step sizes and target are not
    negative, and while the motor is off the ramped setpoint is 0. *)
Definition ramp_inv (st : RampState Q) : Prop :=
  (0 <= steps st)%Q /\ (0 <= esteps st)%Q
  /\ (0 <= raw (values (rpmData st)))%Q
  /\ (motorState st = false -> (softSetRPM st == 0)%Q).

(** Targets written from outside are speeds: not negative. *)
Definition input_ok (i : RampInput Q) : Prop :=
  match write_target i with
  | Some x => (0 <= x)%Q
  | None => True
  end.

(** The operator interface writes 0 or a slider value from 100 to 3500; the
    statements on doubles cover every integer target up to [RPM_LIMIT]. *)
Definition RPM_LIMIT : Z := 4095.

(** The same property on doubles that hold integers: target, step and both
    setpoints are the doubles of integers [t], [k], [x], [x'] within range,
    and those integers satisfy what [ramp_tick_ok] says. *)
Definition ramp_tick_ok_double (pre post : RampState float) : Prop :=
  exists t k x x' : Z,
    tick_target pre = double_of_Z t /\ tick_step pre = double_of_Z k
    /\ softSetRPM pre = double_of_Z x /\ softSetRPM post = double_of_Z x'
    /\ (0 <= t <= RPM_LIMIT /\ 0 <= k <= RPM_LIMIT
        /\ 0 <= x <= RPM_LIMIT /\ 0 <= x' <= RPM_LIMIT)
    /\ ((x <= t -> x <= x' <= t) /\ (t <= x -> t <= x' <= x))
    /\ (x - k <= x' <= x + k)
    /\ (t - k <= x <= t + k -> x' = t /\ (t = 0 -> motorState post = false))
    /\ (x < t - k -> x' = x + k)
    /\ (t + k < x -> x' = x - k).

Definition target_stored_double (st : RampState float) : Prop :=
  estop st = false \/ raw (values (rpmData st)) = double_of_Z 0.

(** States of the ramp on doubles: the step sizes set by [setupTimers],
    integer setpoint and target within range, setpoint 0 while the motor is
    off. *)
Definition ramp_inv_double (st : RampState float) : Prop :=
  steps st = double_of_Z 5 /\ esteps st = double_of_Z 10
  /\ exists x t : Z,
       softSetRPM st = double_of_Z x
       /\ raw (values (rpmData st)) = double_of_Z t
       /\ 0 <= x <= RPM_LIMIT /\ 0 <= t <= RPM_LIMIT
       /\ (motorState st = false -> x = 0).

Definition input_ok_double (i : RampInput float) : Prop :=
  match write_target i with
  | Some f => exists t : Z, f = double_of_Z t /\ 0 <= t <= RPM_LIMIT
  | None => True
  end.

(** Order of two finite doubles of the same sign in the specification of
    binary64 comparison: exponent first, then mantissa. *)
Definition lex_cmp (e1 : Z) (m1 : positive) (e2 : Z) (m2 : positive) : comparison :=
  match e1 ?= e2 with
  | Eq => Pos.compare m1 m2
  | Lt => Lt
  | Gt => Gt
  end.

(* ===================================================================== *)
(** ** motor.cpp: ADC sample ring buffer                                  *)
(* ===================================================================== *)

Definition MAXBUFFER : Z := 40.

(** [typedef struct { uint32_t ch0; uint32_t ch4; } adcSample;] *)
Record adcSample := { ch0 : Z; ch4 : Z }.

(** [adcBuffer[MAXBUFFER]], [adcHead], [adcTail]. *)
Record AdcRing := {
  adcBuffer : list adcSample;
  adcHead : Z;
  adcTail : Z
}.

Definition zero_sample : adcSample := {| ch0 := 0; ch4 := 0 |}.

Definition adc_boot : AdcRing :=
  {| adcBuffer := replicate (Z.to_nat MAXBUFFER) zero_sample;
     adcHead := 0; adcTail := 0 |}.

(** [adcBuffer[i]]; the index is always below [MAXBUFFER] (see
    [ring_ok_push]), so the default is never returned. *)
Definition slot (buf : list adcSample) (i : Z) : adcSample :=
  default zero_sample (buf !! Z.to_nat i).

(** [xADC1Sequence0], lines 364-381, with the two conversion results
    [raw[0]], [raw[1]] as arguments.  The store to [adcBuffer[adcHead]] is a
    list insert; stdpp's insert ignores an index outside the list, which the
    handler never produces. *)
Definition xADC1Sequence0 (raw0 raw1 : Z) (r : AdcRing) : AdcRing :=
  let nextHead := uint32_t ((adcHead r + 1) mod MAXBUFFER) in
  let tail := if nextHead =? adcTail r
              then uint8_t ((adcTail r + 1) mod MAXBUFFER)
              else adcTail r in
  {| adcBuffer := <[ Z.to_nat (adcHead r) := {| ch0 := raw0; ch4 := raw1 |} ]>
                    (adcBuffer r);
     adcHead := uint8_t nextHead;
     adcTail := tail |}.

(** One pass through the body of the consumer loop of [powerTask], lines
    779-781, as far as the ring is concerned: the slot at [adcTail] has been
    read and [adcTail = (adcTail + 1) % MAXBUFFER]. *)
Definition consume_one (r : AdcRing) : AdcRing :=
  {| adcBuffer := adcBuffer r; adcHead := adcHead r;
     adcTail := uint8_t ((adcTail r + 1) mod MAXBUFFER) |}.

(** The ADC interrupts that arrive during one pass through the body of the
    consumer loop.  The body reads the volatile [adcTail] once in each of
    its three statements and has no critical section, so the handler can
    run, to completion, between any two of them. *)
Record PassInterrupts := {
  irq_after_ch0 : list (Z * Z);   (* between lines 779 and 780 *)
  irq_after_ch4 : list (Z * Z);   (* between line 780 and the read of line 781 *)
  irq_in_update : list (Z * Z)    (* between the read and the write of line 781 *)
}.

(** One pass through the body of the consumer loop, lines 779-781, with
    the interrupts that arrive during it: the pair [(ch0, ch4)] it reads
    and the ring afterwards. *)
Definition consume_one_preempted (i : PassInterrupts) (r : AdcRing)
  : adcSample * AdcRing :=
  let c0 := ch0 (slot (adcBuffer r) (adcTail r)) in
  let r1 := fold_left (fun r x => xADC1Sequence0 (fst x) (snd x) r)
                      (irq_after_ch0 i) r in
  let c4 := ch4 (slot (adcBuffer r1) (adcTail r1)) in
  let r2 := fold_left (fun r x => xADC1Sequence0 (fst x) (snd x) r)
                      (irq_after_ch4 i) r1 in
  let tail := adcTail r2 in
  let r3 := fold_left (fun r x => xADC1Sequence0 (fst x) (snd x) r)
                      (irq_in_update i) r2 in
  ({| ch0 := c0; ch4 := c4 |},
   {| adcBuffer := adcBuffer r3; adcHead := adcHead r3;
      adcTail := uint8_t ((tail + 1) mod MAXBUFFER) |}).

(** The consumer loop of [powerTask], lines 777-786:
    [while (adcTail != adcHead) { ... }].  It returns the slots read, in the
    order read, with the ring after the loop; [None] when [fuel] iterations
    did not reach [adcTail == adcHead]. *)
Fixpoint drain (fuel : nat) (r : AdcRing) : option (list adcSample * AdcRing) :=
  if adcTail r =? adcHead r then Some ([], r)
  else
    match fuel with
    | O => None
    | S fuel' =>
        let s := slot (adcBuffer r) (adcTail r) in
        match drain fuel' (consume_one r) with
        | Some (l, r'') => Some (s :: l, r'')
        | None => None
        end
    end.

(** The unread samples, oldest first: the slots from [adcTail] up to, not
    including, [adcHead]. *)
Definition unread_count (r : AdcRing) : Z :=
  (adcHead r - adcTail r) mod MAXBUFFER.

Definition unread (r : AdcRing) : list adcSample :=
  map (fun k : nat => slot (adcBuffer r) ((adcTail r + Z.of_nat k) mod MAXBUFFER))
      (seq 0 (Z.to_nat (unread_count r))).

(** Well-formed ring: forty slots, both indices inside. *)
Definition ring_ok (r : AdcRing) : Prop :=
  length (adcBuffer r) = Z.to_nat MAXBUFFER
  /\ 0 <= adcHead r < MAXBUFFER
  /\ 0 <= adcTail r < MAXBUFFER.

(** The buffer is full when the next head position is the tail. *)
Definition ring_full (r : AdcRing) : bool :=
  (adcHead r + 1) mod MAXBUFFER =? adcTail r.

(** The last [n] elements of a list. *)
Definition lastn {A} (n : nat) (l : list A) : list A :=
  skipn (length l - n) l.

(** The sample stored for a pair of conversion results. *)
Definition sample_of (x : Z * Z) : adcSample := {| ch0 := fst x; ch4 := snd x |}.

(** A sequence of ADC interrupts, oldest first. *)
Definition pushes (xs : list (Z * Z)) (r : AdcRing) : AdcRing :=
  fold_left (fun r x => xADC1Sequence0 (fst x) (snd x) r) xs r.

(** The ring once the consumer has caught up with the producer. *)
Definition consumed (r : AdcRing) : AdcRing :=
  {| adcBuffer := adcBuffer r; adcHead := adcHead r; adcTail := adcHead r |}.

(* ===================================================================== *)
(** ** motor.cpp: Hall-effect commutation                                 *)
(* ===================================================================== *)

(** Calls into the motor library ([motorlib.h]). *)
Inductive MotorCall :=
| stopMotor (brake : bool)
| disableMotor
| enableMotor
| updateMotor (a b c : Z)
| setDuty (duty : Z).

(** Globals and the [static] local read and written by [hallEffectDecode]. *)
Record HallState := {
  hall_motorState : bool;
  flipMotorState : bool;
  hallEffectState : Z
}.

(** [hallEffectDecode], lines 463-495: the library calls made, in order, and
    the state afterwards. *)
Definition hallEffectDecode (st : HallState) : list MotorCall * HallState :=
  if negb (hall_motorState st) then
    ([stopMotor false; disableMotor],
     {| hall_motorState := hall_motorState st;
        flipMotorState := hall_motorState st;
        hallEffectState := hallEffectState st |})
  else
    let pre := if negb (eqb (flipMotorState st) (hall_motorState st))
               then [enableMotor] else [] in
    let st' := {| hall_motorState := hall_motorState st;
                  flipMotorState := hall_motorState st;
                  hallEffectState := hallEffectState st |} in
    match hallEffectState st with
    | 0 | 1 | 5 => (pre ++ [updateMotor 1 0 0], st')
    | 2 | 3 => (pre ++ [updateMotor 0 1 0], st')
    | _ => (pre ++ [updateMotor 0 0 1], st')
    end.

(** The phase-drive updates in a trace of library calls. *)
Definition phase_updates (t : list MotorCall) : list (Z * Z * Z) :=
  omap (fun c => match c with
                 | updateMotor a b c => Some (a, b, c)
                 | _ => None
                 end) t.

(* ===================================================================== *)
(** ** motor.cpp: E-stop flag                                             *)
(* ===================================================================== *)

Record EStopState := {
  es_estop : bool;
  estopMutex : SemaphoreHandle_t
}.

(** [eStopGetter], lines 525-533. *)
Definition eStopGetter (blockingTime : Z) (st : EStopState) : Z * EStopState :=
  match xSemaphoreTake (estopMutex st) blockingTime with
  | (true, m) =>
      (Z.b2z (es_estop st),
       {| es_estop := es_estop st; estopMutex := xSemaphoreGive m |})
  | (false, m) => (uint8_t (-1), {| es_estop := es_estop st; estopMutex := m |})
  end.

(** [eStopSetter], lines 539-546. *)
Definition eStopSetter (set : bool) (blockingTime : Z) (st : EStopState)
  : Z * EStopState :=
  match xSemaphoreTake (estopMutex st) blockingTime with
  | (true, m) =>
      (Z.b2z set, {| es_estop := set; estopMutex := xSemaphoreGive m |})
  | (false, m) => (uint8_t (-1), {| es_estop := es_estop st; estopMutex := m |})
  end.

(* ===================================================================== *)
(** ** motor.cpp: RPM estimator and PID speed controller                  *)
(* ===================================================================== *)

Definition PERIOD : Z := 100.
Definition Kp : float := 0.032%float.
Definition Ki : float := 0.075%float.
Definition Kd : float := 0.00005%float.

(** The value [(uint16_t) -1] that [PIDController] returns on bad input. *)
Definition PID_ERROR : Z := uint16_t (-1).

(** The fixed duty returned below 100 RPM. *)
Definition PID_KICK : Z := 16.

(** [softSetRPM] and the two [static] locals of [PIDController]. *)
Record PIDState := {
  pid_softSetRPM : float;
  ki_error : float;
  prev_error : float
}.

Definition pid_reset (st : PIDState) : PIDState :=
  {| pid_softSetRPM := pid_softSetRPM st; ki_error := 0%float;
     prev_error := 0%float |}.

(** [PIDController], lines 580-621: the [uint16_t] returned and the state
    afterwards; [None] when the conversion [(int)(...)] of the control law is
    undefined.  [prev_error] is only ever reset, as in the source. *)
Definition PIDController (st : PIDState) (RPM dt : float)
  : option (Z * PIDState) :=
  if (RPM =? 0)%float && (dt =? -1)%float then Some (uint16_t 0, pid_reset st)
  else if (pid_softSetRPM st =? 0)%float then Some (uint16_t 0, pid_reset st)
  else if (RPM <? 0)%float || (dt <=? 0)%float then Some (uint16_t (-1), st)
  else if (RPM <? 100)%float then Some (uint16_t 16, st)
  else
    let error := (pid_softSetRPM st - RPM)%float in
    let ki_error' := (ki_error st + error * dt)%float in
    match int_of_double
            (Kp * error + Ki * ki_error' + Kd * ((error - prev_error st) / dt))%float
    with
    | None => None
    | Some output =>
        let output := if output <? 0 then 5 else output in
        let output := if output >? PERIOD then PERIOD else output in
        Some (uint16_t output,
              {| pid_softSetRPM := pid_softSetRPM st; ki_error := ki_error';
                 prev_error := prev_error st |})
    end.

(** The value the control law computes before the clamps, for statements
    about the normal path. *)
Definition pid_law (st : PIDState) (RPM dt : float) : option Z :=
  let error := (pid_softSetRPM st - RPM)%float in
  let ki_error' := (ki_error st + error * dt)%float in
  int_of_double
    (Kp * error + Ki * ki_error' + Kd * ((error - prev_error st) / dt))%float.

(** None of the four special cases applies. *)
Definition pid_normal_path (st : PIDState) (RPM dt : float) : bool :=
  negb ((RPM =? 0)%float && (dt =? -1)%float)
  && negb (pid_softSetRPM st =? 0)%float
  && negb ((RPM <? 0)%float || (dt <=? 0)%float)
  && negb (RPM <? 100)%float.

(** Entries of the event queue (pointers to shared values). *)
Inductive Event := EvRpmData | EvPowerData.

(** Modelled from the spec: [xQueueSend(eventQueue, &p, 0)] on the queue of
    16 entries created by [createQueue]: "non-blocking, drops on full
    queue". *)
Definition xQueueSend (q : list Event) (e : Event) : list Event :=
  if Z.of_nat (length q) <? 16 then q ++ [e] else q.

Section TickRate.

(** [configTICK_RATE_HZ] comes from [FreeRTOSConfig.h], which is not among
    the sources: it is a parameter. *)
Variable configTICK_RATE_HZ : Z.

(** Modelled from the spec: FreeRTOS's
    [pdMS_TO_TICKS(ms) = (TickType_t)((ms * configTICK_RATE_HZ) / 1000)]. *)
Definition pdMS_TO_TICKS (ms : Z) : Z :=
  uint32_t (uint32_t (ms * configTICK_RATE_HZ) / 1000).

(** [#define TICKS_TO_MS(ticks) (((double)ticks) / ((double)configTICK_RATE_HZ))] *)
Definition TICKS_TO_MS (ticks : Z) : float :=
  (double_of_Z ticks / double_of_Z configTICK_RATE_HZ)%float.

(** [RPMCalculate], lines 561-565; [hallEffect_Count] is the [uint8_t]
    transition counter. *)
Definition RPMCalculate (hallEffect_Count : Z) (dt : Z) : float :=
  let deltaScaler := (double_of_Z (pdMS_TO_TICKS 1000) / double_of_Z dt)%float in
  (double_of_Z hallEffect_Count / 12 * 60 * deltaScaler)%float.

(** Globals and locals of [speedControllerTask]; [lastRPM] is its
    [static] local, [sc_eventQueue] the event queue read by the user
    interface. *)
Record SpeedState := {
  lastTick : Z;
  hallEffect_Count : Z;
  sc_pid : PIDState;
  sc_rpmData : sharedValues float;
  sc_pwmData : sharedValues float;
  lastRPM : float;
  sc_eventQueue : list Event
}.

(** One iteration of the loop of [speedControllerTask], lines 646-663, for
    the tick count [currentTick] returned by [xTaskGetTickCount()] in line
    646: the motor library calls it makes and the state afterwards.  The
    guard [if (output >= 0)] compares the [uint16_t] variable [output], and
    [errorFlag >= 0] the [uint8_t] variable [errorFlag].  Line 657 converts
    [RPM] and [lastRPM] to [uint32_t], subtracts with wrap-around and stores
    the absolute value of that in a [uint32_t]; the iteration is [None] when
    one of the two conversions is undefined. *)
Definition speedControllerTask_iteration (currentTick : Z) (st : SpeedState)
  : option (list MotorCall * SpeedState) :=
  let deltaTime := uint32_t (currentTick - lastTick st) in
  let RPM := RPMCalculate (hallEffect_Count st) deltaTime in
  match PIDController (sc_pid st) RPM (TICKS_TO_MS deltaTime) with
  | None => None
  | Some (output, pid') =>
      let calls := if 0 <=? output then [setDuty (uint16_t output)] else [] in
      let '(errorFlag, rpm') := setterVal (sc_rpmData st) RPM true 100 in
      match uint32_of_double RPM, uint32_of_double (lastRPM st) with
      | Some a, Some b =>
          let rpmDiff := uint32_t (a - b) in
          let notify := (25 <? rpmDiff) && (0 <=? errorFlag) in
          let '(_, pwm') :=
            setterVal (sc_pwmData st) (double_of_Z output) true 100 in
          Some (calls,
                {| lastTick := currentTick; hallEffect_Count := 0;
                   sc_pid := pid'; sc_rpmData := rpm'; sc_pwmData := pwm';
                   lastRPM := if notify then RPM else lastRPM st;
                   sc_eventQueue :=
                     if notify then xQueueSend (sc_eventQueue st) EvRpmData
                     else sc_eventQueue st |})
      | _, _ => None
      end
  end.

(** Time is the number of ticks since the scheduler started, not wrapped;
    [xTaskGetTickCount()] returns it as a [TickType_t]. *)
Definition xTaskGetTickCount (now : Z) : Z := uint32_t now.

(** Modelled from the spec: the FreeRTOS delay calls are not among the
    sources.  Spec section 5: "A 100 ms periodic task computes RPM and runs
    PID".  [vTaskDelay(n)], called at time [now], lets the task run again
    [n] ticks later, or [late] ticks after that when other tasks keep the
    processor. *)
Definition vTaskDelay (n late now : Z) : Z := now + n + Z.max 0 late.

(** Modelled from the spec: [vTaskDelayUntil(&t, n)], called at time [now]
    with [t] the tick count read at time [read], lets the task run again at
    time [read + n], at once when that time has passed, or [late] ticks
    after that. *)
Definition vTaskDelayUntil (read n late now : Z) : Z :=
  Z.max now (read + n) + Z.max 0 late.

(** What the rest of the system does around one iteration of the speed
    task. *)
Record SpeedCycle := {
  cy_count : Z;           (* Hall transitions counted since the reset *)
  cy_softSetRPM : float;  (* the ramped setpoint left by the timer handler *)
  cy_rpm_busy : Z;        (* ticks another task still holds the rpmData mutex *)
  cy_pwm_busy : Z;        (* the same for pwmData *)
  cy_run : Z;             (* ticks between the reads of lines 646 and 653 *)
  cy_publish : Z;         (* ticks from line 653 to the call of line 664 *)
  cy_late : Z             (* ticks by which the task resumes late *)
}.

(** The globals as the iteration finds them: the [uint8_t] transition
    counter, the ramped setpoint and the two mutexes are in other hands
    between iterations. *)
Definition speed_env (c : SpeedCycle) (st : SpeedState) : SpeedState :=
  {| lastTick := lastTick st;
     hallEffect_Count := uint8_t (cy_count c);
     sc_pid := {| pid_softSetRPM := cy_softSetRPM c;
                  ki_error := ki_error (sc_pid st);
                  prev_error := prev_error (sc_pid st) |};
     sc_rpmData := {| mutex := {| busy_ticks := cy_rpm_busy c |};
                      values := values (sc_rpmData st) |};
     sc_pwmData := {| mutex := {| busy_ticks := cy_pwm_busy c |};
                      values := values (sc_pwmData st) |};
     lastRPM := lastRPM st;
     sc_eventQueue := sc_eventQueue st |}.

(** The loop of [speedControllerTask], lines 644-665, entered at time
    [now], one iteration for each element of [cycles]: for each iteration
    the elapsed tick count passed to [RPMCalculate] and the motor library
    calls made; the trace ends with [None] at an iteration that is
    undefined. *)
Fixpoint speedControllerTask_loop (now : Z) (st : SpeedState)
    (cycles : list SpeedCycle) : list (Z * option (list MotorCall)) :=
  match cycles with
  | [] => []
  | c :: rest =>
      let st := speed_env c st in
      let currentTick := xTaskGetTickCount now in
      let deltaTime := uint32_t (currentTick - lastTick st) in
      match speedControllerTask_iteration currentTick st with
      | None => [(deltaTime, None)]
      | Some (calls, st') =>
          let read := now + Z.max 0 (cy_run c) in
          let next := vTaskDelayUntil read (pdMS_TO_TICKS 100) (cy_late c)
                        (read + Z.max 0 (cy_publish c)) in
          (deltaTime, Some calls) :: speedControllerTask_loop next st' rest
      end
  end.

(** [speedControllerTask], lines 636-666, first run at time [created]:
    [lastTick = 0], [lastRPM = 0], [vTaskDelay(pdMS_TO_TICKS(1000))], then
    the loop. *)
Definition speedControllerTask (created late : Z) (st : SpeedState)
    (cycles : list SpeedCycle) : list (Z * option (list MotorCall)) :=
  speedControllerTask_loop
    (vTaskDelay (pdMS_TO_TICKS 1000) late created)
    {| lastTick := 0; hallEffect_Count := hallEffect_Count st;
       sc_pid := sc_pid st; sc_rpmData := sc_rpmData st;
       sc_pwmData := sc_pwmData st; lastRPM := 0%float;
       sc_eventQueue := sc_eventQueue st |}
    cycles.

(** No iteration lasts 2^32 ticks: the elapsed tick count does not wrap. *)
Definition cycle_short (c : SpeedCycle) : Prop :=
  pdMS_TO_TICKS 100 + Z.max 0 (cy_run c) + Z.max 0 (cy_publish c)
  + Z.max 0 (cy_late c) < 2 ^ 32.

(** An entry of the trace of the speed task: the elapsed tick count is at
    least one period, and a defined iteration made exactly one call,
    [setDuty] with a duty from 0 to PERIOD. *)
Definition speed_cycle_ok (dc : Z * option (list MotorCall)) : Prop :=
  pdMS_TO_TICKS 100 <= fst dc < 2 ^ 32
  /\ match snd dc with
     | Some calls => exists r, calls = [setDuty r] /\ 0 <= r <= PERIOD
     | None => True
     end.

End TickRate.

(** A double that is neither infinite nor NaN. *)
Definition is_finite (f : float) : bool :=
  match Prim2SF f with
  | S754_zero _ | S754_finite _ _ _ => true
  | S754_infinity _ | S754_nan => false
  end.

(* ===================================================================== *)
(** ** motor.cpp: current / power monitor                                 *)
(* ===================================================================== *)

Definition alpha : float := 0.5%float.

(** [readCurrent], lines 708-724. *)
Definition readCurrent (adc_value : Z) : float :=
  let VREF := 3.3%float in
  let R_SENSE := 0.007%float in
  let GAIN := 10%float in
  let ADC_MAX := 4095.0%float in
  let v_sox := (double_of_Z adc_value / ADC_MAX * VREF)%float in
  let numerator := (VREF / 2 - v_sox)%float in
  let denominator := (GAIN * R_SENSE)%float in
  abs (numerator / denominator)%float.

(** [estimatePower], lines 739-744. *)
Definition estimatePower (voltage current_a current_b : float) : float :=
  let power := (voltage * (current_a + current_b))%float in
  (1.3 * power)%float.

(** Globals and locals of [powerTask]; [maxcurrentlimit] is the local
    buffer filled by [getter]. *)
Record PowerState := {
  ring : AdcRing;
  sum_ch0 : float;
  sum_ch4 : float;
  sample_count : Z;
  settlingFlag : bool;
  filtered_ch0 : float;
  filtered_ch4 : float;
  maxcurrentlimit : val float;
  maxCurrentLimit : sharedValues float;
  powerData : sharedValues float;
  pw_estop : EStopState;
  eventQueue : list Event
}.

(** The start of [powerTask], before its loop (line 772):
    [setterVal(&maxCurrentLimit, 833, 0, portMAX_DELAY)]. *)
Definition powerTask_start (st : PowerState) : PowerState :=
  {| ring := ring st; sum_ch0 := 0%float; sum_ch4 := 0%float; sample_count := 0;
     settlingFlag := false;
     filtered_ch0 := filtered_ch0 st; filtered_ch4 := filtered_ch4 st;
     maxcurrentlimit := maxcurrentlimit st;
     maxCurrentLimit := snd (setterVal (maxCurrentLimit st) 833%float false
                                       portMAX_DELAY);
     powerData := powerData st; pw_estop := pw_estop st;
     eventQueue := eventQueue st |}.

(** Lines 777-786: drain the ring into the running sums. *)
Definition accumulate (st : PowerState) : option PowerState :=
  match drain (Z.to_nat MAXBUFFER) (ring st) with
  | None => None
  | Some (l, ring') =>
      Some {| ring := ring';
              sum_ch0 := fold_left (fun s x => (s + double_of_Z (uint16_t (ch0 x)))%float)
                                   l (sum_ch0 st);
              sum_ch4 := fold_left (fun s x => (s + double_of_Z (uint16_t (ch4 x)))%float)
                                   l (sum_ch4 st);
              sample_count := fold_left (fun c _ => uint32_t (c + 1)) l (sample_count st);
              settlingFlag := settlingFlag st;
              filtered_ch0 := filtered_ch0 st; filtered_ch4 := filtered_ch4 st;
              maxcurrentlimit := maxcurrentlimit st;
              maxCurrentLimit := maxCurrentLimit st;
              powerData := powerData st; pw_estop := pw_estop st;
              eventQueue := eventQueue st |}
  end.

(** Lines 791-803 for one channel: the new filtered ADC value. *)
Definition filter_step (sum : float) (count : Z) (prev : float) : float :=
  let avg := (sum / double_of_Z count)%float in
  (alpha * avg + (1 - alpha) * prev)%float.

(** Lines 799-803 and the expression [(current_a + current_b) * 1000]: the
    two phase currents after filtering, and the total current in mA that is
    compared with the limit.  [None] when a cast [(uint16_t)filtered_chN]
    is undefined. *)
Definition phase_currents (st : PowerState) : option (float * float) :=
  match uint16_of_double (filter_step (sum_ch0 st) (sample_count st) (filtered_ch0 st)),
        uint16_of_double (filter_step (sum_ch4 st) (sample_count st) (filtered_ch4 st))
  with
  | Some u0, Some u4 => Some (readCurrent u0, readCurrent u4)
  | _, _ => None
  end.

Definition total_mA (ab : float * float) : float :=
  ((fst ab + snd ab) * 1000)%float.

(** Lines 788-847: the body of [if (sample_count > 0)], on the state after
    [accumulate].  The [continue] of line 814 leaves the sums, the sample
    count and the settling flag as they are and skips everything below it. *)
Definition monitor (st : PowerState) : option PowerState :=
  match phase_currents st with
  | None => None
  | Some ab =>
      let raw_instantaneous_power :=
        estimatePower 24.0%float
          (readCurrent (uint16_t (ch0 (slot (adcBuffer (ring st)) 0))))
          (readCurrent (uint16_t (ch4 (slot (adcBuffer (ring st)) 0)))) in
      let f0 := filter_step (sum_ch0 st) (sample_count st) (filtered_ch0 st) in
      let f4 := filter_step (sum_ch4 st) (sample_count st) (filtered_ch4 st) in
      let '(errorFlag, lim, mcl) :=
        getter (maxCurrentLimit st) (maxcurrentlimit st) portMAX_DELAY in
      if (errorFlag =? 0) && negb (settlingFlag st) && (raw lim <? total_mA ab)%float
      then
        Some {| ring := ring st;
                sum_ch0 := sum_ch0 st; sum_ch4 := sum_ch4 st;
                sample_count := sample_count st;
                settlingFlag := settlingFlag st;
                filtered_ch0 := f0; filtered_ch4 := f4;
                maxcurrentlimit := lim; maxCurrentLimit := mcl;
                powerData := powerData st; pw_estop := pw_estop st;
                eventQueue := eventQueue st |}
      else
        let settling := if errorFlag =? 0 then true else settlingFlag st in
        let es := if (errorFlag =? 0) && (raw lim <? total_mA ab)%float
                  then snd (eStopSetter true portMAX_DELAY (pw_estop st))
                  else pw_estop st in
        let mcl' := snd (setterVal mcl (total_mA ab) true portMAX_DELAY) in
        let instantaneous_power := estimatePower 24.0%float (fst ab) (snd ab) in
        let msg := {| filtered := instantaneous_power;
                      raw := raw_instantaneous_power |} in
        Some {| ring := ring st;
                sum_ch0 := 0.0%float; sum_ch4 := 0.0%float; sample_count := 0;
                settlingFlag := settling;
                filtered_ch0 := f0; filtered_ch4 := f4;
                maxcurrentlimit := lim; maxCurrentLimit := mcl';
                powerData := snd (setter (powerData st) msg portMAX_DELAY);
                pw_estop := es;
                eventQueue := xQueueSend (eventQueue st) EvPowerData |}
  end.

(** One iteration of the [for (;;)] loop of [powerTask], lines 775-850: one
    monitor cycle. *)
Definition powerTask_iteration (st : PowerState) : option PowerState :=
  match accumulate st with
  | None => None
  | Some st1 => if 0 <? sample_count st1 then monitor st1 else Some st1
  end.

(** The ADC handler acting on the monitor's state. *)
Definition adc_push (raw0 raw1 : Z) (st : PowerState) : PowerState :=
  {| ring := xADC1Sequence0 raw0 raw1 (ring st);
     sum_ch0 := sum_ch0 st; sum_ch4 := sum_ch4 st;
     sample_count := sample_count st; settlingFlag := settlingFlag st;
     filtered_ch0 := filtered_ch0 st; filtered_ch4 := filtered_ch4 st;
     maxcurrentlimit := maxcurrentlimit st;
     maxCurrentLimit := maxCurrentLimit st;
     powerData := powerData st; pw_estop := pw_estop st;
     eventQueue := eventQueue st |}.

(** One monitor cycle in which the ADC delivers the samples [xs] and the
    task then runs once. *)
Definition monitor_cycle (xs : list (Z * Z)) (st : PowerState) : option PowerState :=
  powerTask_iteration (fold_left (fun s x => adc_push (fst x) (snd x) s) xs st).

(** Zero-initialised globals, then the start of [powerTask]. *)
Definition power_boot : PowerState :=
  powerTask_start
    {| ring := adc_boot;
       sum_ch0 := 0%float; sum_ch4 := 0%float; sample_count := 0;
       settlingFlag := false;
       filtered_ch0 := 0%float; filtered_ch4 := 0%float;
       maxcurrentlimit := {| filtered := 0%float; raw := 0%float |};
       maxCurrentLimit := {| mutex := {| busy_ticks := 0 |};
                             values := {| filtered := 0%float; raw := 0%float |} |};
       powerData := {| mutex := {| busy_ticks := 0 |};
                       values := {| filtered := 0%float; raw := 0%float |} |};
       pw_estop := {| es_estop := false; estopMutex := {| busy_ticks := 0 |} |};
       eventQueue := [] |}.

(** [n] monitor cycles, each fed the samples [xs]. *)
Fixpoint monitor_cycles (n : nat) (xs : list (Z * Z)) (st : PowerState)
  : option PowerState :=
  match n with
  | O => Some st
  | S n' =>
      match monitor_cycle xs st with
      | Some st' => monitor_cycles n' xs st'
      | None => None
      end
  end.

(** The total current in mA that corresponds to the filtered ADC values
    held in the state (what the last cycle compared with the limit). *)
Definition last_total_mA (st : PowerState) : option float :=
  match uint16_of_double (filtered_ch0 st), uint16_of_double (filtered_ch4 st) with
  | Some u0, Some u4 => Some (total_mA (readCurrent u0, readCurrent u4))
  | _, _ => None
  end.

(* ===================================================================== *)
(** ** motor.cpp: Hall sensor interrupts and the polling fallback         *)
(* ===================================================================== *)

(** [#define setBitTo(n, b, v) (n & ~(1 << b)) | (v << b)] *)
Definition setBitTo (n b v : Z) : Z :=
  Z.lor (Z.land n (Z.lnot (Z.shiftl 1 b))) (Z.shiftl v b).

(** The two globals written by the three GPIO handlers. *)
Record HallCounters := {
  hc_hallEffectState : Z;
  hc_hallEffect_Count : Z
}.

(** The common body of [xGPIOHandlerH], [xGPIOHandlerN], [xGPIOHandlerM]
    (lines 249-305): [readGPIO = GPIOPinRead(...) >> shift], the state bit
    [bit] is set to it, and it is added to the [uint8_t] counter.
    [pinRead] is the value returned by [GPIOPinRead]. *)
Definition xGPIOHandler (bit shift pinRead : Z) (st : HallCounters)
  : HallCounters :=
  let readGPIO := Z.shiftr pinRead shift in
  {| hc_hallEffectState := uint8_t (setBitTo (hc_hallEffectState st) bit readGPIO);
     hc_hallEffect_Count := uint8_t (hc_hallEffect_Count st + readGPIO) |}.

(** Sensor B: port H pin 2, state bit 1. *)
Definition xGPIOHandlerH : Z -> HallCounters -> HallCounters := xGPIOHandler 1 2.

(** Sensor C: port N pin 2, state bit 2. *)
Definition xGPIOHandlerN : Z -> HallCounters -> HallCounters := xGPIOHandler 2 2.

(** Sensor A: port M pin 3, state bit 0. *)
Definition xGPIOHandlerM : Z -> HallCounters -> HallCounters := xGPIOHandler 0 3.

(** The state computed by [checkMotor], lines 515-517, from the three
    values returned by [GPIOPinRead]:
    [M >> 2 | H | N >> 2], stored in the [uint8_t] state. *)
Definition polled_state (readM readH readN : Z) : Z :=
  uint8_t (Z.lor (Z.lor (Z.shiftr readM 2) readH) (Z.shiftr readN 2)).

(** [checkMotor], lines 507-519. *)
Definition checkMotor (readM readH readN : Z) (st : HallState)
  : list MotorCall * HallState :=
  if negb (hall_motorState st) then ([stopMotor false; disableMotor], st)
  else
    hallEffectDecode
      {| hall_motorState := hall_motorState st;
         flipMotorState := flipMotorState st;
         hallEffectState := polled_state readM readH readN |}.

(** One iteration of [motorTask], lines 685-692: [signalled] tells whether
    the Hall semaphore was obtained within 500 ms. *)
Definition motorTask_iteration (signalled : bool) (readM readH readN : Z)
    (st : HallState) : list MotorCall * HallState :=
  if signalled then hallEffectDecode st else checkMotor readM readH readN st.

(** The motor enable flag as another task sets it between two decodes. *)
Definition set_hall_motorState (b : bool) (st : HallState) : HallState :=
  {| hall_motorState := b; flipMotorState := flipMotorState st;
     hallEffectState := hallEffectState st |}.

(* ===================================================================== *)
(** ** motor.cpp: sequences of controller calls and timer ticks           *)
(* ===================================================================== *)

(** A sequence of calls of [PIDController]; before each call the ramp may
    have moved [softSetRPM].  Each element is (setpoint, RPM, dt). *)
Fixpoint pid_run (st : PIDState) (calls : list (float * float * float))
  : option PIDState :=
  match calls with
  | [] => Some st
  | (sp, RPM, dt) :: rest =>
      match PIDController {| pid_softSetRPM := sp; ki_error := ki_error st;
                             prev_error := prev_error st |} RPM dt with
      | Some (_, st') => pid_run st' rest
      | None => None
      end
  end.

(** [n] timer ticks with nothing written in between. *)
Definition ticks {D} `{DoubleOps D} (n : nat) (st : RampState D) : RampState D :=
  Nat.iter n xTimer1AHandler st.

(** The step of a tick: [esteps] under E-stop, [steps] otherwise, as
    [setupTimers] sets them. *)
Definition ramp_rate (e : bool) : Z := if e then 10 else 5.

(** The ramp state with integer setpoint [x] and integer target [t] and the
    steps of [setupTimers]. *)
Definition ramp_double_state (m e : bool) (mx : SemaphoreHandle_t) (f : float)
    (x t : Z) : RampState float :=
  {| motorState := m; estop := e;
     rpmData := {| mutex := mx; values := {| filtered := f; raw := double_of_Z t |} |};
     softSetRPM := double_of_Z x;
     steps := double_of_Z 5; esteps := double_of_Z 10 |}.

(** Where a ramp that started at [x] is after [n] ticks toward [t]. *)
Definition ramp_position (x t : Z) (n : nat) : Z :=
  if Z.abs (t - x) <=? 5 * Z.of_nat n then t
  else if x <? t then x + 5 * Z.of_nat n else x - 5 * Z.of_nat n.

(** The sign bit of a double is clear (NaN has none). *)
Definition sign_clear (f : float) : bool :=
  match Prim2SF f with
  | S754_nan => true
  | S754_zero s | S754_infinity s | S754_finite s _ _ => negb s
  end.

(** The same on the specification side, for a given sign. *)
Definition sf_sign_is (s : bool) (x : spec_float) : Prop :=
  match x with
  | S754_nan => True
  | S754_zero s' | S754_infinity s' | S754_finite s' _ _ => s' = s
  end.

(* ===================================================================== *)
(** ** gui_widgets.c: operator controls that drive the motor              *)
(* ===================================================================== *)

(** The globals of [gui_widgets.c] and the shared objects its motor
    controls act on. *)
Record OperatorState := {
  motorRunning : bool;
  eStopWasAcknowledged : bool;
  g_i32DesiredRPM : Z;
  g_i32CurrentLimit : Z;
  op_estop : EStopState;
  op_rpmData : sharedValues float;
  op_maxCurrentLimit : sharedValues float
}.

(** What [UpdateMotorUI] shows in the status panel. *)
Inductive MotorStatus := StatusEStopped | StatusRunning | StatusStopped.

(** [UpdateMotorUI], lines 1002-1054 of gui_widgets.c: the status shown,
    what is written to the acknowledgment label ([Some true] for the text
    "E-Stop Acknowledged", [Some false] for the empty text, [None] when the
    label is left alone), and the state. *)
Definition UpdateMotorUI (st : OperatorState)
  : MotorStatus * option bool * OperatorState :=
  let '(r, es) := eStopGetter 200 (op_estop st) in
  if r =? 1 then
    (StatusEStopped, None,
     {| motorRunning := motorRunning st;
        eStopWasAcknowledged := eStopWasAcknowledged st;
        g_i32DesiredRPM := g_i32DesiredRPM st;
        g_i32CurrentLimit := g_i32CurrentLimit st;
        op_estop := es; op_rpmData := op_rpmData st;
        op_maxCurrentLimit := op_maxCurrentLimit st |})
  else if motorRunning st then
    (StatusRunning, Some false,
     {| motorRunning := motorRunning st;
        eStopWasAcknowledged := false;
        g_i32DesiredRPM := g_i32DesiredRPM st;
        g_i32CurrentLimit := g_i32CurrentLimit st;
        op_estop := es; op_rpmData := op_rpmData st;
        op_maxCurrentLimit := op_maxCurrentLimit st |})
  else
    (StatusStopped, Some (eStopWasAcknowledged st),
     {| motorRunning := motorRunning st;
        eStopWasAcknowledged := false;
        g_i32DesiredRPM := g_i32DesiredRPM st;
        g_i32CurrentLimit := g_i32CurrentLimit st;
        op_estop := es; op_rpmData := op_rpmData st;
        op_maxCurrentLimit := op_maxCurrentLimit st |}).

(** The buttons of [OnButtonPress] that reach the motor state: the Motor
    screen button (lines 873-878), the motor toggle button (lines 924-943)
    and the E-stop test button (lines 986-991).  Every other button only
    changes the screen or the plot. *)
Inductive Button :=
  ButtonMotor | ButtonMotorToggle | ButtonEStopTest | ButtonOther.

(** The target the operator controls write:
    [motorRunning ? (double)g_i32DesiredRPM : 0]. *)
Definition operator_target (running : bool) (desired : Z) : float :=
  if running then double_of_Z desired else double_of_Z 0.

(** [OnButtonPress], gui_widgets.c lines 869-992: what [UpdateMotorUI]
    displayed if the press called it, and the state. *)
Definition OnButtonPress (b : Button) (st : OperatorState)
  : option (MotorStatus * option bool) * OperatorState :=
  match b with
  | ButtonMotor =>
      let '(ui, st') := UpdateMotorUI st in (Some ui, st')
  | ButtonMotorToggle =>
      let '(r, es) := eStopGetter 200 (op_estop st) in
      let st1 :=
        if r =? 1 then
          {| motorRunning := false;
             eStopWasAcknowledged := true;
             g_i32DesiredRPM := g_i32DesiredRPM st;
             g_i32CurrentLimit := g_i32CurrentLimit st;
             op_estop := snd (eStopSetter false portMAX_DELAY es);
             op_rpmData := op_rpmData st;
             op_maxCurrentLimit := op_maxCurrentLimit st |}
        else
          let running := negb (motorRunning st) in
          {| motorRunning := running;
             eStopWasAcknowledged := false;
             g_i32DesiredRPM := g_i32DesiredRPM st;
             g_i32CurrentLimit := g_i32CurrentLimit st;
             op_estop := es;
             op_rpmData :=
               snd (setterVal (op_rpmData st)
                              (operator_target running (g_i32DesiredRPM st))
                              false portMAX_DELAY);
             op_maxCurrentLimit := op_maxCurrentLimit st |} in
      let '(ui, st') := UpdateMotorUI st1 in (Some ui, st')
  | ButtonEStopTest =>
      (None,
       {| motorRunning := false;
          eStopWasAcknowledged := eStopWasAcknowledged st;
          g_i32DesiredRPM := g_i32DesiredRPM st;
          g_i32CurrentLimit := g_i32CurrentLimit st;
          op_estop := snd (eStopSetter true portMAX_DELAY (op_estop st));
          op_rpmData := op_rpmData st;
          op_maxCurrentLimit := op_maxCurrentLimit st |})
  | ButtonOther => (None, st)
  end.

(** The sliders of [OnSliderChange] that touch the motor. *)
Inductive Slider := SliderRPM | SliderCurrent.

(** [OnSliderChange], gui_widgets.c lines 1068-1126, for the RPM slider
    and the current-limit slider; [value] is an [int32_t]. *)
Definition OnSliderChange (s : Slider) (value : Z) (st : OperatorState)
  : OperatorState :=
  match s with
  | SliderRPM =>
      {| motorRunning := motorRunning st;
         eStopWasAcknowledged := eStopWasAcknowledged st;
         g_i32DesiredRPM := value;
         g_i32CurrentLimit := g_i32CurrentLimit st;
         op_estop := op_estop st;
         op_rpmData :=
           snd (setterVal (op_rpmData st)
                          (operator_target (motorRunning st) value)
                          false portMAX_DELAY);
         op_maxCurrentLimit := op_maxCurrentLimit st |}
  | SliderCurrent =>
      let lim := snd (setterVal (op_maxCurrentLimit st) (double_of_Z value)
                                false portMAX_DELAY) in
      {| motorRunning := motorRunning st;
         eStopWasAcknowledged := eStopWasAcknowledged st;
         g_i32DesiredRPM := g_i32DesiredRPM st;
         g_i32CurrentLimit := value;
         op_estop := op_estop st;
         op_rpmData := op_rpmData st;
         op_maxCurrentLimit :=
           snd (getter lim (values lim) portMAX_DELAY) |}
  end.

(* ===================================================================== *)
(** ** Concrete states used in examples                                   *)
(* ===================================================================== *)

(** A shared entry whose mutex is free. *)
Definition free_entry {D} (f r : D) : sharedValues D :=
  {| mutex := {| busy_ticks := 0 |}; values := {| filtered := f; raw := r |} |}.

(** A shared entry whose mutex stays taken for [n] more ticks. *)
Definition busy_entry {D} (n : Z) (f r : D) : sharedValues D :=
  {| mutex := {| busy_ticks := n |}; values := {| filtered := f; raw := r |} |}.

(** Controller state with the ramped setpoint at 1000 RPM. *)
Definition pid_at_1000 : PIDState :=
  {| pid_softSetRPM := 1000%float; ki_error := 0%float; prev_error := 0%float |}.

(** Controller state with the ramped setpoint at 0 RPM. *)
Definition pid_at_0 : PIDState :=
  {| pid_softSetRPM := 0%float; ki_error := 3%float; prev_error := 0%float |}.

(** Speed task state: last sample taken at tick 5000, three Hall
    transitions counted since. *)
Definition speed_at_5000 : SpeedState :=
  {| lastTick := 5000; hallEffect_Count := 3; sc_pid := pid_at_1000;
     sc_rpmData := free_entry 0%float 1000%float;
     sc_pwmData := free_entry 0%float 0%float;
     lastRPM := 0%float; sc_eventQueue := [] |}.

(** Mid-ramp: motor enabled, ramped setpoint at 1000 RPM on its way to the
    operator target 2000 RPM, E-stop just asserted. *)
Definition ramp_estop_mid : RampState float :=
  {| motorState := true; estop := true;
     rpmData := free_entry 0%float 2000%float;
     softSetRPM := 1000%float; steps := 5%float; esteps := 10%float |}.

(** Fifteen conversions per monitor cycle at ADC code 2008 on both
    channels: about 0.45 A per phase, 909 mA in total. *)
Definition sustained_909mA : list (Z * Z) := repeat (2008, 2008) 15.

(** The monitor after its settling phase, filters at mid-scale (no
    current), then fifteen conversions at ADC code 1900 (about 1.7 A in
    each phase). *)
Definition power_settled_overcurrent : PowerState :=
  fold_left (fun s x => adc_push (fst x) (snd x) s) (repeat (1900, 1900) 15)
    {| ring := ring power_boot;
       sum_ch0 := 0%float; sum_ch4 := 0%float; sample_count := 0;
       settlingFlag := true;
       filtered_ch0 := 2047%float; filtered_ch4 := 2047%float;
       maxcurrentlimit := maxcurrentlimit power_boot;
       maxCurrentLimit := maxCurrentLimit power_boot;
       powerData := powerData power_boot;
       pw_estop := pw_estop power_boot;
       eventQueue := [] |}.

(** The ramp is asked for 20 RPM, reaches it, and is then asked to stop. *)
Definition ramp_up_down : list (RampInput Q) :=
  [ {| write_target := Some (20 # 1)%Q; write_estop := None |};
    {| write_target := None; write_estop := None |};
    {| write_target := None; write_estop := None |};
    {| write_target := None; write_estop := None |};
    {| write_target := Some 0%Q; write_estop := None |};
    {| write_target := None; write_estop := Some true |};
    {| write_target := None; write_estop := None |} ].

(** The same requests as [ramp_up_down], on doubles. *)
Definition ramp_up_down_doubles : list (RampInput float) :=
  [ {| write_target := Some (double_of_Z 20); write_estop := None |};
    {| write_target := None; write_estop := None |};
    {| write_target := None; write_estop := None |};
    {| write_target := None; write_estop := None |};
    {| write_target := Some (double_of_Z 0); write_estop := None |};
    {| write_target := None; write_estop := Some true |};
    {| write_target := None; write_estop := None |} ].

(** The operator asks for 2000 RPM and the ramp runs for 200 ticks. *)
Definition ramp_to_1000 : list (RampInput float) :=
  {| write_target := Some 2000%float; write_estop := None |}
  :: repeat {| write_target := None; write_estop := None |} 199.

(** The operator interface writes 2000 RPM again before each of five
    ticks (the slider is being moved while E-stop is asserted). *)
Definition rewrite_2000 : list (RampInput float) :=
  repeat {| write_target := Some 2000%float; write_estop := None |} 5.

(** Hall decoder state: motor enabled, Hall code [h]. *)
Definition hall_on (h : Z) : HallState :=
  {| hall_motorState := true; flipMotorState := true; hallEffectState := h |}.

(** Hall globals with sensors A and C high and the transition counter
    about to wrap. *)
Definition hall_counters_wrap : HallCounters :=
  {| hc_hallEffectState := 5; hc_hallEffect_Count := 255 |}.

(** Hall decoder state: motor enabled, outputs already enabled, code 5. *)
Definition hall_running : HallState := hall_on 5.

(** The E-stop flag, its mutex taken for [n] more ticks. *)
Definition estop_flag (b : bool) (n : Z) : EStopState :=
  {| es_estop := b; estopMutex := {| busy_ticks := n |} |}.

(** Operator interface: motor shown running at 1500 RPM, and the E-stop
    flag as given. *)
Definition operator_running (es : EStopState) : OperatorState :=
  {| motorRunning := true; eStopWasAcknowledged := false;
     g_i32DesiredRPM := 1500; g_i32CurrentLimit := 833;
     op_estop := es;
     op_rpmData := free_entry 1490%float 1500%float;
     op_maxCurrentLimit := free_entry 0%float 833%float |}.

(** Operator interface: motor stopped, no E-stop. *)
Definition operator_stopped : OperatorState :=
  {| motorRunning := false; eStopWasAcknowledged := false;
     g_i32DesiredRPM := 1500; g_i32CurrentLimit := 833;
     op_estop := estop_flag false 0;
     op_rpmData := free_entry 0%float 0%float;
     op_maxCurrentLimit := free_entry 0%float 833%float |}.

(** Speed task state whose RPM entry is held by another task for 150
    ticks. *)
Definition speed_rpm_entry_busy : SpeedState :=
  {| lastTick := 5000; hallEffect_Count := 3; sc_pid := pid_at_1000;
     sc_rpmData := busy_entry 150 7%float 1000%float;
     sc_pwmData := free_entry 0%float 0%float;
     lastRPM := 0%float; sc_eventQueue := [] |}.

(** Speed task: the globals when the task is created, the ramped setpoint
    at 1000 RPM. *)
Definition speed_start : SpeedState :=
  {| lastTick := 0; hallEffect_Count := 0; sc_pid := pid_at_1000;
     sc_rpmData := free_entry 0%float 1000%float;
     sc_pwmData := free_entry 0%float 0%float;
     lastRPM := 0%float; sc_eventQueue := [] |}.

(** Three iterations of the speed task: the motor at rest, then 20 and 21
    Hall transitions counted per period; the second iteration resumes 3
    ticks late and finds the RPM entry held by another task. *)
Definition speed_three_cycles : list SpeedCycle :=
  [ {| cy_count := 0; cy_softSetRPM := 1000%float; cy_rpm_busy := 0;
       cy_pwm_busy := 0; cy_run := 0; cy_publish := 0; cy_late := 3 |};
    {| cy_count := 20; cy_softSetRPM := 1000%float; cy_rpm_busy := 150;
       cy_pwm_busy := 0; cy_run := 1; cy_publish := 100; cy_late := 0 |};
    {| cy_count := 21; cy_softSetRPM := 1005%float; cy_rpm_busy := 0;
       cy_pwm_busy := 0; cy_run := 0; cy_publish := 0; cy_late := 0 |} ].

(** The ring after 39 conversions [(k, 100 + k)], k = 1 .. 39, none of
    them read yet: it is full. *)
Definition ring_39_unread : AdcRing :=
  fold_left (fun r x => xADC1Sequence0 (fst x) (snd x) r)
            (map (fun k => (Z.of_nat k, 100 + Z.of_nat k)) (seq 1 39))
            adc_boot.

(** One ADC interrupt between the two reads of a consumer pass. *)
Definition one_irq_after_ch0 (a b : Z) : PassInterrupts :=
  {| irq_after_ch0 := [(a, b)]; irq_after_ch4 := []; irq_in_update := [] |}.

(** No interrupt during the pass. *)
Definition no_irq : PassInterrupts :=
  {| irq_after_ch0 := []; irq_after_ch4 := []; irq_in_update := [] |}.

(** Three controller calls: a normal one, one with negative RPM, a stop. *)
Definition pid_three_calls : list (float * float * float) :=
  [ (1000, 900, 0.1); (1000, -5, 0.1); (0, 900, 0.1) ]%float.

(** Controller state with an integral and a previous error on record. *)
Definition pid_with_history : PIDState :=
  {| pid_softSetRPM := 1000%float; ki_error := 2%float; prev_error := 3%float |}.

(** [power_settled_overcurrent] after the consumer loop has taken its
    fifteen conversions. *)
Definition power_accumulated : PowerState :=
  match accumulate power_settled_overcurrent with
  | Some s => s
  | None => power_settled_overcurrent
  end.

(** The monitor state with the shared current-limit entry as another task
    left it. *)
Definition set_maxCurrentLimit (l : sharedValues float) (st : PowerState)
  : PowerState :=
  {| ring := ring st;
     sum_ch0 := sum_ch0 st; sum_ch4 := sum_ch4 st;
     sample_count := sample_count st;
     settlingFlag := settlingFlag st;
     filtered_ch0 := filtered_ch0 st; filtered_ch4 := filtered_ch4 st;
     maxcurrentlimit := maxcurrentlimit st; maxCurrentLimit := l;
     powerData := powerData st; pw_estop := pw_estop st;
     eventQueue := eventQueue st |}.

(** [power_accumulated] after the operator has moved the current-limit
    slider to 500 mA. *)
Definition power_limit_500 : PowerState :=
  set_maxCurrentLimit
    (op_maxCurrentLimit (OnSliderChange SliderCurrent 500 operator_stopped))
    power_accumulated.

(** Five conversions waiting in the ring of the power monitor. *)
Definition power_five_samples : PowerState :=
  fold_left (fun s x => adc_push (fst x) (snd x) s) (repeat (2008, 2008) 5)
    power_boot.

(* ===================================================================== *)
(** * Properties                                                          *)
(* ===================================================================== *)

(** ** Shared value store *)

(** C10. For every shared value entry, [setterVal] with [setting = true]
    writes the filtered field only, with [setting = false] the raw field
    only; when the lock is not obtained within the blocking time it returns
    the error code 255 and leaves both fields as they were. *)
Theorem setterVal_frame {D} (dataPoint : sharedValues D) (value : D)
    (blockingTime : Z) :
  (fst (xSemaphoreTake (mutex dataPoint) blockingTime) = true ->
     (fst (setterVal dataPoint value true blockingTime) = 0
      /\ filtered (values (snd (setterVal dataPoint value true blockingTime))) = value
      /\ raw (values (snd (setterVal dataPoint value true blockingTime)))
         = raw (values dataPoint))
     /\ (fst (setterVal dataPoint value false blockingTime) = 0
         /\ raw (values (snd (setterVal dataPoint value false blockingTime))) = value
         /\ filtered (values (snd (setterVal dataPoint value false blockingTime)))
            = filtered (values dataPoint)))
  /\ (fst (xSemaphoreTake (mutex dataPoint) blockingTime) = false ->
      forall setting,
        fst (setterVal dataPoint value setting blockingTime) = 255
        /\ values (snd (setterVal dataPoint value setting blockingTime))
           = values dataPoint).
Proof.
  unfold setterVal.
  destruct (xSemaphoreTake (mutex dataPoint) blockingTime) as [[|] m]; cbn.
  - split; [intros _ | discriminate]. repeat split.
  - split; [discriminate | intros _ setting]. split; reflexivity.
Qed.

(** ** Hall-effect commutation *)

(** C4. While the motor is enabled, one call of [hallEffectDecode] issues
    exactly one phase update: hall states 0, 1, 5 drive (1,0,0), states 2, 3
    drive (0,1,0), and every other state (4, 6, 7 and the default branch)
    drives (0,0,1). *)
Theorem hallEffectDecode_mapping (st : HallState) :
  hall_motorState st = true ->
  let h := hallEffectState st in
  let ups := phase_updates (fst (hallEffectDecode st)) in
  (h = 0 \/ h = 1 \/ h = 5 -> ups = [(1, 0, 0)])
  /\ (h = 2 \/ h = 3 -> ups = [(0, 1, 0)])
  /\ (h <> 0 /\ h <> 1 /\ h <> 5 /\ h <> 2 /\ h <> 3 -> ups = [(0, 0, 1)]).
Proof.
  intros Hon h ups. subst h ups. unfold hallEffectDecode. rewrite Hon. cbn [negb].
  destruct (flipMotorState st); cbn [eqb negb];
    (repeat split; intros Hh;
     [ destruct Hh as [-> | [-> | ->]]; reflexivity
     | destruct Hh as [-> | ->]; reflexivity
     | destruct Hh as (H0 & H1 & H5 & H2 & H3);
       destruct (hallEffectState st) as [|p|p];
       [ congruence
       | destruct p as [[[]|[]|]|[[]|[]|]|]; try congruence; reflexivity
       | reflexivity ] ]).
Qed.

(** ** PID speed controller *)

(** C2. The four special cases of [PIDController] are taken in this order,
    before the control law: (1) [RPM == 0 && dt == -1] sets the integral
    accumulator and the previous error to 0 and returns 0; (2) otherwise
    [softSetRPM == 0] sets both to 0 and returns 0; (3) otherwise [RPM < 0]
    or [dt <= 0] returns the error sentinel 65535 and changes nothing;
    (4) otherwise [RPM < 100] returns the kick duty 16 and changes nothing,
    whatever the error is.  The setpoint is never written. *)
Theorem PIDController_special_cases (st : PIDState) (RPM dt : float) :
  let reset := (RPM =? 0)%float && (dt =? -1)%float in
  let off := (pid_softSetRPM st =? 0)%float in
  let bad := (RPM <? 0)%float || (dt <=? 0)%float in
  let slow := (RPM <? 100)%float in
  let cleared := {| pid_softSetRPM := pid_softSetRPM st;
                    ki_error := 0%float; prev_error := 0%float |} in
  (reset = true ->
     PIDController st RPM dt = Some (0, cleared))
  /\ (reset = false -> off = true ->
      PIDController st RPM dt = Some (0, cleared))
  /\ (reset = false -> off = false -> bad = true ->
      PIDController st RPM dt = Some (65535, st))
  /\ (reset = false -> off = false -> bad = false -> slow = true ->
      PIDController st RPM dt = Some (16, st)).
Proof.
  cbv zeta. unfold PIDController.
  repeat split; intros; repeat match goal with H : _ = _ |- _ => rewrite H end;
    reflexivity.
Qed.

(** The sentinel is none of the values the controller returns otherwise. *)
Lemma PID_ERROR_not_a_duty : PID_ERROR = 65535 /\ ~ (0 <= PID_ERROR <= PERIOD).
Proof. split; [reflexivity | vm_compute; intuition discriminate]. Qed.

Lemma pid_normal_path_unfold (st : PIDState) (RPM dt : float) :
  pid_normal_path st RPM dt = true ->
  PIDController st RPM dt =
    match pid_law st RPM dt with
    | None => None
    | Some output =>
        let output := if output <? 0 then 5 else output in
        let output := if output >? PERIOD then PERIOD else output in
        Some (uint16_t output,
              {| pid_softSetRPM := pid_softSetRPM st;
                 ki_error := (ki_error st + (pid_softSetRPM st - RPM) * dt)%float;
                 prev_error := prev_error st |})
    end.
Proof.
  unfold pid_normal_path, PIDController, pid_law. intros H.
  apply andb_prop in H as [H H4]. apply andb_prop in H as [H H3].
  apply andb_prop in H as [H1 H2].
  apply negb_true_iff in H1, H2, H3, H4.
  rewrite H1, H2, H3, H4. reflexivity.
Qed.

Lemma uint16_t_small (z : Z) : 0 <= z < 65536 -> uint16_t z = z.
Proof. intros H. unfold uint16_t. apply Z.mod_small. exact H. Qed.

(** C8 (as amended). On the normal path of [PIDController], whenever the
    control law has an integer value [out], the duty returned lies in
    [0, PERIOD]: it is 5 when [out < 0], [PERIOD] when [out > PERIOD], and
    [out] itself otherwise (so 0 to 4 are returned unchanged). *)
Theorem PIDController_clamp (st : PIDState) (RPM dt : float) (out : Z) :
  pid_normal_path st RPM dt = true ->
  pid_law st RPM dt = Some out ->
  exists r st',
    PIDController st RPM dt = Some (r, st')
    /\ 0 <= r <= PERIOD
    /\ (out < 0 -> r = 5)
    /\ (PERIOD < out -> r = PERIOD)
    /\ (0 <= out <= PERIOD -> r = out).
Proof.
  intros Hn Hl. rewrite (pid_normal_path_unfold _ _ _ Hn), Hl. cbv zeta.
  unfold PERIOD.
  destruct (Z.ltb_spec out 0) as [Hneg | Hpos].
  - change (5 >? 100) with false. cbv iota.
    eexists _, _. split; [reflexivity |]. rewrite uint16_t_small; lia.
  - destruct (out >? 100) eqn:Hgt.
    + eexists _, _. split; [reflexivity |]. rewrite uint16_t_small; lia.
    + eexists _, _. split; [reflexivity |]. rewrite uint16_t_small; lia.
Qed.

(** ** Witnesses and evaluations for the store, the decoder and the PID *)

Lemma setterVal_frame_witness :
  (filtered (values (snd (setterVal (free_entry 1 2) 7 true 100))) = 7
   /\ raw (values (snd (setterVal (free_entry 1 2) 7 true 100))) = 2)
  /\ (raw (values (snd (setterVal (free_entry 1 2) 7 false 100))) = 7
      /\ filtered (values (snd (setterVal (free_entry 1 2) 7 false 100))) = 1)
  /\ (fst (setterVal (busy_entry 500 1 2) 7 true 100) = 255
      /\ values (snd (setterVal (busy_entry 500 1 2) 7 true 100))
         = {| filtered := 1; raw := 2 |}).
Proof.
  pose proof (setterVal_frame (free_entry 1 2) 7 100) as [Hfree _].
  pose proof (setterVal_frame (busy_entry 500 1 2) 7 100) as [_ Hbusy].
  specialize (Hfree eq_refl). specialize (Hbusy eq_refl true).
  destruct Hfree as [(_ & Hf & Hr) (_ & Hr' & Hf')].
  split; [split; assumption |].
  split; [split; assumption |].
  exact Hbusy.
Defined.

Lemma hallEffectDecode_mapping_witness :
  phase_updates (fst (hallEffectDecode (hall_on 5))) = [(1, 0, 0)]
  /\ phase_updates (fst (hallEffectDecode (hall_on 3))) = [(0, 1, 0)]
  /\ phase_updates (fst (hallEffectDecode (hall_on 7))) = [(0, 0, 1)].
Proof.
  pose proof (hallEffectDecode_mapping (hall_on 5) eq_refl) as (H5 & _ & _).
  pose proof (hallEffectDecode_mapping (hall_on 3) eq_refl) as (_ & H3 & _).
  pose proof (hallEffectDecode_mapping (hall_on 7) eq_refl) as (_ & _ & H7).
  split; [| split].
  - apply H5. right. right. reflexivity.
  - apply H3. right. reflexivity.
  - apply H7. cbn. repeat split; discriminate.
Defined.

Lemma PIDController_special_cases_witness :
  PIDController pid_with_history 0 (-1)
  = Some (0, {| pid_softSetRPM := 1000%float; ki_error := 0%float;
                prev_error := 0%float |})
  /\ PIDController pid_at_0 (-5) 10
     = Some (0, {| pid_softSetRPM := 0%float; ki_error := 0%float;
                   prev_error := 0%float |})
  /\ PIDController pid_with_history (-5) 10 = Some (65535, pid_with_history)
  /\ PIDController pid_with_history 50 10 = Some (16, pid_with_history).
Proof.
  pose proof (PIDController_special_cases pid_with_history 0 (-1)) as (H1 & _).
  pose proof (PIDController_special_cases pid_at_0 (-5) 10) as (_ & H2 & _).
  pose proof (PIDController_special_cases pid_with_history (-5) 10) as (_ & _ & H3 & _).
  pose proof (PIDController_special_cases pid_with_history 50 10) as (_ & _ & _ & H4).
  split; [| split; [| split]].
  - apply H1. reflexivity.
  - apply H2; reflexivity.
  - apply H3; reflexivity.
  - apply H4; reflexivity.
Defined.

(** C8, counterexample to the bound [5, PERIOD]: with the measured speed on
    the setpoint (1000 RPM, [dt = 1]) no special case applies, the control
    law evaluates to 0, and 0 is returned. *)
Lemma PIDController_returns_below_floor :
  pid_normal_path pid_at_1000 1000 1 = true
  /\ pid_law pid_at_1000 1000 1 = Some 0
  /\ option_map fst (PIDController pid_at_1000 1000 1) = Some 0
  /\ ~ (5 <= 0 <= PERIOD).
Proof.
  repeat split; try (vm_compute; reflexivity). lia.
Qed.

Lemma PIDController_clamp_witness :
  exists r st',
    PIDController pid_at_1000 3000 0.1 = Some (r, st')
    /\ 0 <= r <= PERIOD
    /\ (-80 < 0 -> r = 5)
    /\ (PERIOD < -80 -> r = PERIOD)
    /\ (0 <= -80 <= PERIOD -> r = -80).
Proof.
  apply (PIDController_clamp pid_at_1000 3000 0.1 (-80)).
  - vm_compute. reflexivity.
  - vm_compute. reflexivity.
Defined.

(** ** Special values of doubles *)

Lemma float_pos_cases (x : float) :
  (0 <? x)%float = true ->
  (exists m e, Prim2SF x = S754_finite false m e)
  \/ Prim2SF x = S754_infinity false.
Proof.
  rewrite ltb_spec. change (Prim2SF 0) with (S754_zero false).
  unfold SFltb, SFcompare.
  destruct (Prim2SF x) as [s | s | | s m e]; try discriminate;
    destruct s; try discriminate; eauto.
Qed.

Lemma div_pos_zero (x : float) :
  (0 <? x)%float = true -> (x / 0)%float = infinity.
Proof.
  intros H. apply Prim2SF_inj. rewrite div_spec.
  change (Prim2SF 0) with (S754_zero false).
  change (Prim2SF infinity) with (S754_infinity false).
  destruct (float_pos_cases x H) as [(m & e & ->) | ->]; reflexivity.
Qed.

Lemma zero_div_pos (x : float) :
  (0 <? x)%float = true -> (0 / x)%float = 0%float.
Proof.
  intros H. apply Prim2SF_inj. rewrite div_spec.
  change (Prim2SF 0) with (S754_zero false).
  destruct (float_pos_cases x H) as [(m & e & ->) | ->]; reflexivity.
Qed.

Lemma mul_pos_infinity (x : float) :
  (0 <? x)%float = true -> (x * infinity)%float = infinity.
Proof.
  intros H. apply Prim2SF_inj. rewrite mul_spec.
  change (Prim2SF infinity) with (S754_infinity false).
  destruct (float_pos_cases x H) as [(m & e & ->) | ->]; reflexivity.
Qed.

(** Every non-zero value of the 8-bit transition counter scales to a
    positive number of revolutions per minute per tick-second. *)
Lemma count_scale_pos (count : Z) :
  0 < count < 256 -> (0 <? double_of_Z count / 12 * 60)%float = true.
Proof.
  intros H.
  assert (A : forallb (fun n => (0 <? double_of_Z (Z.of_nat n) / 12 * 60)%float)
                      (seq 1 255) = true) by (vm_compute; reflexivity).
  rewrite forallb_forall in A.
  specialize (A (Z.to_nat count)). rewrite Z2Nat.id in A by lia.
  apply A. apply in_seq. lia.
Qed.

(** ** Normal doubles *)

Lemma digits2_pos_bounds (p : positive) :
  2 ^ (Z.pos (digits2_pos p) - 1) <= Z.pos p < 2 ^ Z.pos (digits2_pos p).
Proof.
  induction p as [p IH | p IH |]; cbn [digits2_pos].
  - rewrite Pos2Z.inj_succ.
    replace (Z.succ (Z.pos (digits2_pos p)) - 1) with (Z.pos (digits2_pos p) - 1 + 1) by lia.
    rewrite Z.pow_succ_r by lia.
    destruct (Z.eq_dec (Z.pos (digits2_pos p)) 1) as [E | E].
    + rewrite E in *. cbn in IH |- *. lia.
    + rewrite Z.pow_add_r by lia. change (2 ^ 1) with 2. lia.
  - rewrite Pos2Z.inj_succ.
    replace (Z.succ (Z.pos (digits2_pos p)) - 1) with (Z.pos (digits2_pos p) - 1 + 1) by lia.
    rewrite Z.pow_succ_r by lia.
    destruct (Z.eq_dec (Z.pos (digits2_pos p)) 1) as [E | E].
    + rewrite E in *. cbn in IH |- *. lia.
    + rewrite Z.pow_add_r by lia. change (2 ^ 1) with 2. lia.
  - cbn. lia.
Qed.

Lemma digits2_pos_unique (p : positive) (d : Z) :
  2 ^ (d - 1) <= Z.pos p < 2 ^ d -> 0 < d -> Z.pos (digits2_pos p) = d.
Proof.
  intros [Hlo Hhi] Hd. pose proof (digits2_pos_bounds p) as [Blo Bhi].
  destruct (Z.lt_trichotomy (Z.pos (digits2_pos p)) d) as [L | [E | G]]; [| exact E |].
  - assert (2 ^ Z.pos (digits2_pos p) <= 2 ^ (d - 1)) by (apply Z.pow_le_mono_r; lia). lia.
  - assert (2 ^ d <= 2 ^ (Z.pos (digits2_pos p) - 1)) by (apply Z.pow_le_mono_r; lia). lia.
Qed.

Lemma shr_1_m (mrs : shr_record) :
  0 <= shr_m mrs -> shr_m (shr_1 mrs) = shr_m mrs / 2.
Proof.
  destruct mrs as [m r s]. cbn [shr_m]. intros Hm.
  destruct m as [| p | p]; [reflexivity | | lia].
  destruct p as [p | p |]; cbn [shr_1 shr_m].
  - rewrite Pos2Z.inj_xI. Z.to_euclidean_division_equations. lia.
  - rewrite Pos2Z.inj_xO. Z.to_euclidean_division_equations. lia.
  - reflexivity.
Qed.

Lemma iter_shr_1_m (p : positive) (mrs : shr_record) :
  0 <= shr_m mrs ->
  shr_m (SpecFloat.iter_pos shr_1 p mrs) = shr_m mrs / 2 ^ Z.pos p.
Proof.
  revert mrs. induction p as [p IH | p IH |]; intros mrs Hm; cbn [SpecFloat.iter_pos].
  - assert (H1 : 0 <= shr_m (shr_1 mrs))
      by (rewrite shr_1_m by exact Hm; apply Z.div_pos; lia).
    assert (H2 : 0 <= shr_m (SpecFloat.iter_pos shr_1 p (shr_1 mrs)))
      by (rewrite IH by exact H1; apply Z.div_pos; [exact H1 | apply Z.pow_pos_nonneg; lia]).
    rewrite IH by exact H2. rewrite IH by exact H1. rewrite shr_1_m by exact Hm.
    rewrite !Z.div_div by (try apply Z.pow_pos_nonneg; lia).
    f_equal.
    assert (E : 2 ^ Z.pos p~1 = 2 ^ 1 * 2 ^ Z.pos p * 2 ^ Z.pos p).
    { rewrite <- !Z.pow_add_r by lia. f_equal. lia. }
    rewrite E. change (2 ^ 1) with 2. lia.
  - assert (H2 : 0 <= shr_m (SpecFloat.iter_pos shr_1 p mrs))
      by (rewrite IH by exact Hm; apply Z.div_pos; [exact Hm | apply Z.pow_pos_nonneg; lia]).
    rewrite IH by exact H2. rewrite IH by exact Hm.
    rewrite !Z.div_div by (try apply Z.pow_pos_nonneg; lia).
    f_equal.
    assert (E : 2 ^ Z.pos p~0 = 2 ^ Z.pos p * 2 ^ Z.pos p).
    { rewrite <- !Z.pow_add_r by lia. f_equal. lia. }
    rewrite E. change (2 ^ 1) with 2. lia.
  - rewrite shr_1_m by exact Hm. reflexivity.
Qed.

Lemma shr_record_of_loc_m (m : Z) (l : location) : shr_m (shr_record_of_loc m l) = m.
Proof. destruct l as [| []]; reflexivity. Qed.

(** Rounding a mantissa of at least 53 bits to the format keeps it in
    [2^52, 2^53) and does not lower the exponent. *)
Lemma shr_fexp_large (m e : Z) (l : location) :
  2 ^ 52 <= m -> -1074 <= e ->
  2 ^ 52 <= shr_m (fst (shr_fexp prec emax m e l)) < 2 ^ 53
  /\ e <= snd (shr_fexp prec emax m e l).
Proof.
  intros Hm He. unfold shr_fexp.
  destruct m as [| p | p]; [cbn in Hm; lia | | lia].
  cbn [Zdigits2]. pose proof (digits2_pos_bounds p) as [Blo Bhi].
  set (d := Z.pos (digits2_pos p)) in *.
  assert (Hd : 53 <= d).
  { destruct (Z_lt_le_dec d 53) as [L | G]; [| exact G].
    assert (2 ^ d <= 2 ^ 52) by (apply Z.pow_le_mono_r; lia). lia. }
  assert (Hf : fexp prec emax (d + e) = d + e - 53).
  { unfold fexp, SpecFloat.emin, prec, emax. lia. }
  rewrite Hf. replace (d + e - 53 - e) with (d - 53) by lia.
  unfold shr. destruct (d - 53) as [| n | n] eqn:En; [| | lia].
  - cbn [fst snd]. rewrite shr_record_of_loc_m.
    replace d with 53 in * by lia. split; [lia | lia].
  - cbn [fst snd]. rewrite iter_shr_1_m by (rewrite shr_record_of_loc_m; lia).
    rewrite shr_record_of_loc_m. split; [| lia].
    assert (E : 2 ^ d = 2 ^ 53 * 2 ^ Z.pos n)
      by (rewrite <- Z.pow_add_r by lia; f_equal; lia).
    assert (E' : 2 ^ (d - 1) = 2 ^ 52 * 2 ^ Z.pos n)
      by (rewrite <- Z.pow_add_r by lia; f_equal; lia).
    assert (P : 0 < 2 ^ Z.pos n) by (apply Z.pow_pos_nonneg; lia).
    split.
    + apply Z.div_le_lower_bound; [exact P |]. lia.
    + apply Z.div_lt_upper_bound; [exact P |]. lia.
Qed.

Lemma binary_round_aux_large (s : bool) (m e : Z) (l : location) :
  2 ^ 52 <= m -> -1074 <= e ->
  match binary_round_aux prec emax s m e l with
  | S754_finite s' _ _ | S754_infinity s' => s' = s
  | _ => False
  end.
Proof.
  intros Hm He. unfold binary_round_aux.
  pose proof (shr_fexp_large m e l Hm He) as [H1 H1e].
  destruct (shr_fexp prec emax m e l) as [mrs' e']. cbn [fst snd] in H1, H1e.
  assert (H2m : 2 ^ 52 <= round_nearest_even (shr_m mrs') (loc_of_shr_record mrs')).
  { unfold round_nearest_even. destruct (loc_of_shr_record mrs') as [| []];
      try destruct (Z.even _); lia. }
  pose proof (shr_fexp_large _ e' loc_Exact H2m ltac:(lia)) as [H2 _].
  destruct (shr_fexp prec emax _ e' loc_Exact) as [mrs'' e'']. cbn [fst] in H2.
  destruct (shr_m mrs'') as [| p | p]; [cbn in H2; lia | | lia].
  destruct (e'' <=? emax - prec); reflexivity.
Qed.

Lemma digits2_pos_iter_xO (p k : positive) :
  Z.pos (digits2_pos (Pos.iter xO p k)) = Z.pos (digits2_pos p) + Z.pos k.
Proof.
  induction k as [| k IH] using Pos.peano_ind.
  - cbn. lia.
  - rewrite Pos.iter_succ. cbn [digits2_pos]. rewrite Pos2Z.inj_succ, IH. lia.
Qed.

Lemma binary_round_aux_canonical (s : bool) (m : positive) (e : Z) :
  Z.pos (digits2_pos m) = 53 -> -1074 <= e <= 971 ->
  binary_round_aux prec emax s (Z.pos m) e loc_Exact = S754_finite s m e.
Proof.
  intros Hd He.
  assert (Hs : shr_fexp prec emax (Z.pos m) e loc_Exact
               = ({| shr_m := Z.pos m; shr_r := false; shr_s := false |}, e)).
  { unfold shr_fexp. cbn [Zdigits2]. rewrite Hd.
    replace (fexp prec emax (53 + e) - e) with 0
      by (unfold fexp, SpecFloat.emin, prec, emax; lia).
    reflexivity. }
  unfold binary_round_aux. rewrite Hs. cbn [shr_m loc_of_shr_record round_nearest_even].
  rewrite Hs. cbn [shr_m].
  replace (e <=? emax - prec) with true
    by (symmetry; apply Z.leb_le; unfold emax, prec; lia).
  reflexivity.
Qed.

(** A positive integer below 2^53 converts to a normal double: 53-bit
    mantissa, exponent from -52 to 0. *)
Lemma double_of_Z_normal (a : Z) :
  1 <= a < 2 ^ 53 ->
  exists m e, Prim2SF (double_of_Z a) = S754_finite false m e
              /\ Z.pos (digits2_pos m) = 53 /\ -52 <= e <= 0.
Proof.
  intros Ha. unfold double_of_Z.
  replace (a <? 0) with false by (symmetry; apply Z.ltb_ge; lia).
  rewrite FloatAxioms.of_uint63_spec.
  rewrite Uint63.of_Z_spec.
  rewrite Z.mod_small by (change Uint63.wB with (2 ^ 63); split; [lia |];
                          assert (2 ^ 53 < 2 ^ 63) by reflexivity; lia).
  destruct a as [| p | p]; [lia | | lia].
  unfold binary_normalize, binary_round.
  pose proof (digits2_pos_bounds p) as [Blo Bhi].
  set (d := Z.pos (digits2_pos p)) in *.
  assert (Hd : 1 <= d <= 53).
  { split; [subst d; lia |].
    destruct (Z_lt_le_dec 53 d) as [L | G]; [| exact G].
    assert (2 ^ 53 <= 2 ^ (d - 1)) by (apply Z.pow_le_mono_r; lia). lia. }
  replace (fexp prec emax (d + 0)) with (d - 53)
    by (unfold fexp, SpecFloat.emin, prec, emax; lia).
  unfold shl_align. rewrite Z.sub_0_r.
  destruct (d - 53) as [| k | k] eqn:Ek; [| lia |].
  - exists p, 0. rewrite binary_round_aux_canonical by (fold d; lia).
    split; [reflexivity |]. fold d. lia.
  - exists (Pos.iter xO p k), (Z.neg k).
    assert (Hk : Z.pos (digits2_pos (Pos.iter xO p k)) = 53)
      by (rewrite digits2_pos_iter_xO; fold d; lia).
    rewrite binary_round_aux_canonical by (try exact Hk; lia).
    split; [reflexivity |]. split; [exact Hk | lia].
Qed.

(** The quotient of two positive integers below 2^53, computed on doubles,
    is a positive double (finite or infinite): it neither underflows to
    zero nor is NaN. *)
Lemma double_div_positive (a b : Z) :
  1 <= a < 2 ^ 53 -> 1 <= b < 2 ^ 53 ->
  exists s, Prim2SF (double_of_Z a / double_of_Z b)%float = s
            /\ match s with
               | S754_finite false _ _ | S754_infinity false => True
               | _ => False
               end.
Proof.
  intros Ha Hb. eexists. split; [reflexivity |].
  rewrite FloatAxioms.div_spec.
  destruct (double_of_Z_normal a Ha) as (mx & ex & -> & Hdx & Hex).
  destruct (double_of_Z_normal b Hb) as (my & ey & -> & Hdy & Hey).
  unfold SF64div, SFdiv, SFdiv_core_binary. cbn [Zdigits2 xorb]. rewrite Hdx, Hdy.
  replace (Z.min (fexp prec emax (53 + ex - (53 + ey))) (ex - ey)) with (ex - ey - 53)
    by (unfold fexp, SpecFloat.emin, prec, emax; lia).
  replace (ex - ey - (ex - ey - 53)) with 53 by lia.
  rewrite Z.shiftl_mul_pow2 by lia.
  pose proof (digits2_pos_bounds mx) as [Xlo Xhi].
  pose proof (digits2_pos_bounds my) as [Ylo Yhi].
  rewrite Hdx in Xlo, Xhi. rewrite Hdy in Ylo, Yhi.
  change (53 - 1) with 52 in *.
  destruct (Z.div_eucl (Z.pos mx * 2 ^ 53) (Z.pos my)) as [q r] eqn:E.
  assert (Hq : q = Z.pos mx * 2 ^ 53 / Z.pos my)
    by (unfold Z.div; rewrite E; reflexivity).
  assert (Hq52 : 2 ^ 52 <= q).
  { rewrite Hq. apply Z.div_le_lower_bound; [lia |].
    assert (2 ^ 52 * 2 ^ 53 <= Z.pos mx * 2 ^ 53) by (apply Z.mul_le_mono_nonneg_r; lia).
    assert (Z.pos my * 2 ^ 52 <= 2 ^ 53 * 2 ^ 52) by (apply Z.mul_le_mono_nonneg_r; lia).
    lia. }
  pose proof (binary_round_aux_large false q (ex - ey - 53)
                (new_location (Z.pos my) r) Hq52 ltac:(lia)) as R.
  destruct (binary_round_aux prec emax false q (ex - ey - 53) _) as [s | s | | s m e];
    try contradiction; subst s; exact I.
Qed.

Lemma double_div_not_le_zero (a b : Z) :
  1 <= a < 2 ^ 53 -> 1 <= b < 2 ^ 53 ->
  (double_of_Z a / double_of_Z b <=? 0)%float = false.
Proof.
  intros Ha Hb. rewrite FloatAxioms.leb_spec. change (Prim2SF 0) with (S754_zero false).
  destruct (double_div_positive a b Ha Hb) as (s & -> & Hs).
  destruct s as [s | s | | s m e]; try contradiction; destruct s; try contradiction;
    reflexivity.
Qed.

(** ** Sign of doubles *)

Lemma binary_round_aux_sign (s : bool) (m e : Z) (l : location) :
  sf_sign_is s (binary_round_aux prec emax s m e l).
Proof.
  unfold binary_round_aux.
  destruct (shr_fexp prec emax m e l) as [mrs' e'].
  destruct (shr_fexp prec emax _ e' loc_Exact) as [mrs'' e''].
  destruct (shr_m mrs'') as [| p | p]; cbn; auto.
  destruct (e'' <=? emax - prec); cbn; auto.
Qed.

Lemma sign_clear_spec (f : float) : sign_clear f = true <-> sf_sign_is false (Prim2SF f).
Proof.
  unfold sign_clear, sf_sign_is.
  destruct (Prim2SF f) as [s | s | | s m e]; try destruct s; cbn; intuition congruence.
Qed.

Lemma sign_clear_of_uint63 (n : PrimInt63.int) : sign_clear (of_uint63 n) = true.
Proof.
  apply sign_clear_spec. rewrite of_uint63_spec.
  pose proof (Uint63.to_Z_bounded n) as [H _].
  unfold binary_normalize. destruct (Uint63.to_Z n) as [| p | p]; [reflexivity | | lia].
  unfold binary_round.
  destruct (shl_align _ _ _) as [mz ez]. apply binary_round_aux_sign.
Qed.

Lemma sign_clear_double_of_Z (z : Z) : 0 <= z -> sign_clear (double_of_Z z) = true.
Proof.
  intros H. unfold double_of_Z. rewrite (proj2 (Z.ltb_ge z 0) H).
  apply sign_clear_of_uint63.
Qed.

Lemma sign_clear_mul (x y : float) :
  sign_clear x = true -> sign_clear y = true -> sign_clear (x * y)%float = true.
Proof.
  rewrite !sign_clear_spec, mul_spec.
  destruct (Prim2SF x) as [sx | sx | | sx mx ex], (Prim2SF y) as [sy | sy | | sy my ey];
    cbn; intros; subst; cbn; auto.
  apply (binary_round_aux_sign false).
Qed.

Lemma sign_clear_div (x y : float) :
  sign_clear x = true -> sign_clear y = true -> sign_clear (x / y)%float = true.
Proof.
  rewrite !sign_clear_spec, div_spec.
  destruct (Prim2SF x) as [sx | sx | | sx mx ex], (Prim2SF y) as [sy | sy | | sy my ey];
    cbn; intros; subst; cbn; auto.
  destruct (SFdiv_core_binary _ _ _ _ _ _) as [[mz ez] lz].
  apply (binary_round_aux_sign false).
Qed.

Lemma sign_clear_not_negative (x : float) :
  sign_clear x = true -> (x <? 0)%float = false.
Proof.
  rewrite sign_clear_spec, ltb_spec. change (Prim2SF 0) with (S754_zero false).
  destruct (Prim2SF x) as [s | s | | s m e]; cbn; intros; subst; reflexivity.
Qed.

(** ** RPM estimator and speed task *)

Lemma RPMCalculate_sign_clear (rate count dt : Z) :
  0 <= count -> 0 <= dt -> sign_clear (RPMCalculate rate count dt) = true.
Proof.
  intros Hc Hd.
  unfold RPMCalculate. repeat apply sign_clear_mul.
  - apply sign_clear_div; [apply sign_clear_double_of_Z; exact Hc | reflexivity].
  - reflexivity.
  - apply sign_clear_div; apply sign_clear_double_of_Z; [| exact Hd].
    unfold pdMS_TO_TICKS, uint32_t. apply Z.mod_pos_bound. reflexivity.
Qed.

Lemma PIDController_result_cases (st st' : PIDState) (RPM dt : float) (r : Z) :
  PIDController st RPM dt = Some (r, st') ->
  0 <= r <= PERIOD
  \/ (r = PID_ERROR /\ st' = st /\ ((RPM <? 0) || (dt <=? 0))%float = true).
Proof.
  unfold PIDController, PERIOD.
  destruct ((RPM =? 0)%float && (dt =? -1)%float); [intros [= <- <-]; left; rewrite uint16_t_small; lia |].
  destruct (pid_softSetRPM st =? 0)%float; [intros [= <- <-]; left; rewrite uint16_t_small; lia |].
  destruct ((RPM <? 0)%float || (dt <=? 0)%float) eqn:Hbad;
    [intros [= <- <-]; right; auto |].
  destruct (RPM <? 100)%float; [intros [= <- <-]; left; rewrite uint16_t_small; lia |].
  destruct (int_of_double _) as [out |]; [| discriminate].
  intros [= <- <-]. left.
  destruct (Z.ltb_spec out 0).
  - change (5 >? 100) with false. cbv iota. rewrite uint16_t_small; lia.
  - destruct (out >? 100) eqn:Hgt; rewrite uint16_t_small; lia.
Qed.

(** What a defined iteration of the speed task has done. *)
Lemma speedControllerTask_iteration_Some (rate tick : Z) (st st' : SpeedState)
    (calls : list MotorCall) :
  speedControllerTask_iteration rate tick st = Some (calls, st') ->
  let deltaTime := uint32_t (tick - lastTick st) in
  let RPM := RPMCalculate rate (hallEffect_Count st) deltaTime in
  exists output pid' a b,
    PIDController (sc_pid st) RPM (TICKS_TO_MS rate deltaTime) = Some (output, pid')
    /\ uint32_of_double RPM = Some a
    /\ uint32_of_double (lastRPM st) = Some b
    /\ calls = (if 0 <=? output then [setDuty (uint16_t output)] else [])
    /\ lastTick st' = tick
    /\ hallEffect_Count st' = 0
    /\ sc_pid st' = pid'
    /\ sc_rpmData st' = snd (setterVal (sc_rpmData st) RPM true 100)
    /\ sc_pwmData st' = snd (setterVal (sc_pwmData st) (double_of_Z output) true 100).
Proof.
  unfold speedControllerTask_iteration. cbv zeta.
  destruct (PIDController _ _ _) as [[out pid'] |]; [| discriminate].
  destruct (setterVal (sc_rpmData st) _ true 100) as [e1 rpm'].
  destruct (uint32_of_double (RPMCalculate _ _ _)) as [a |]; [| discriminate].
  destruct (uint32_of_double (lastRPM st)) as [b |]; [| discriminate].
  destruct (setterVal (sc_pwmData st) _ true 100) as [e2 pwm'] eqn:Hw.
  intros [= <- <-]. exists out, pid', a, b. rewrite Hw. cbn.
  repeat split; reflexivity.
Qed.

(** *** The schedule of the speed task *)

Lemma pdMS_TO_TICKS_exact (rate ms : Z) :
  0 <= ms * rate < 2 ^ 32 -> pdMS_TO_TICKS rate ms = ms * rate / 1000.
Proof.
  intros H. unfold pdMS_TO_TICKS, uint32_t.
  rewrite (Z.mod_small (ms * rate)) by exact H.
  apply Z.mod_small. split; [apply Z.div_pos; lia |].
  apply Z.div_lt_upper_bound; lia.
Qed.

Lemma pdMS_TO_TICKS_100 (rate : Z) :
  10 <= rate <= 4294967 ->
  1 <= pdMS_TO_TICKS rate 100 <= pdMS_TO_TICKS rate 1000
  /\ pdMS_TO_TICKS rate 1000 = rate.
Proof.
  intros H. assert (2 ^ 32 = 4294967296) by reflexivity.
  rewrite !pdMS_TO_TICKS_exact by lia.
  repeat split; Z.to_euclidean_division_equations; lia.
Qed.

(** A positive number of ticks is a positive time. *)
Lemma TICKS_TO_MS_positive (rate ticks : Z) :
  1 <= rate < 2 ^ 53 -> 1 <= ticks < 2 ^ 53 ->
  (TICKS_TO_MS rate ticks <=? 0)%float = false.
Proof.
  intros Hr Ht. unfold TICKS_TO_MS. apply double_div_not_le_zero; assumption.
Qed.

Lemma elapsed_ticks (now prev : Z) :
  0 <= now - prev < 2 ^ 32 ->
  uint32_t (xTaskGetTickCount now - uint32_t prev) = now - prev.
Proof.
  intros H. unfold xTaskGetTickCount, uint32_t.
  rewrite <- Zminus_mod. apply Z.mod_small. exact H.
Qed.

Lemma speedControllerTask_loop_ok (rate : Z) (cycles : list SpeedCycle) :
  10 <= rate <= 4294967 ->
  Forall (cycle_short rate) cycles ->
  forall (now prev : Z) (st : SpeedState),
    lastTick st = uint32_t prev ->
    pdMS_TO_TICKS rate 100 <= now - prev < 2 ^ 32 ->
    Forall (speed_cycle_ok rate) (speedControllerTask_loop rate now st cycles).
Proof.
  intros Hrate Hshort. pose proof (pdMS_TO_TICKS_100 rate Hrate) as (H100 & _).
  assert (P32 : 2 ^ 32 = 4294967296) by reflexivity.
  assert (P53 : 2 ^ 53 = 9007199254740992) by reflexivity.
  induction Hshort as [| c rest Hc Hrest IH]; intros now prev st Hlast Hnow;
    cbn [speedControllerTask_loop]; [constructor |].
  cbv zeta. cbn [speed_env lastTick]. rewrite Hlast.
  rewrite (elapsed_ticks now prev) by lia.
  destruct (speedControllerTask_iteration rate (xTaskGetTickCount now) (speed_env c st))
    as [[calls st'] |] eqn:Hit.
  - apply speedControllerTask_iteration_Some in Hit. cbv zeta in Hit.
    cbn [speed_env lastTick hallEffect_Count sc_pid] in Hit.
    rewrite Hlast, (elapsed_ticks now prev) in Hit by lia.
    destruct Hit as (out & pid' & a & b & Hp & _ & _ & -> & Ht & _).
    constructor.
    + split; [cbn [fst]; lia |]. cbn [snd].
      destruct (PIDController_result_cases _ _ _ _ _ Hp) as [Hr | (_ & _ & Hbad)].
      * exists out. unfold PERIOD in *.
        rewrite (proj2 (Z.leb_le 0 out)) by lia.
        rewrite uint16_t_small by lia. split; [reflexivity | lia].
      * exfalso.
        rewrite TICKS_TO_MS_positive in Hbad by lia.
        rewrite (sign_clear_not_negative _
                   (RPMCalculate_sign_clear rate (uint8_t (cy_count c)) (now - prev)
                      ltac:(unfold uint8_t; apply Z.mod_pos_bound; reflexivity)
                      ltac:(lia))) in Hbad.
        discriminate Hbad.
    + apply (IH _ now); [exact Ht |].
      unfold cycle_short in Hc. unfold vTaskDelayUntil. lia.
  - constructor; [| constructor]. split; [cbn [fst]; lia | exact I].
Qed.

Lemma speedControllerTask_ok (rate created late : Z) (st : SpeedState)
    (cycles : list SpeedCycle) :
  10 <= rate <= 4294967 ->
  0 <= created ->
  created + pdMS_TO_TICKS rate 1000 + Z.max 0 late < 2 ^ 32 ->
  Forall (cycle_short rate) cycles ->
  Forall (speed_cycle_ok rate) (speedControllerTask rate created late st cycles).
Proof.
  intros Hrate Hc Hfirst Hshort. unfold speedControllerTask.
  pose proof (pdMS_TO_TICKS_100 rate Hrate) as (H100 & _).
  apply (speedControllerTask_loop_ok rate cycles Hrate Hshort _ 0).
  - reflexivity.
  - unfold vTaskDelay. lia.
Qed.






(** The example run: all three iterations are defined, the elapsed tick
    counts are 1000, 103 and 101, and each applies a duty from 0 to
    PERIOD. *)
Lemma speedControllerTask_three_cycles :
  speedControllerTask 1000 0 0 speed_start speed_three_cycles
  = [ (1000, Some [setDuty 16]); (103, Some [setDuty 1]);
      (101, Some [setDuty 5]) ].
Proof. vm_compute. reflexivity. Qed.

(** ** Soft ramp under E-stop *)

(** C6, evaluation at the failing input: motor enabled, ramped setpoint at
    1000 RPM, stored target 2000 RPM, E-stop asserted (the state reached from
    start-up 200 ticks after 2000 RPM is requested, with E-stop then set).
    The tick writes 0 to the stored target but compares against the value
    2000 it read before, so the ramped setpoint rises by the emergency step
    to 1010; only the following tick steps down.  When the target is written
    again before every tick, the setpoint keeps rising while E-stop stays
    asserted. *)
Lemma xTimer1AHandler_estop_stale_target :
  fold_left ramp_step ramp_to_1000 ramp_boot = set_estop false ramp_estop_mid
  /\ softSetRPM (xTimer1AHandler ramp_estop_mid) = 1010%float
  /\ raw (values (rpmData (xTimer1AHandler ramp_estop_mid))) = 0%float
  /\ estop (xTimer1AHandler ramp_estop_mid) = true
  /\ softSetRPM (xTimer1AHandler (xTimer1AHandler ramp_estop_mid)) = 1000%float
  /\ map (fun pp => (estop (snd pp), softSetRPM (snd pp)))
         (ramp_trace ramp_estop_mid rewrite_2000)
     = [ (true, 1010%float); (true, 1020%float); (true, 1030%float);
         (true, 1040%float); (true, 1050%float) ].
Proof.
  split; [| split; [| split; [| split; [| split]]]]; vm_compute; reflexivity.
Qed.

(** ** ADC sample ring buffer *)

Ltac zmod := unfold MAXBUFFER in *; Z.to_euclidean_division_equations; lia.

Lemma uint8_t_small (z : Z) : 0 <= z < 256 -> uint8_t z = z.
Proof. intros H. unfold uint8_t. apply Z.mod_small. exact H. Qed.

Lemma uint32_t_small (z : Z) : 0 <= z < 4294967296 -> uint32_t z = z.
Proof. intros H. unfold uint32_t. apply Z.mod_small. exact H. Qed.

Lemma next_index (i : Z) : 0 <= (i + 1) mod MAXBUFFER < 40.
Proof. zmod. Qed.

Lemma uint8_next (i : Z) : uint8_t ((i + 1) mod MAXBUFFER) = (i + 1) mod MAXBUFFER.
Proof. apply uint8_t_small. pose proof (next_index i). lia. Qed.

Lemma uint32_next (i : Z) : uint32_t ((i + 1) mod MAXBUFFER) = (i + 1) mod MAXBUFFER.
Proof. apply uint32_t_small. pose proof (next_index i). lia. Qed.

Lemma push_unfold (a b : Z) (r : AdcRing) :
  xADC1Sequence0 a b r =
  {| adcBuffer := <[ Z.to_nat (adcHead r) := {| ch0 := a; ch4 := b |} ]> (adcBuffer r);
     adcHead := (adcHead r + 1) mod MAXBUFFER;
     adcTail := if ring_full r then (adcTail r + 1) mod MAXBUFFER else adcTail r |}.
Proof.
  unfold xADC1Sequence0, ring_full.
  rewrite uint32_next, uint8_next, uint8_next. reflexivity.
Qed.

Lemma ring_ok_push (a b : Z) (r : AdcRing) : ring_ok r -> ring_ok (xADC1Sequence0 a b r).
Proof.
  intros (Hlen & Hh & Ht). rewrite push_unfold. unfold ring_ok. cbn.
  rewrite length_insert. split; [exact Hlen |]. split; [apply next_index |].
  destruct (ring_full r); [apply next_index | exact Ht].
Qed.

Lemma unread_count_range (r : AdcRing) : 0 <= unread_count r < 40.
Proof. unfold unread_count. zmod. Qed.

Lemma length_unread (r : AdcRing) : Z.of_nat (length (unread r)) = unread_count r.
Proof.
  unfold unread. rewrite length_map, length_seq.
  pose proof (unread_count_range r). lia.
Qed.

Lemma ring_full_count (r : AdcRing) :
  ring_ok r -> (ring_full r = true <-> unread_count r = 39).
Proof.
  intros (_ & Hh & Ht). unfold ring_full, unread_count. rewrite Z.eqb_eq. split; zmod.
Qed.

Lemma slot_insert_eq (buf : list adcSample) (i : Z) (x : adcSample) :
  0 <= i -> (Z.to_nat i < length buf)%nat -> slot (<[ Z.to_nat i := x ]> buf) i = x.
Proof.
  intros Hi Hlen. unfold slot. rewrite list_lookup_insert_eq by exact Hlen. reflexivity.
Qed.

Lemma slot_insert_ne (buf : list adcSample) (i j : Z) (x : adcSample) :
  0 <= i -> 0 <= j -> i <> j -> slot (<[ Z.to_nat i := x ]> buf) j = slot buf j.
Proof.
  intros Hi Hj Hne. unfold slot. rewrite list_lookup_insert_ne by lia. reflexivity.
Qed.

Lemma unread_push_room (a b : Z) (r : AdcRing) :
  ring_ok r -> ring_full r = false ->
  unread (xADC1Sequence0 a b r) = unread r ++ [{| ch0 := a; ch4 := b |}].
Proof.
  intros Hok Hroom. pose proof Hok as (Hlen & Hh & Ht).
  assert (Hn : unread_count r <> 39).
  { intros E. apply (ring_full_count r Hok) in E. congruence. }
  pose proof (unread_count_range r) as Hr.
  rewrite push_unfold, Hroom. unfold unread at 1. cbn [adcBuffer adcHead adcTail].
  assert (Hc : unread_count {| adcBuffer := <[Z.to_nat (adcHead r):={| ch0 := a; ch4 := b |}]> (adcBuffer r);
                 adcHead := (adcHead r + 1) mod MAXBUFFER; adcTail := adcTail r |}
               = unread_count r + 1).
  { unfold unread_count in *. cbn. zmod. }
  rewrite Hc. replace (Z.to_nat (unread_count r + 1)) with (Z.to_nat (unread_count r) + 1)%nat by lia.
  rewrite seq_app, map_app. f_equal.
  - unfold unread. apply map_ext_in. intros k Hk. apply in_seq in Hk.
    apply slot_insert_ne; [lia | zmod |].
    unfold unread_count in *. zmod.
  - cbn [seq map]. f_equal.
    replace ((adcTail r + Z.of_nat (0 + Z.to_nat (unread_count r))) mod MAXBUFFER) with (adcHead r).
    + apply slot_insert_eq; [lia |]. unfold MAXBUFFER in *. lia.
    + unfold unread_count in *. zmod.
Qed.

Lemma map_seq_snoc {A} (f : nat -> A) (n : nat) :
  map f (seq 0 (S n)) = map f (seq 0 n) ++ [f n].
Proof. rewrite seq_S, map_app. reflexivity. Qed.

Lemma map_seq_cons {A} (f : nat -> A) (n : nat) :
  map f (seq 0 (S n)) = f 0%nat :: map (fun k => f (S k)) (seq 0 n).
Proof. cbn [seq map]. rewrite <- seq_shift, map_map. reflexivity. Qed.

Lemma unread_push_full (a b : Z) (r : AdcRing) :
  ring_ok r -> ring_full r = true ->
  unread (xADC1Sequence0 a b r) = tl (unread r) ++ [{| ch0 := a; ch4 := b |}].
Proof.
  intros Hok Hfull. pose proof Hok as (Hlen & Hh & Ht).
  pose proof (proj1 (ring_full_count r Hok) Hfull) as Hn.
  rewrite push_unfold, Hfull. unfold unread. cbn [adcBuffer adcHead adcTail].
  assert (Hc : unread_count {| adcBuffer := <[Z.to_nat (adcHead r):={| ch0 := a; ch4 := b |}]> (adcBuffer r);
                 adcHead := (adcHead r + 1) mod MAXBUFFER;
                 adcTail := (adcTail r + 1) mod MAXBUFFER |} = 39).
  { unfold unread_count in *. cbn. zmod. }
  rewrite Hc, Hn. change (Z.to_nat 39) with (S 38).
  etransitivity; [apply map_seq_snoc |].
  rewrite (map_seq_cons (fun k => slot (adcBuffer r) ((adcTail r + Z.of_nat k) mod MAXBUFFER))).
  cbn [tl]. f_equal.
  - apply map_ext_in. intros k Hk. apply in_seq in Hk.
    replace (((adcTail r + 1) mod MAXBUFFER + Z.of_nat k) mod MAXBUFFER)
      with ((adcTail r + Z.of_nat (S k)) mod MAXBUFFER) by zmod.
    apply slot_insert_ne; [lia | zmod |].
    unfold unread_count in *. zmod.
  - f_equal.
    replace (((adcTail r + 1) mod MAXBUFFER + Z.of_nat 38) mod MAXBUFFER) with (adcHead r).
    + apply slot_insert_eq; [lia |]. unfold MAXBUFFER in *. lia.
    + unfold unread_count in *. zmod.
Qed.

Lemma lastn_short {A} (n : nat) (l : list A) : (length l <= n)%nat -> lastn n l = l.
Proof. intros H. unfold lastn. replace (length l - n)%nat with 0%nat by lia. reflexivity. Qed.

Lemma lastn_cons_long {A} (n : nat) (a : A) (l : list A) :
  (n <= length l)%nat -> lastn n (a :: l) = lastn n l.
Proof.
  intros H. unfold lastn. cbn [length].
  replace (S (length l) - n)%nat with (S (length l - n)) by lia. reflexivity.
Qed.

Lemma unread_pushes (xs : list (Z * Z)) (r : AdcRing) :
  ring_ok r ->
  ring_ok (pushes xs r)
  /\ unread (pushes xs r) = lastn 39 (unread r ++ map sample_of xs).
Proof.
  revert r. induction xs as [| [a b] xs IH]; intros r Hok.
  - split; [exact Hok |]. cbn. rewrite app_nil_r, lastn_short; [reflexivity |].
    pose proof (length_unread r). pose proof (unread_count_range r). lia.
  - cbn [pushes fold_left fst snd]. 
    destruct (IH (xADC1Sequence0 a b r) (ring_ok_push a b r Hok)) as [Hok' Hun].
    split; [exact Hok' |]. unfold pushes in Hun. rewrite Hun.
    cbn [map]. unfold sample_of at 2. cbn [fst snd].
    destruct (ring_full r) eqn:Hfull.
    + rewrite (unread_push_full a b r Hok Hfull).
      pose proof (proj1 (ring_full_count r Hok) Hfull) as Hn.
      pose proof (length_unread r) as Hl.
      destruct (unread r) as [| o u]; [cbn in Hl; lia |].
      cbn [tl]. rewrite <- app_assoc. cbn [app].

      rewrite lastn_cons_long; [reflexivity |].
      rewrite length_app. cbn [length] in *. lia.
    + rewrite (unread_push_room a b r Hok Hfull), <- app_assoc. reflexivity.
Qed.

Lemma unread_empty (r : AdcRing) : ring_ok r -> adcTail r = adcHead r -> unread r = [].
Proof.
  intros _ E. unfold unread, unread_count. rewrite E, Z.sub_diag. reflexivity.
Qed.

Lemma ring_ok_consume_one (r : AdcRing) : ring_ok r -> ring_ok (consume_one r).
Proof.
  intros (Hlen & Hh & Ht). unfold ring_ok, consume_one. cbn. rewrite uint8_next.
  split; [exact Hlen |]. split; [exact Hh | apply next_index].
Qed.

(** The consumer reads the oldest unread sample and leaves the others. *)
Lemma unread_consume_one (r : AdcRing) :
  ring_ok r -> adcTail r <> adcHead r ->
  unread r = slot (adcBuffer r) (adcTail r) :: unread (consume_one r).
Proof.
  intros (Hlen & Hh & Ht) Hne.
  assert (Hc : unread_count r = unread_count (consume_one r) + 1).
  { unfold unread_count, consume_one. cbn. rewrite uint8_next. zmod. }
  pose proof (unread_count_range (consume_one r)) as Hr'.
  unfold unread at 1. rewrite Hc.
  replace (Z.to_nat (unread_count (consume_one r) + 1))
    with (S (Z.to_nat (unread_count (consume_one r)))) by lia.
  rewrite map_seq_cons. f_equal.
  - unfold slot. cbn [Z.of_nat].
    rewrite Z.add_0_r, Z.mod_small by (unfold MAXBUFFER in *; lia).
    reflexivity.
  - unfold unread. apply map_ext. intros k.
    unfold consume_one. cbn [adcBuffer adcTail]. rewrite uint8_next.
    f_equal. zmod.
Qed.

Lemma drain_unread (fuel : nat) (r : AdcRing) :
  ring_ok r -> unread_count r <= Z.of_nat fuel ->
  drain fuel r = Some (unread r, consumed r).
Proof.
  revert r. induction fuel as [| fuel IH]; intros r Hok Hfuel.
  - pose proof (unread_count_range r) as Hr. pose proof Hok as (_ & Hh & Ht).
    assert (E : adcTail r = adcHead r) by (unfold unread_count in *; zmod).
    cbn. rewrite (proj2 (Z.eqb_eq _ _) E), (unread_empty r Hok E).
    destruct r; cbn in *; subst; reflexivity.
  - cbn [drain]. destruct (Z.eqb_spec (adcTail r) (adcHead r)) as [E | Hne].
    + rewrite (unread_empty r Hok E). destruct r; cbn in *; subst; reflexivity.
    + rewrite (unread_consume_one r Hok Hne).
      assert (Hc : unread_count r = unread_count (consume_one r) + 1).
      { pose proof Hok as (_ & Hh & Ht).
        unfold unread_count, consume_one. cbn. rewrite uint8_next. zmod. }
      rewrite (IH (consume_one r) (ring_ok_consume_one r Hok)) by lia.
      reflexivity.
Qed.

Lemma ring_ok_boot : ring_ok adc_boot.
Proof.
  unfold ring_ok, adc_boot, MAXBUFFER. cbn [adcBuffer adcHead adcTail].
  rewrite length_replicate. lia.
Qed.

(** X26. The producer, and the consumer when no ADC interrupt arrives
    during its loop.  For every sequence of calls of [xADC1Sequence0] on a
    well-formed ring, the handler always returns (it never waits), the ring
    stays well-formed (both indices below [MAXBUFFER]), and the unread
    samples are the newest 39 of the old unread samples followed by the
    pushed ones.  A push on a full ring advances the tail and drops exactly
    the oldest unread sample; every push retains the new sample as the
    newest.  An uninterrupted pass of the consumer loop reads the oldest
    unread sample, and an uninterrupted loop reads exactly the unread
    samples and stops with the ring empty. *)
Theorem adc_ring_drop_oldest (r : AdcRing) (xs : list (Z * Z)) :
  ring_ok r ->
  let r' := pushes xs r in
  ring_ok r'
  /\ unread r' = lastn 39 (unread r ++ map sample_of xs)
  /\ (forall a b,
        ring_full r' = true ->
        adcTail (xADC1Sequence0 a b r') = (adcTail r' + 1) mod MAXBUFFER
        /\ unread (xADC1Sequence0 a b r')
           = tl (unread r') ++ [{| ch0 := a; ch4 := b |}])
  /\ (forall a b,
        ring_full r' = false ->
        adcTail (xADC1Sequence0 a b r') = adcTail r'
        /\ unread (xADC1Sequence0 a b r')
           = unread r' ++ [{| ch0 := a; ch4 := b |}])
  /\ (adcTail r' <> adcHead r' ->
      unread r' = slot (adcBuffer r') (adcTail r') :: unread (consume_one r'))
  /\ drain (Z.to_nat MAXBUFFER) r' = Some (unread r', consumed r').
Proof.
  intros Hok r'. destruct (unread_pushes xs r Hok) as [Hok' Hun]. fold r' in Hok', Hun.
  split; [exact Hok' |]. split; [exact Hun |].
  split; [| split; [| split]].
  - intros a b Hfull. split.
    + rewrite push_unfold, Hfull. reflexivity.
    + apply unread_push_full; assumption.
  - intros a b Hroom. split.
    + rewrite push_unfold, Hroom. reflexivity.
    + apply unread_push_room; assumption.
  - apply unread_consume_one. exact Hok'.
  - apply drain_unread; [exact Hok' |].
    pose proof (unread_count_range r'). unfold MAXBUFFER. lia.
Qed.

Lemma adc_ring_drop_oldest_witness :
  let r' := pushes (map (fun k => (Z.of_nat k, Z.of_nat k)) (seq 1 45)) adc_boot in
  ring_ok r'
  /\ unread r' = lastn 39 (unread adc_boot
                            ++ map sample_of
                                 (map (fun k => (Z.of_nat k, Z.of_nat k)) (seq 1 45)))
  /\ (forall a b,
        ring_full r' = true ->
        adcTail (xADC1Sequence0 a b r') = (adcTail r' + 1) mod MAXBUFFER
        /\ unread (xADC1Sequence0 a b r')
           = tl (unread r') ++ [{| ch0 := a; ch4 := b |}])
  /\ (forall a b,
        ring_full r' = false ->
        adcTail (xADC1Sequence0 a b r') = adcTail r'
        /\ unread (xADC1Sequence0 a b r')
           = unread r' ++ [{| ch0 := a; ch4 := b |}])
  /\ (adcTail r' <> adcHead r' ->
      unread r' = slot (adcBuffer r') (adcTail r') :: unread (consume_one r'))
  /\ drain (Z.to_nat MAXBUFFER) r' = Some (unread r', consumed r').
Proof.
  apply (adc_ring_drop_oldest adc_boot).
  unfold ring_ok, adc_boot, MAXBUFFER. cbn [adcBuffer adcHead adcTail].
  split; [vm_compute; reflexivity | lia].
Defined.

(** After 45 conversions on the empty ring the consumer reads samples 7 to
    45: the six oldest were overwritten, the newest is there. *)
Lemma adc_ring_after_45 :
  option_map (fun p => map ch0 (fst p))
    (drain (Z.to_nat MAXBUFFER)
       (pushes (map (fun k => (Z.of_nat k, Z.of_nat k)) (seq 1 45)) adc_boot))
  = Some (map Z.of_nat (seq 7 39)).
Proof. vm_compute. reflexivity. Qed.

(** *** Interrupts during a pass of the consumer *)

(** Without an interrupt the pass reads the slot at [adcTail] and advances
    the tail: the sequential step [consume_one]. *)
Lemma consume_one_preempted_no_irq (r : AdcRing) :
  consume_one_preempted no_irq r = (slot (adcBuffer r) (adcTail r), consume_one r).
Proof.
  unfold consume_one_preempted, no_irq, consume_one. cbn.
  destruct (slot (adcBuffer r) (adcTail r)). reflexivity.
Qed.

(** C9, the failing interleaving.  On every well-formed full ring, when one
    ADC interrupt arrives between the two reads of a consumer pass, the
    handler advances [adcTail] under the consumer: the pass pairs [ch0] of
    the oldest unread sample with [ch4] of the second oldest, a pair that
    was never pushed, and then advances the tail once more, so the second
    oldest sample is never read. *)
Theorem powerTask_consumer_torn_read (r : AdcRing) (a b : Z) :
  ring_ok r -> ring_full r = true ->
  let oldest := slot (adcBuffer r) (adcTail r) in
  let second := slot (adcBuffer r) ((adcTail r + 1) mod MAXBUFFER) in
  let pass := consume_one_preempted (one_irq_after_ch0 a b) r in
  unread r = oldest :: second :: tl (tl (unread r))
  /\ fst pass = {| ch0 := ch0 oldest; ch4 := ch4 second |}
  /\ snd pass = consume_one (xADC1Sequence0 a b r)
  /\ unread (snd pass) = tl (tl (unread r)) ++ [{| ch0 := a; ch4 := b |}].
Proof.
  intros Hok Hfull. cbv zeta.
  pose proof Hok as (Hlen & Hh & Ht).
  pose proof (proj1 (ring_full_count r Hok) Hfull) as Hn.
  assert (Hne : adcTail r <> adcHead r) by (unfold unread_count in Hn; zmod).
  pose proof (unread_consume_one r Hok Hne) as U1.
  pose proof (ring_ok_consume_one r Hok) as Hok1.
  assert (Hne1 : adcTail (consume_one r) <> adcHead (consume_one r)).
  { unfold consume_one. cbn. rewrite uint8_next. unfold unread_count in Hn. zmod. }
  pose proof (unread_consume_one (consume_one r) Hok1 Hne1) as U2.
  assert (E2 : slot (adcBuffer (consume_one r)) (adcTail (consume_one r))
               = slot (adcBuffer r) ((adcTail r + 1) mod MAXBUFFER)).
  { unfold consume_one. cbn. rewrite uint8_next. reflexivity. }
  rewrite E2 in U2.
  split; [rewrite U1, U2; reflexivity |].
  pose proof (ring_ok_push a b r Hok) as Hokp.
  assert (Hnep : adcTail (xADC1Sequence0 a b r) <> adcHead (xADC1Sequence0 a b r)).
  { rewrite push_unfold, Hfull. cbn. unfold unread_count in Hn. zmod. }
  pose proof (unread_consume_one _ Hokp Hnep) as U3.
  rewrite (unread_push_full a b r Hok Hfull) in U3.
  unfold consume_one_preempted, one_irq_after_ch0. cbn [irq_after_ch0 irq_after_ch4
    irq_in_update fold_left fst snd].
  split; [| split].
  - f_equal. rewrite push_unfold, Hfull. cbn [adcBuffer adcTail].
    rewrite slot_insert_ne; [reflexivity | lia | zmod |].
    unfold unread_count in Hn. zmod.
  - reflexivity.
  - change {| adcBuffer := adcBuffer (xADC1Sequence0 a b r);
              adcHead := adcHead (xADC1Sequence0 a b r);
              adcTail := uint8_t ((adcTail (xADC1Sequence0 a b r) + 1) mod MAXBUFFER) |}
      with (consume_one (xADC1Sequence0 a b r)).
    rewrite U1, U2 in U3. cbn [tl app] in U3.
    rewrite U1, U2. cbn [tl].
    injection U3 as _ U3. symmetry. exact U3.
Qed.

Lemma ring_39_unread_ok : ring_ok ring_39_unread /\ ring_full ring_39_unread = true.
Proof.
  split; [| vm_compute; reflexivity].
  exact (proj1 (unread_pushes
                  (map (fun k => (Z.of_nat k, 100 + Z.of_nat k)) (seq 1 39))
                  adc_boot ring_ok_boot)).
Qed.

Lemma powerTask_consumer_torn_read_witness :
  fst (consume_one_preempted (one_irq_after_ch0 40 140) ring_39_unread)
  = {| ch0 := 1; ch4 := 102 |}
  /\ snd (consume_one_preempted (one_irq_after_ch0 40 140) ring_39_unread)
     = consume_one (xADC1Sequence0 40 140 ring_39_unread)
  /\ unread (snd (consume_one_preempted (one_irq_after_ch0 40 140) ring_39_unread))
     = tl (tl (unread ring_39_unread)) ++ [{| ch0 := 40; ch4 := 140 |}].
Proof.
  pose proof (powerTask_consumer_torn_read ring_39_unread 40 140
                (proj1 ring_39_unread_ok) (proj2 ring_39_unread_ok))
    as (_ & Hpair & Hring & Hunread).
  split; [exact Hpair |]. split; [exact Hring | exact Hunread].
Defined.

(** The same interleaving evaluated: the 39 unread samples are [(k, 100 +
    k)], the interrupt brings [(40, 140)].  The pass reads [(1, 102)],
    which is none of the 40 conversions, and the samples left to read are
    3 to 40: sample 2 is lost although only one conversion arrived. *)
Lemma powerTask_consumer_torn_read_example :
  map (fun x => (ch0 x, ch4 x)) (unread ring_39_unread)
  = map (fun k => (Z.of_nat k, 100 + Z.of_nat k)) (seq 1 39)
  /\ fst (consume_one_preempted (one_irq_after_ch0 40 140) ring_39_unread)
     = {| ch0 := 1; ch4 := 102 |}
  /\ forallb (fun k => negb ((Z.of_nat k =? 1) && (100 + Z.of_nat k =? 102)))
             (seq 1 40) = true
  /\ map ch0 (unread (snd (consume_one_preempted (one_irq_after_ch0 40 140)
                                                 ring_39_unread)))
     = map Z.of_nat (seq 3 38).
Proof.
  split; [| split; [| split]]; vm_compute; reflexivity.
Qed.

(** ** Soft ramp *)

(** Turns each comparison made by the handler into the order fact it
    stands for. *)
Ltac qbool :=
  repeat match goal with
  | |- context [Qle_bool ?a ?b] =>
      let E := fresh "E" in
      destruct (Qle_bool a b) eqn:E;
      [ apply Qle_bool_iff in E
      | assert (b < a)%Q
          by (apply Qnot_le_lt; intros C; apply Qle_bool_iff in C; congruence);
        clear E ]
  end.

Ltac ramp_simpl :=
  unfold set_motorState, set_softSetRPM, set_rpm_raw, set_estop;
  cbn [motorState estop rpmData softSetRPM steps esteps values raw filtered mutex
       of_int dle dlt dadd dsub Q_ops negb andb].

Lemma ramp_inv_apply_input (i : RampInput Q) (st : RampState Q) :
  input_ok i -> ramp_inv st -> ramp_inv (apply_input i st).
Proof.
  destruct st as [m e [mx [f r]] x k ke], i as [[t |] [b |]];
    unfold input_ok, ramp_inv, apply_input; ramp_simpl; intuition.
Qed.

Lemma ramp_inv_boot : ramp_inv ramp_boot.
Proof.
  unfold ramp_inv, ramp_boot, setupTimers. ramp_simpl.
  repeat split; try discriminate; try reflexivity.
Qed.

(** *** Comparison of doubles *)

Lemma lex_cmp_antisym e1 m1 e2 m2 : lex_cmp e2 m2 e1 m1 = CompOpp (lex_cmp e1 m1 e2 m2).
Proof.
  unfold lex_cmp. rewrite (Z.compare_antisym e1 e2).
  destruct (e1 ?= e2); cbn; try reflexivity. apply Pos.compare_antisym.
Qed.

Lemma lex_cmp_Lt_trans e1 m1 e2 m2 e3 m3 :
  lex_cmp e1 m1 e2 m2 = Lt -> lex_cmp e2 m2 e3 m3 = Lt -> lex_cmp e1 m1 e3 m3 = Lt.
Proof.
  unfold lex_cmp.
  destruct (Z.compare_spec e1 e2), (Z.compare_spec e2 e3), (Z.compare_spec e1 e3);
    try discriminate; try lia; try reflexivity.
  rewrite !Pos.compare_lt_iff. intros. etransitivity; eassumption.
Qed.

Lemma SFcompare_finite s1 m1 e1 s2 m2 e2 :
  SFcompare (S754_finite s1 m1 e1) (S754_finite s2 m2 e2) =
  Some (if s1 then if s2 then CompOpp (lex_cmp e1 m1 e2 m2) else Lt
        else if s2 then Gt else lex_cmp e1 m1 e2 m2).
Proof.
  unfold SFcompare, lex_cmp. destruct s1, s2; try reflexivity;
    destruct (e1 ?= e2); reflexivity.
Qed.

Lemma SFcompare_antisym (x y : spec_float) (c : comparison) :
  SFcompare x y = Some c -> SFcompare y x = Some (CompOpp c).
Proof.
  destruct x as [sx | sx | | sx mx ex], y as [sy | sy | | sy my ey];
    try (cbn; discriminate);
    try (cbn; intros [= <-]; repeat match goal with s : bool |- _ => destruct s end; reflexivity).
  rewrite !SFcompare_finite. intros [= <-]. f_equal.
  rewrite (lex_cmp_antisym ex mx ey my).
  destruct sx, sy; cbn; reflexivity.
Qed.

Lemma CompOpp_Lt (c : comparison) : CompOpp c = Lt <-> c = Gt.
Proof. destruct c; cbn; split; congruence. Qed.

Lemma SFcompare_Lt_trans (x y z : spec_float) :
  SFcompare x y = Some Lt -> SFcompare y z = Some Lt -> SFcompare x z = Some Lt.
Proof.
  destruct x as [sx | sx | | sx mx ex], y as [sy | sy | | sy my ey],
           z as [sz | sz | | sz mz ez];
    try (cbn; discriminate);
    try (cbn; repeat match goal with s : bool |- _ => destruct s end;
         cbn; congruence);
    rewrite ?SFcompare_finite;
    try (cbn; repeat match goal with s : bool |- _ => destruct s end;
         cbn; congruence).
  destruct sx, sy, sz; try congruence; intros [= H1] [= H2]; f_equal.
  - apply CompOpp_Lt in H1, H2. apply CompOpp_Lt.
    rewrite <- (CompOpp_involutive (lex_cmp ex mx ez mz)), <- lex_cmp_antisym.
    apply CompOpp_Lt. rewrite CompOpp_involutive.
    apply (lex_cmp_Lt_trans ez mz ey my ex mx).
    + rewrite lex_cmp_antisym, H2. reflexivity.
    + rewrite lex_cmp_antisym, H1. reflexivity.
  - apply (lex_cmp_Lt_trans ex mx ey my ez mz); assumption.
Qed.

(** *** Small integers as doubles *)

(** Every integer from -16 to 4111 is below its successor as a double, and
    compares equal to itself. *)
Lemma double_chain_checked :
  forallb (fun n : nat =>
             let a := Z.of_nat n - 16 in
             (double_of_Z a <? double_of_Z (a + 1))%float
             && (double_of_Z a <=? double_of_Z a)%float)
          (seq 0 4128) = true.
Proof. vm_compute. reflexivity. Qed.

Lemma double_succ_lt (a : Z) :
  -16 <= a < 4112 -> (double_of_Z a <? double_of_Z (a + 1))%float = true.
Proof.
  intros H. pose proof double_chain_checked as A. rewrite forallb_forall in A.
  specialize (A (Z.to_nat (a + 16))). cbv zeta in A.
  replace (Z.of_nat (Z.to_nat (a + 16)) - 16) with a in A by lia.
  apply andb_prop in A; [apply A |]. apply in_seq. lia.
Qed.

Lemma double_refl_le (a : Z) :
  -16 <= a < 4112 -> (double_of_Z a <=? double_of_Z a)%float = true.
Proof.
  intros H. pose proof double_chain_checked as A. rewrite forallb_forall in A.
  specialize (A (Z.to_nat (a + 16))). cbv zeta in A.
  replace (Z.of_nat (Z.to_nat (a + 16)) - 16) with a in A by lia.
  apply andb_prop in A; [apply A |]. apply in_seq. lia.
Qed.

Lemma double_cmp_lt (a b : Z) :
  -16 <= a -> a < b -> b <= 4112 ->
  SFcompare (Prim2SF (double_of_Z a)) (Prim2SF (double_of_Z b)) = Some Lt.
Proof.
  intros Ha Hab Hb.
  assert (Hstep : forall c, -16 <= c < 4112 ->
            SFcompare (Prim2SF (double_of_Z c)) (Prim2SF (double_of_Z (c + 1))) = Some Lt).
  { intros c Hc. pose proof (double_succ_lt c Hc) as L. rewrite ltb_spec in L.
    unfold SFltb in L. destruct (SFcompare _ _) as [[| |] |]; congruence. }
  replace b with (a + 1 + Z.of_nat (Z.to_nat (b - a - 1))) by lia.
  assert (Hn : a + 1 + Z.of_nat (Z.to_nat (b - a - 1)) <= 4112) by lia.
  revert Hn. generalize (Z.to_nat (b - a - 1)) as n. induction n as [| n IH]; intros Hn.
  - rewrite Z.add_0_r. apply Hstep. lia.
  - eapply SFcompare_Lt_trans; [apply IH; lia |].
    replace (a + 1 + Z.of_nat (S n)) with (a + 1 + Z.of_nat n + 1) by lia.
    apply Hstep. lia.
Qed.

Lemma double_cmp (a b : Z) :
  -16 <= a <= 4112 -> -16 <= b <= 4112 ->
  SFcompare (Prim2SF (double_of_Z a)) (Prim2SF (double_of_Z b)) = Some (a ?= b).
Proof.
  intros Ha Hb. destruct (Z.compare_spec a b) as [-> | Hlt | Hgt].
  - assert (E : b = 4112 \/ b < 4112) by lia. destruct E as [-> | E].
    + vm_compute. reflexivity.
    + pose proof (double_refl_le b ltac:(lia)) as L. rewrite leb_spec in L.
      unfold SFleb in L.
      destruct (SFcompare _ _) as [[| |] |] eqn:C; try congruence.
      pose proof (SFcompare_antisym _ _ _ C) as C'. cbn in C'. congruence.
  - apply double_cmp_lt; lia.
  - apply (SFcompare_antisym _ _ Lt). apply double_cmp_lt; lia.
Qed.

Lemma double_leb (a b : Z) :
  -16 <= a <= 4112 -> -16 <= b <= 4112 ->
  (double_of_Z a <=? double_of_Z b)%float = (a <=? b).
Proof.
  intros Ha Hb. rewrite leb_spec. unfold SFleb. rewrite (double_cmp a b Ha Hb).
  unfold Z.leb. destruct (a ?= b); reflexivity.
Qed.

Lemma double_ltb (a b : Z) :
  -16 <= a <= 4112 -> -16 <= b <= 4112 ->
  (double_of_Z a <? double_of_Z b)%float = (a <? b).
Proof.
  intros Ha Hb. rewrite ltb_spec. unfold SFltb. rewrite (double_cmp a b Ha Hb).
  unfold Z.ltb. destruct (a ?= b); reflexivity.
Qed.

(** Adding or subtracting a step of 5 or 10 is exact on these integers. *)
Lemma double_step_checked :
  forallb (fun n : nat =>
             let a := Z.of_nat n - 5 in
             forallb (fun k =>
                        PrimFloat.Leibniz.eqb (double_of_Z a + double_of_Z k)%float (double_of_Z (a + k))
                        && PrimFloat.Leibniz.eqb (double_of_Z a - double_of_Z k)%float (double_of_Z (a - k)))
                     [5; 10])
          (seq 0 4106) = true.
Proof. vm_compute. reflexivity. Qed.

Lemma double_step (a k : Z) :
  -5 <= a <= 4100 -> k = 5 \/ k = 10 ->
  (double_of_Z a + double_of_Z k)%float = double_of_Z (a + k)
  /\ (double_of_Z a - double_of_Z k)%float = double_of_Z (a - k).
Proof.
  intros Ha Hk. pose proof double_step_checked as A. rewrite forallb_forall in A.
  specialize (A (Z.to_nat (a + 5)) ltac:(apply in_seq; lia)). cbv zeta in A.
  replace (Z.of_nat (Z.to_nat (a + 5)) - 5) with a in A by lia.
  rewrite forallb_forall in A.
  specialize (A k ltac:(cbn; destruct Hk; auto)).
  apply andb_prop in A as [A1 A2].
  split; apply FloatAxioms.Leibniz.eqb_spec; assumption.
Qed.

(** *** The ramp on doubles *)

Ltac ramp_simpl_f :=
  unfold set_motorState, set_softSetRPM, set_rpm_raw, set_estop;
  cbn [motorState estop rpmData softSetRPM steps esteps values raw filtered mutex
       of_int dle dlt dadd dsub float_ops negb andb].

Ltac zbool :=
  repeat match goal with
  | |- context [Z.leb ?a ?b] => destruct (Z.leb_spec a b)
  | |- context [Z.ltb ?a ?b] => destruct (Z.ltb_spec a b)
  end.

Lemma ramp_inv_double_apply_input (i : RampInput float) (st : RampState float) :
  input_ok_double i -> ramp_inv_double st -> ramp_inv_double (apply_input i st).
Proof.
  destruct st as [m e [mx [f r]] x k ke], i as [[t |] [b |]];
    unfold input_ok_double, ramp_inv_double, apply_input; ramp_simpl_f;
    cbn [write_target write_estop]; ramp_simpl_f.
  - intros (t' & -> & Ht) (-> & -> & x' & t0 & -> & -> & Hx & Ht0 & Hoff).
    split; [reflexivity |]. split; [reflexivity |]. exists x', t'. auto.
  - intros (t' & -> & Ht) (-> & -> & x' & t0 & -> & -> & Hx & Ht0 & Hoff).
    split; [reflexivity |]. split; [reflexivity |]. exists x', t'. auto.
  - intros _ H. exact H.
  - intros _ H. exact H.
Qed.

Lemma ramp_inv_double_boot : ramp_inv_double ramp_boot.
Proof.
  unfold ramp_inv_double. split; [reflexivity |]. split; [reflexivity |].
  exists 0, 0. unfold RPM_LIMIT.
  split; [reflexivity |]. split; [reflexivity |]. repeat split; lia.
Qed.

(** One tick on integer contents, computed on integers. *)
Lemma xTimer1AHandler_on_integers (m e : bool) (mx : SemaphoreHandle_t) (f : float)
    (x t : Z) :
  0 <= x <= RPM_LIMIT -> 0 <= t <= RPM_LIMIT ->
  xTimer1AHandler (ramp_double_state m e mx f x t)
  = if negb m && (t <=? 0) then ramp_double_state m e mx f x t
    else ramp_double_state
           (negb ((t - ramp_rate e <=? x) && (x <=? t + ramp_rate e) && (t <=? 0)))
           e mx f
           (if (t - ramp_rate e <=? x) && (x <=? t + ramp_rate e) then t
            else if t <? x then x - ramp_rate e else x + ramp_rate e)
           (if e then 0 else t).
Proof.
  unfold RPM_LIMIT, ramp_rate. intros Hx Ht.
  unfold xTimer1AHandler, ramp_double_state. ramp_simpl_f.
  rewrite (double_leb t 0) by lia.
  destruct (double_step t 5 ltac:(lia) ltac:(auto)) as [Et5p Et5m].
  destruct (double_step t 10 ltac:(lia) ltac:(auto)) as [Et10p Et10m].
  destruct (double_step x 5 ltac:(lia) ltac:(auto)) as [Ex5p Ex5m].
  destruct (double_step x 10 ltac:(lia) ltac:(auto)) as [Ex10p Ex10m].
  destruct m, e; ramp_simpl_f;
    rewrite ?Et5p, ?Et5m, ?Et10p, ?Et10m;
    rewrite ?(double_leb (t - 5) x), ?(double_leb x (t + 5)),
            ?(double_leb (t - 10) x), ?(double_leb x (t + 10)),
            ?(double_ltb t x) by lia;
    repeat match goal with
           | |- context [Z.leb ?a ?b] => destruct (Z.leb a b)
           | |- context [Z.ltb ?a ?b] => destruct (Z.ltb a b)
           end;
    ramp_simpl_f; rewrite ?Ex5p, ?Ex5m, ?Ex10p, ?Ex10m; reflexivity.
Qed.

Lemma ticks_succ_r {D} `{DoubleOps D} (n : nat) (st : RampState D) :
  ticks (S n) st = ticks n (xTimer1AHandler st).
Proof. unfold ticks. apply Nat.iter_succ_r. Qed.

(** *** Ticks that find the stored target in force *)

Lemma xTimer1AHandler_inv (st : RampState Q) :
  ramp_inv st -> ramp_inv (xTimer1AHandler st).
Proof.
  destruct st as [m e [mx [f r]] x k ke].
  unfold ramp_inv, xTimer1AHandler.
  ramp_simpl. change (inject_Z 0) with 0%Q.
  intros (Hk & Hke & Hr & Hoff).
  destruct m, e; ramp_simpl; qbool; ramp_simpl;
    try specialize (Hoff eq_refl);
    repeat split; intros; try discriminate; try reflexivity; try lra.
Qed.

Lemma xTimer1AHandler_tick_ok (st : RampState Q) :
  ramp_inv st -> target_stored st -> ramp_tick_ok st (xTimer1AHandler st).
Proof.
  destruct st as [m e [mx [f r]] x k ke].
  unfold ramp_inv, target_stored, ramp_tick_ok, tick_target, tick_step, xTimer1AHandler.
  ramp_simpl. change (inject_Z 0) with 0%Q.
  intros (Hk & Hke & Hr & Hoff) Hst.
  destruct m, e; ramp_simpl; qbool; ramp_simpl;
    try specialize (Hoff eq_refl);
    destruct Hst as [Hst | Hst]; try discriminate Hst;
    repeat split; intros; try discriminate; try reflexivity; try lra.
Qed.

Lemma ramp_exact (st : RampState Q) (inputs : list (RampInput Q)) :
  ramp_inv st ->
  Forall input_ok inputs ->
  Forall (fun pp => target_stored (fst pp) -> ramp_tick_ok (fst pp) (snd pp))
         (ramp_trace st inputs).
Proof.
  intros Hinv Hin. revert st Hinv.
  induction Hin as [| i inputs Hi Hin IH]; intros st Hinv; cbn [ramp_trace].
  - constructor.
  - pose proof (ramp_inv_apply_input i st Hi Hinv) as Hpre.
    constructor.
    + cbn [fst snd]. apply xTimer1AHandler_tick_ok. exact Hpre.
    + apply IH. apply xTimer1AHandler_inv. exact Hpre.
Qed.

Lemma double_of_Z_inj (a b : Z) :
  -16 <= a <= 4112 -> -16 <= b <= 4112 -> double_of_Z a = double_of_Z b -> a = b.
Proof.
  intros Ha Hb E.
  pose proof (double_ltb a b Ha Hb) as L1. pose proof (double_ltb b a Hb Ha) as L2.
  pose proof (double_ltb b b Hb Hb) as L3. rewrite Z.ltb_irrefl in L3.
  rewrite E, L3 in L1. rewrite E, L3 in L2.
  symmetry in L1, L2. apply Z.ltb_ge in L1, L2. lia.
Qed.

Lemma ramp_inv_double_state (st : RampState float) :
  ramp_inv_double st ->
  exists m e mx f x t,
    st = ramp_double_state m e mx f x t
    /\ 0 <= x <= RPM_LIMIT /\ 0 <= t <= RPM_LIMIT /\ (m = false -> x = 0).
Proof.
  destruct st as [m e [mx [f r]] xf kf kef]. unfold ramp_inv_double.
  cbn [motorState estop rpmData softSetRPM steps esteps values raw filtered mutex].
  intros (-> & -> & x & t & -> & -> & Hx & Ht & Hoff).
  exists m, e, mx, f, x, t. repeat split; auto; lia.
Qed.

Lemma ramp_double_state_inv (m e : bool) (mx : SemaphoreHandle_t) (f : float) (x t : Z) :
  0 <= x <= RPM_LIMIT -> 0 <= t <= RPM_LIMIT -> (m = false -> x = 0) ->
  ramp_inv_double (ramp_double_state m e mx f x t).
Proof.
  intros Hx Ht Hoff. unfold ramp_inv_double, ramp_double_state.
  cbn [motorState estop rpmData softSetRPM steps esteps values raw filtered mutex].
  split; [reflexivity |]. split; [reflexivity |]. exists x, t. auto.
Qed.

Ltac ramp_cases :=
  unfold ramp_position, ramp_rate;
  repeat match goal with
         | |- context [Z.leb ?a ?b] => destruct (Z.leb_spec a b)
         | |- context [Z.ltb ?a ?b] => destruct (Z.ltb_spec a b)
         end;
  cbn [negb andb orb]; try lia; try reflexivity; try (f_equal; lia).

Lemma xTimer1AHandler_inv_double (st : RampState float) :
  ramp_inv_double st -> ramp_inv_double (xTimer1AHandler st).
Proof.
  intros Hinv.
  destruct (ramp_inv_double_state st Hinv)
    as (m & e & mx & f & x & t & -> & Hx & Ht & Hoff).
  rewrite xTimer1AHandler_on_integers by assumption.
  unfold RPM_LIMIT in *.
  destruct (negb m && (t <=? 0)) eqn:G; [exact Hinv |].
  apply ramp_double_state_inv; unfold RPM_LIMIT.
  - destruct e; ramp_cases.
  - destruct e; lia.
  - intros E. apply negb_false_iff in E.
    apply andb_prop in E as [E E0]. apply andb_prop in E as [E1 E2].
    rewrite E1, E2. cbn [andb]. apply Z.leb_le in E0. lia.
Qed.

Lemma xTimer1AHandler_tick_ok_double (st : RampState float) :
  ramp_inv_double st -> target_stored_double st ->
  ramp_tick_ok_double st (xTimer1AHandler st).
Proof.
  intros Hinv Hst.
  destruct (ramp_inv_double_state st Hinv)
    as (m & e & mx & f & x & t & -> & Hx & Ht & Hoff).
  unfold target_stored_double in Hst.
  cbn [ramp_double_state estop rpmData values raw] in Hst.
  assert (Ht0 : e = false \/ t = 0).
  { destruct Hst as [Hst | Hst]; [left; exact Hst | right].
    unfold RPM_LIMIT in *. apply double_of_Z_inj; [lia | lia | exact Hst]. }
  clear Hst Hinv.
  rewrite xTimer1AHandler_on_integers by assumption.
  unfold ramp_tick_ok_double, tick_target, tick_step, RPM_LIMIT in *.
  exists (if e then 0 else t), (ramp_rate e), x.
  destruct (negb m && (t <=? 0)) eqn:G.
  - exists x. apply andb_prop in G as [Gm Gt]. apply Z.leb_le in Gt.
    destruct m; [discriminate |]. specialize (Hoff eq_refl).
    cbn [ramp_double_state motorState estop rpmData softSetRPM steps esteps
         values raw of_int float_ops].
    destruct e; cbn [ramp_rate]; repeat split; intros; try reflexivity; lia.
  - eexists.
    cbn [ramp_double_state motorState estop rpmData softSetRPM steps esteps
         values raw of_int float_ops].
    split; [destruct e; reflexivity |]. split; [destruct e; reflexivity |].
    split; [reflexivity |]. split; [reflexivity |].
    destruct Ht0 as [-> | ->]; [| destruct e]; unfold ramp_rate in *;
      cbn [negb andb] in *.
    all: repeat match goal with
         | |- context [Z.leb ?a ?b] => destruct (Z.leb_spec a b)
         | |- context [Z.ltb ?a ?b] => destruct (Z.ltb_spec a b)
         end; cbn [negb andb orb]; repeat split; intros; try discriminate; try lia.
Qed.

Lemma ramp_double (st : RampState float) (inputs : list (RampInput float)) :
  ramp_inv_double st ->
  Forall input_ok_double inputs ->
  Forall (fun pp => target_stored_double (fst pp) ->
                    ramp_tick_ok_double (fst pp) (snd pp))
         (ramp_trace st inputs).
Proof.
  intros Hinv Hin. revert st Hinv.
  induction Hin as [| i inputs Hi Hin IH]; intros st Hinv; cbn [ramp_trace].
  - constructor.
  - pose proof (ramp_inv_double_apply_input i st Hi Hinv) as Hpre.
    constructor.
    + cbn [fst snd]. apply xTimer1AHandler_tick_ok_double. exact Hpre.
    + apply IH. apply xTimer1AHandler_inv_double. exact Hpre.
Qed.

(** The failing state in integers. *)
Lemma ramp_estop_mid_integers :
  ramp_estop_mid = ramp_double_state true true {| busy_ticks := 0 |} 0 1000 2000.
Proof. reflexivity. Qed.

(** C5, the failing tick.  With E-stop asserted, the motor running and a
    stored target more than one emergency step above the ramped setpoint,
    the target of the tick is 0 and the handler writes 0 to the stored
    target, but the ramped setpoint goes up by the emergency step, away
    from the target: the tick does not satisfy [ramp_tick_ok_double].
    (This is the stale local [setRPM] of the tick under E-stop.) *)
Theorem ramp_estop_tick_leaves_target (mx : SemaphoreHandle_t) (f : float) (x t : Z) :
  0 <= x -> x + 10 < t -> t <= RPM_LIMIT ->
  let pre := ramp_double_state true true mx f x t in
  let post := xTimer1AHandler pre in
  ramp_inv_double pre
  /\ tick_target pre = double_of_Z 0
  /\ raw (values (rpmData post)) = double_of_Z 0
  /\ softSetRPM post = double_of_Z (x + 10)
  /\ ~ ramp_tick_ok_double pre post.
Proof.
  intros Hx Hxt Ht. cbv zeta. unfold RPM_LIMIT in *.
  split; [apply ramp_double_state_inv; unfold RPM_LIMIT; try lia; discriminate |].
  rewrite xTimer1AHandler_on_integers by (unfold RPM_LIMIT; lia).
  cbn [negb andb ramp_rate].
  replace (t - 10 <=? x) with false by (symmetry; apply Z.leb_gt; lia).
  replace (t <? x) with false by (symmetry; apply Z.ltb_ge; lia).
  cbn [andb negb].
  split; [reflexivity |]. split; [reflexivity |]. split; [reflexivity |].
  unfold ramp_tick_ok_double, tick_target, tick_step, RPM_LIMIT.
  cbn [ramp_double_state motorState estop rpmData softSetRPM steps esteps
       values raw of_int float_ops].
  intros (t0 & k0 & x0 & x0' & Et & Ek & Ex & Ex' & (Rt & Rk & Rx & Rx') & App & _).
  apply double_of_Z_inj in Et; [| lia | lia].
  apply double_of_Z_inj in Ex; [| lia | lia].
  apply double_of_Z_inj in Ex'; [| lia | lia].
  lia.
Qed.

Lemma ramp_estop_tick_leaves_target_witness :
  ramp_inv_double (ramp_double_state true true {| busy_ticks := 0 |} 0 1000 2000)
  /\ tick_target (ramp_double_state true true {| busy_ticks := 0 |} 0 1000 2000)
     = double_of_Z 0
  /\ raw (values (rpmData
        (xTimer1AHandler
           (ramp_double_state true true {| busy_ticks := 0 |} 0 1000 2000))))
     = double_of_Z 0
  /\ softSetRPM
       (xTimer1AHandler (ramp_double_state true true {| busy_ticks := 0 |} 0 1000 2000))
     = double_of_Z 1010
  /\ ~ ramp_tick_ok_double
         (ramp_double_state true true {| busy_ticks := 0 |} 0 1000 2000)
         (xTimer1AHandler
            (ramp_double_state true true {| busy_ticks := 0 |} 0 1000 2000)).
Proof.
  apply (ramp_estop_tick_leaves_target {| busy_ticks := 0 |} 0 1000 2000).
  - lia.
  - lia.
  - unfold RPM_LIMIT. lia.
Defined.

(** X27. Along every sequence of target updates, E-stop changes and
    ramp-timer ticks, every tick that finds the stored target in force
    (E-stop clear, or the stored target already 0) keeps the ramped setpoint
    between its previous value and the target, changes it by at most one
    step, lands on the target from within one step of it (switching the
    motor off when the target is 0) and moves by a full step toward the
    target from further away.  Proved for the handler in exact arithmetic,
    for all non-negative rational targets, and for the handler on binary64
    doubles, for all integer targets from 0 to [RPM_LIMIT] with the steps 5
    and 10 of [setupTimers]. *)
Theorem ramp_follows_stored_target :
  (forall (st : RampState Q) (inputs : list (RampInput Q)),
      ramp_inv st ->
      Forall input_ok inputs ->
      Forall (fun pp => target_stored (fst pp) -> ramp_tick_ok (fst pp) (snd pp))
             (ramp_trace st inputs))
  /\ (forall (st : RampState float) (inputs : list (RampInput float)),
        ramp_inv_double st ->
        Forall input_ok_double inputs ->
        Forall (fun pp => target_stored_double (fst pp) ->
                          ramp_tick_ok_double (fst pp) (snd pp))
               (ramp_trace st inputs)).
Proof.
  split.
  - exact ramp_exact.
  - exact ramp_double.
Qed.

Lemma ramp_follows_stored_target_witness :
  Forall (fun pp => target_stored (fst pp) -> ramp_tick_ok (fst pp) (snd pp))
         (ramp_trace ramp_boot ramp_up_down)
  /\ Forall (fun pp => target_stored_double (fst pp) ->
                       ramp_tick_ok_double (fst pp) (snd pp))
            (ramp_trace ramp_boot ramp_up_down_doubles).
Proof.
  split.
  - apply (proj1 ramp_follows_stored_target ramp_boot ramp_up_down).
    + unfold ramp_inv. cbn. repeat split; try discriminate; reflexivity.
    + unfold ramp_up_down, input_ok. repeat constructor; cbn; discriminate.
  - apply (proj2 ramp_follows_stored_target ramp_boot ramp_up_down_doubles).
    + unfold ramp_inv_double. split; [reflexivity |]. split; [reflexivity |].
      exists 0, 0. unfold RPM_LIMIT.
      split; [reflexivity |]. split; [reflexivity |]. repeat split; lia.
    + unfold ramp_up_down_doubles, input_ok_double, RPM_LIMIT.
      repeat constructor; cbn [write_target]; try exact I.
      * exists 20. split; [reflexivity | lia].
      * exists 0. split; [reflexivity | lia].
Defined.

(** Every tick of the example run finds the stored target in force. *)
Lemma ramp_up_down_target_stored :
  Forall (fun pp => target_stored_double (fst pp))
         (ramp_trace ramp_boot ramp_up_down_doubles).
Proof.
  unfold target_stored_double.
  repeat constructor; cbn [fst]; first [left; reflexivity | right; reflexivity].
Qed.

(** The same run on doubles: 5, 10, 15, 20 RPM, then back down, with the
    emergency step once E-stop is set, the motor switching off at 0. *)
Lemma ramp_up_down_on_doubles :
  map (fun pp => (softSetRPM (snd pp), motorState (snd pp)))
      (ramp_trace ramp_boot ramp_up_down_doubles)
  = [ (5%float, true); (10%float, true); (15%float, true); (20%float, true);
      (15%float, true); (5%float, true); (0%float, false) ].
Proof. vm_compute. reflexivity. Qed.

(** ** Current / power monitor *)

Lemma accumulate_total (st : PowerState) :
  ring_ok (ring st) -> exists st1, accumulate st = Some st1.
Proof.
  intros Hok. unfold accumulate.
  rewrite (drain_unread (Z.to_nat MAXBUFFER) (ring st) Hok).
  - eexists. reflexivity.
  - pose proof (unread_count_range (ring st)). unfold MAXBUFFER. lia.
Qed.

Lemma accumulate_frame (st st1 : PowerState) :
  accumulate st = Some st1 ->
  settlingFlag st1 = settlingFlag st
  /\ maxCurrentLimit st1 = maxCurrentLimit st
  /\ pw_estop st1 = pw_estop st.
Proof.
  unfold accumulate. destruct (drain _ _) as [[l r] |]; [| discriminate].
  intros [= <-]. cbn. auto.
Qed.

Lemma getter_forever {D} (dp : sharedValues D) (buff : val D) :
  getter dp buff portMAX_DELAY
  = (0, values dp, {| mutex := {| busy_ticks := 0 |}; values := values dp |}).
Proof. reflexivity. Qed.

Lemma eStopSetter_forever (b : bool) (es : EStopState) :
  es_estop (snd (eStopSetter b portMAX_DELAY es)) = b.
Proof. reflexivity. Qed.

(** A monitor pass never clears the flag. *)
Lemma monitor_keeps_estop (st st' : PowerState) :
  es_estop (pw_estop st) = true -> monitor st = Some st' ->
  es_estop (pw_estop st') = true.
Proof.
  intros Hes. unfold monitor.
  destruct (phase_currents st) as [ab |]; [| discriminate].
  rewrite getter_forever. cbn [Z.eqb andb].
  destruct (negb (settlingFlag st) && _).
  - intros [= <-]. exact Hes.
  - intros [= <-]. cbn [pw_estop].
    destruct (raw (values (maxCurrentLimit st)) <? total_mA ab)%float;
      [apply eStopSetter_forever | exact Hes].
Qed.

(** While the monitor is settling, a reading above the limit takes the
    [continue] of line 814: neither the E-stop flag nor the settling flag
    changes, and the running sums are kept. *)
Lemma monitor_settling_skips (st st' : PowerState) (ab : float * float) :
  settlingFlag st = false ->
  phase_currents st = Some ab ->
  (raw (values (maxCurrentLimit st)) <? total_mA ab)%float = true ->
  monitor st = Some st' ->
  pw_estop st' = pw_estop st
  /\ settlingFlag st' = false
  /\ sample_count st' = sample_count st.
Proof.
  intros Hset Hcur Hover. unfold monitor.
  rewrite Hcur, getter_forever, Hset, Hover. cbn [Z.eqb negb andb].
  intros [= <-]. cbn. auto.
Qed.

(** C1 (as amended). Once the monitor has left its settling phase, a
    monitor cycle that measures a total current in mA above the raw value of
    the current-limit entry sets the E-stop flag in that cycle; no other
    setting is consulted.  (During the settling phase such a reading is
    skipped and does not set the flag.)  Once set, the flag stays set through
    every later monitor cycle and ADC interrupt; [eStopSetter(false)] clears
    it. *)
Theorem powerTask_overcurrent_trips (st st1 : PowerState) (ab : float * float) :
  settlingFlag st = true ->
  accumulate st = Some st1 ->
  0 < sample_count st1 ->
  phase_currents st1 = Some ab ->
  (raw (values (maxCurrentLimit st)) <? total_mA ab)%float = true ->
  (exists st', powerTask_iteration st = Some st'
               /\ es_estop (pw_estop st') = true)
  /\ (forall s s', es_estop (pw_estop s) = true ->
                   powerTask_iteration s = Some s' ->
                   es_estop (pw_estop s') = true)
  /\ (forall a b s, pw_estop (adc_push a b s) = pw_estop s)
  /\ (forall es, es_estop (snd (eStopSetter false portMAX_DELAY es)) = false).
Proof.
  intros Hset Hacc Hcount Hcur Hover. split; [| split; [| split]].
  - destruct (accumulate_frame st st1 Hacc) as (Hs & Hl & He).
    unfold powerTask_iteration. rewrite Hacc.
    rewrite (proj2 (Z.ltb_lt _ _) Hcount).
    unfold monitor. rewrite Hcur, getter_forever, Hs, Hset, Hl, Hover.
    cbn [Z.eqb negb andb].
    eexists. split; [reflexivity |]. cbn [pw_estop]. apply eStopSetter_forever.
  - intros s s' Hes. unfold powerTask_iteration.
    destruct (accumulate s) as [s1 |] eqn:Hacc'; [| discriminate].
    destruct (accumulate_frame s s1 Hacc') as (_ & _ & He).
    destruct (0 <? sample_count s1).
    + apply monitor_keeps_estop. rewrite He. exact Hes.
    + intros [= <-]. rewrite He. exact Hes.
  - reflexivity.
  - intros es. apply eStopSetter_forever.
Qed.

Lemma powerTask_overcurrent_trips_witness :
  (exists st', powerTask_iteration power_settled_overcurrent = Some st'
               /\ es_estop (pw_estop st') = true)
  /\ (forall s s', es_estop (pw_estop s) = true ->
                   powerTask_iteration s = Some s' ->
                   es_estop (pw_estop s') = true)
  /\ (forall a b s, pw_estop (adc_push a b s) = pw_estop s)
  /\ (forall es, es_estop (snd (eStopSetter false portMAX_DELAY es)) = false).
Proof.
  eapply (powerTask_overcurrent_trips power_settled_overcurrent).
  - reflexivity.
  - vm_compute. reflexivity.
  - vm_compute. reflexivity.
  - vm_compute. reflexivity.
  - vm_compute. reflexivity.
Defined.

(** C1, counterexample to the unconditional trip: from power-up, with the
    default limit of 833 mA and the ADC held at code 2008 on both channels
    (about 909 mA in total), the monitor never leaves its settling phase:
    after one cycle and after fifty cycles the E-stop flag is still false,
    although the total current computed from the filtered values is above
    the limit. *)
Lemma powerTask_settling_masks_overcurrent :
  raw (values (maxCurrentLimit power_boot)) = 833%float
  /\ option_map (fun s => (es_estop (pw_estop s), settlingFlag s))
       (monitor_cycles 1 sustained_909mA power_boot) = Some (false, false)
  /\ option_map (fun s => (es_estop (pw_estop s), settlingFlag s))
       (monitor_cycles 50 sustained_909mA power_boot) = Some (false, false)
  /\ option_map
       (fun s => match last_total_mA s with
                 | Some i => (833 <? i)%float
                 | None => false
                 end)
       (monitor_cycles 50 sustained_909mA power_boot) = Some true.
Proof.
  split; [| split; [| split]]; vm_compute; reflexivity.
Qed.

(* ===================================================================== *)
(** * Further properties of the code                                      *)
(* ===================================================================== *)

(** ** Shared value store: [setter] and [getter] *)

Lemma short_wait_not_forever : 200 <> portMAX_DELAY.
Proof. intros E. vm_compute in E. discriminate E. Qed.

Lemma xSemaphoreTake_within (m : SemaphoreHandle_t) (bt : Z) :
  busy_ticks m <= bt -> xSemaphoreTake m bt = (true, m).
Proof.
  intros H. unfold xSemaphoreTake.
  rewrite (proj2 (Z.leb_le _ _) H), orb_true_r. reflexivity.
Qed.

Lemma xSemaphoreTake_timeout (m : SemaphoreHandle_t) (bt : Z) :
  bt <> portMAX_DELAY -> bt < busy_ticks m ->
  xSemaphoreTake m bt = (false, {| busy_ticks := busy_ticks m - bt |}).
Proof.
  intros Hne Hlt. unfold xSemaphoreTake.
  rewrite (proj2 (Z.eqb_neq _ _) Hne), (proj2 (Z.leb_gt _ _) Hlt). reflexivity.
Qed.

Lemma xSemaphoreTake_forever (m : SemaphoreHandle_t) :
  fst (xSemaphoreTake m portMAX_DELAY) = true.
Proof. reflexivity. Qed.

Lemma xSemaphoreTake_free (bt : Z) :
  0 <= bt -> xSemaphoreTake {| busy_ticks := 0 |} bt = (true, {| busy_ticks := 0 |}).
Proof.
  intros H. unfold xSemaphoreTake. cbn [busy_ticks].
  rewrite (proj2 (Z.leb_le 0 bt) H), orb_true_r. reflexivity.
Qed.

(** X1. A [setter] that obtains the mutex returns 0 and stores both
    fields; a [getter] that follows it, with any non-negative blocking time,
    returns 0 and reads back exactly the pair that was stored, and leaves
    the entry as it is. *)
Theorem setter_getter_roundtrip {D} (dataPoint : sharedValues D) (v buff : val D)
    (blockingTime blockingTime' : Z) :
  fst (xSemaphoreTake (mutex dataPoint) blockingTime) = true ->
  0 <= blockingTime' ->
  fst (setter dataPoint v blockingTime) = 0
  /\ getter (snd (setter dataPoint v blockingTime)) buff blockingTime'
     = (0, v, snd (setter dataPoint v blockingTime)).
Proof.
  intros Htake Hbt. unfold setter.
  destruct (xSemaphoreTake (mutex dataPoint) blockingTime) as [[|] m];
    [| discriminate].
  cbn [fst snd]. split; [reflexivity |].
  unfold getter, xSemaphoreGive. cbn [mutex values].
  rewrite (xSemaphoreTake_free _ Hbt). reflexivity.
Qed.

Lemma setter_getter_roundtrip_witness :
  fst (setter (busy_entry 3 1 2) {| filtered := 7; raw := 8 |} 10) = 0
  /\ getter (snd (setter (busy_entry 3 1 2) {| filtered := 7; raw := 8 |} 10))
            {| filtered := 0; raw := 0 |} 5
     = (0, {| filtered := 7; raw := 8 |},
        snd (setter (busy_entry 3 1 2) {| filtered := 7; raw := 8 |} 10)).
Proof.
  apply (setter_getter_roundtrip (busy_entry 3 1 2)); [reflexivity | lia].
Defined.

(** X2. When the mutex of an entry is held for longer than the blocking
    time, [getter] and [setter] both return (uint8_t)-1 = 255; the caller's
    buffer and the stored values stay as they were. *)
Theorem store_timeout_leaves_values {D} (dataPoint : sharedValues D) (v buff : val D)
    (blockingTime : Z) :
  blockingTime <> portMAX_DELAY ->
  blockingTime < busy_ticks (mutex dataPoint) ->
  getter dataPoint buff blockingTime
  = (255, buff, {| mutex := {| busy_ticks := busy_ticks (mutex dataPoint) - blockingTime |};
                   values := values dataPoint |})
  /\ setter dataPoint v blockingTime
     = (255, {| mutex := {| busy_ticks := busy_ticks (mutex dataPoint) - blockingTime |};
                values := values dataPoint |}).
Proof.
  intros Hne Hlt. unfold getter, setter, xSemaphoreTake.
  rewrite (proj2 (Z.eqb_neq _ _) Hne), (proj2 (Z.leb_gt _ _) Hlt). cbn. split; reflexivity.
Qed.

Lemma store_timeout_leaves_values_witness :
  getter (busy_entry 500 1 2) {| filtered := 0; raw := 0 |} 100
  = (255, {| filtered := 0; raw := 0 |}, busy_entry 400 1 2)
  /\ setter (busy_entry 500 1 2) {| filtered := 7; raw := 8 |} 100
     = (255, busy_entry 400 1 2).
Proof.
  apply (store_timeout_leaves_values (busy_entry 500 1 2)
           {| filtered := 7; raw := 8 |} {| filtered := 0; raw := 0 |} 100).
  - intros E. vm_compute in E. discriminate E.
  - cbn. lia.
Defined.

(** ** E-stop flag: [eStopSetter] and [eStopGetter] *)

(** X3. [eStopSetter(b, portMAX_DELAY)] always succeeds and returns [b]
    as 0 or 1; an [eStopGetter] that follows it, with any non-negative
    blocking time, returns that same value, and the flag holds [b]. *)
Theorem eStop_set_get (b : bool) (blockingTime : Z) (st : EStopState) :
  0 <= blockingTime ->
  fst (eStopSetter b portMAX_DELAY st) = Z.b2z b
  /\ fst (eStopGetter blockingTime (snd (eStopSetter b portMAX_DELAY st))) = Z.b2z b
  /\ es_estop (snd (eStopGetter blockingTime (snd (eStopSetter b portMAX_DELAY st)))) = b.
Proof.
  intros H. unfold eStopSetter. rewrite (surjective_pairing (xSemaphoreTake _ portMAX_DELAY)).
  rewrite xSemaphoreTake_forever. cbn [fst snd]. split; [reflexivity |].
  unfold eStopGetter, xSemaphoreGive. cbn [estopMutex es_estop].
  rewrite (xSemaphoreTake_free _ H). cbn. auto.
Qed.

Lemma eStop_set_get_witness :
  fst (eStopSetter true portMAX_DELAY (estop_flag false 700)) = 1
  /\ fst (eStopGetter 200 (snd (eStopSetter true portMAX_DELAY (estop_flag false 700))))
     = 1
  /\ es_estop (snd (eStopGetter 200
                      (snd (eStopSetter true portMAX_DELAY (estop_flag false 700)))))
     = true.
Proof.
  apply (eStop_set_get true 200 (estop_flag false 700)). lia.
Defined.

(** X4. When the E-stop mutex is held for longer than the blocking time,
    [eStopGetter] and [eStopSetter] return 255, which is neither of the
    flag values 0 and 1, and the flag is not changed. *)
Theorem eStop_timeout (b : bool) (blockingTime : Z) (st : EStopState) :
  blockingTime <> portMAX_DELAY ->
  blockingTime < busy_ticks (estopMutex st) ->
  fst (eStopGetter blockingTime st) = 255
  /\ fst (eStopSetter b blockingTime st) = 255
  /\ es_estop (snd (eStopSetter b blockingTime st)) = es_estop st
  /\ es_estop (snd (eStopGetter blockingTime st)) = es_estop st.
Proof.
  intros Hne Hlt. unfold eStopGetter, eStopSetter, xSemaphoreTake.
  rewrite (proj2 (Z.eqb_neq _ _) Hne), (proj2 (Z.leb_gt _ _) Hlt). cbn. auto.
Qed.

Lemma eStop_timeout_witness :
  fst (eStopGetter 200 (estop_flag true 700)) = 255
  /\ fst (eStopSetter false 200 (estop_flag true 700)) = 255
  /\ es_estop (snd (eStopSetter false 200 (estop_flag true 700))) = true
  /\ es_estop (snd (eStopGetter 200 (estop_flag true 700))) = true.
Proof.
  apply (eStop_timeout false 200 (estop_flag true 700)).
  - intros E. vm_compute in E. discriminate E.
  - cbn. lia.
Defined.

(** ** Hall sensor interrupts and the polling fallback *)

(** All cases of the handler body on an 8-bit state: bit [b] becomes the
    level, the other seven bits are kept. *)
Lemma setBitTo_checked :
  forallb (fun n : nat =>
     forallb (fun b : Z =>
        forallb (fun v : Z =>
           let r := uint8_t (setBitTo (Z.of_nat n) b v) in
           forallb (fun j : Z =>
                      Bool.eqb (Z.testbit r j)
                               (if j =? b then v =? 1 else Z.testbit (Z.of_nat n) j))
                   [0; 1; 2; 3; 4; 5; 6; 7]
           && (r <? 256) && (0 <=? r))
        [0; 1])
     [0; 1; 2])
  (seq 0 256) = true.
Proof. vm_compute. reflexivity. Qed.

Lemma testbit_above_byte (n j : Z) :
  0 <= n < 256 -> 8 <= j -> Z.testbit n j = false.
Proof.
  intros Hn Hj. destruct (Z.eq_dec n 0) as [-> | Hn0]; [apply Z.testbit_0_l |].
  apply Z.bits_above_log2; [lia |].
  apply Z.log2_lt_pow2; [lia |].
  assert (2 ^ 8 <= 2 ^ j) by (apply Z.pow_le_mono_r; lia).
  change (2 ^ 8) with 256 in *. lia.
Qed.

Lemma setBitTo_bits (n b v j : Z) :
  0 <= n < 256 -> (b = 0 \/ b = 1 \/ b = 2) -> (v = 0 \/ v = 1) -> 0 <= j ->
  Z.testbit (uint8_t (setBitTo n b v)) j
  = if j =? b then v =? 1 else Z.testbit n j.
Proof.
  intros Hn Hb Hv Hj. pose proof setBitTo_checked as A.
  rewrite forallb_forall in A.
  specialize (A (Z.to_nat n) ltac:(apply in_seq; lia)). rewrite Z2Nat.id in A by lia.
  rewrite forallb_forall in A.
  specialize (A b ltac:(cbn; intuition)).
  rewrite forallb_forall in A.
  specialize (A v ltac:(cbn; intuition)). cbv zeta in A.
  apply andb_prop in A as [A Hlo]. apply andb_prop in A as [A Hhi].
  apply Z.ltb_lt in Hhi. apply Z.leb_le in Hlo.
  destruct (Z_lt_le_dec j 8) as [Hj8 | Hj8].
  - rewrite forallb_forall in A. apply eqb_prop. apply A.
    assert (j = 0 \/ j = 1 \/ j = 2 \/ j = 3 \/ j = 4 \/ j = 5 \/ j = 6 \/ j = 7) by lia.
    cbn. intuition.
  - assert (Hjb : (j =? b) = false) by (apply Z.eqb_neq; lia). rewrite Hjb.
    rewrite !testbit_above_byte by lia. reflexivity.
Qed.

(** X5. With [GPIOPinRead] returning the pin mask for a high pin and 0
    for a low one (pin 3 is 8, pin 2 is 4), each Hall interrupt handler
    sets exactly its own bit of the Hall state to the level read (port M:
    bit 0, port H: bit 1, port N: bit 2) and keeps every other bit; the
    8-bit transition counter goes up by the level, so it counts only
    interrupts that find the pin high, and wraps at 256. *)
Theorem hall_handlers_set_one_bit (level : Z) (st : HallCounters) :
  (level = 0 \/ level = 1) ->
  0 <= hc_hallEffectState st < 256 ->
  0 <= hc_hallEffect_Count st < 256 ->
  let after h bit :=
    (forall j, 0 <= j ->
       Z.testbit (hc_hallEffectState h) j
       = if j =? bit then level =? 1 else Z.testbit (hc_hallEffectState st) j)
    /\ hc_hallEffect_Count h = (hc_hallEffect_Count st + level) mod 256 in
  after (xGPIOHandlerM (8 * level) st) 0
  /\ after (xGPIOHandlerH (4 * level) st) 1
  /\ after (xGPIOHandlerN (4 * level) st) 2.
Proof.
  intros Hl Hs Hc after. subst after. cbv beta.
  unfold xGPIOHandlerM, xGPIOHandlerH, xGPIOHandlerN, xGPIOHandler.
  cbn [hc_hallEffectState hc_hallEffect_Count].
  assert (E8 : Z.shiftr (8 * level) 3 = level) by (destruct Hl as [-> | ->]; reflexivity).
  assert (E4 : Z.shiftr (4 * level) 2 = level) by (destruct Hl as [-> | ->]; reflexivity).
  rewrite E8, E4.
  repeat split; try reflexivity; intros j Hj; apply setBitTo_bits; auto.
Qed.

Lemma hall_handlers_set_one_bit_witness :
  hc_hallEffect_Count (xGPIOHandlerH 4 hall_counters_wrap) = 0
  /\ Z.testbit (hc_hallEffectState (xGPIOHandlerH 4 hall_counters_wrap)) 1 = true
  /\ Z.testbit (hc_hallEffectState (xGPIOHandlerH 4 hall_counters_wrap)) 2 = true.
Proof.
  pose proof (hall_handlers_set_one_bit 1 hall_counters_wrap (or_intror eq_refl)
                ltac:(cbn; lia) ltac:(cbn; lia)) as (_ & [Hbits Hcount] & _).
  split; [exact Hcount |].
  split; [exact (Hbits 1 ltac:(lia)) | exact (Hbits 2 ltac:(lia))].
Defined.

(** X6. For sensor levels a (port M), b (port H), c (port N), the three
    interrupt handlers leave the Hall code a + 2b + 4c, but the polling
    fallback of [checkMotor] computes c + 2a + 4b from the same pins: the
    two paths do not agree on the bit positions of the sensors. *)
Theorem polled_state_permutes_sensors (a b c : Z) (st : HallCounters) :
  (a = 0 \/ a = 1) -> (b = 0 \/ b = 1) -> (c = 0 \/ c = 1) ->
  0 <= hc_hallEffectState st < 8 ->
  hc_hallEffectState
    (xGPIOHandlerN (4 * c) (xGPIOHandlerH (4 * b) (xGPIOHandlerM (8 * a) st)))
  = a + 2 * b + 4 * c
  /\ polled_state (8 * a) (4 * b) (4 * c) = c + 2 * a + 4 * b.
Proof.
  intros Ha Hb Hc Hs.
  assert (Hst : hc_hallEffectState st = 0 \/ hc_hallEffectState st = 1
                \/ hc_hallEffectState st = 2 \/ hc_hallEffectState st = 3
                \/ hc_hallEffectState st = 4 \/ hc_hallEffectState st = 5
                \/ hc_hallEffectState st = 6 \/ hc_hallEffectState st = 7) by lia.
  unfold xGPIOHandlerM, xGPIOHandlerH, xGPIOHandlerN, xGPIOHandler.
  cbn [hc_hallEffectState hc_hallEffect_Count].
  destruct Ha as [-> | ->], Hb as [-> | ->], Hc as [-> | ->];
    (split; [| reflexivity]);
    destruct Hst as [-> | [-> | [-> | [-> | [-> | [-> | [-> | ->]]]]]]]; reflexivity.
Qed.

Lemma polled_state_permutes_sensors_witness :
  hc_hallEffectState
    (xGPIOHandlerN 0 (xGPIOHandlerH 0 (xGPIOHandlerM 8 hall_counters_wrap))) = 1
  /\ polled_state 8 0 0 = 2.
Proof.
  apply (polled_state_permutes_sensors 1 0 0 hall_counters_wrap).
  - right. reflexivity.
  - left. reflexivity.
  - left. reflexivity.
  - cbn. lia.
Defined.

(** ** RPM estimator and speed controller *)

(** X7. For a non-negative transition count and a non-negative elapsed
    tick count, at every tick rate, the value of [RPMCalculate] never has
    its sign bit set (it is a non-negative number, +infinity or NaN), so it
    never compares below zero: the negative-RPM guard of [PIDController]
    cannot be what rejects it. *)
Theorem RPMCalculate_not_negative (rate count dt : Z) :
  0 <= count -> 0 <= dt ->
  sign_clear (RPMCalculate rate count dt) = true
  /\ (RPMCalculate rate count dt <? 0)%float = false.
Proof.
  intros Hc Hd.
  pose proof (RPMCalculate_sign_clear rate count dt Hc Hd) as S.
  split; [exact S | apply sign_clear_not_negative; exact S].
Qed.

Lemma RPMCalculate_not_negative_witness :
  sign_clear (RPMCalculate 1000 3 100) = true
  /\ (RPMCalculate 1000 3 100 <? 0)%float = false.
Proof.
  apply (RPMCalculate_not_negative 1000 3 100); lia.
Defined.

(** X8. Whatever path [PIDController] takes, a result it returns is a
    duty cycle from 0 to PERIOD or the sentinel 65535; the sentinel comes
    only with a negative RPM or a non-positive time step, and then the
    integral and the previous error are left untouched. *)
Theorem PIDController_range (st st' : PIDState) (RPM dt : float) (r : Z) :
  PIDController st RPM dt = Some (r, st') ->
  (0 <= r <= PERIOD /\ r <> PID_ERROR)
  \/ (r = PID_ERROR /\ st' = st /\ ((RPM <? 0) || (dt <=? 0))%float = true).
Proof.
  intros H. destruct (PIDController_result_cases _ _ _ _ _ H) as [Hr | Hr].
  - left. split; [exact Hr |]. unfold PERIOD in Hr. change PID_ERROR with 65535. lia.
  - right. exact Hr.
Qed.

Lemma PIDController_range_witness :
  exists r st',
    PIDController pid_at_1000 3000 0.1 = Some (r, st')
    /\ ((0 <= r <= PERIOD /\ r <> PID_ERROR)
        \/ (r = PID_ERROR /\ st' = pid_at_1000
            /\ ((3000 <? 0) || (0.1 <=? 0))%float = true)).
Proof.
  eexists _, _. split; [vm_compute; reflexivity |].
  eapply (PIDController_range pid_at_1000 _ 3000 0.1).
  vm_compute. reflexivity.
Defined.

(** X9. The previous error of the controller is never stored: after any
    sequence of [PIDController] calls it still has the value it started
    with, or the 0 written by a reset, so the derivative term never sees
    the error of the preceding call. *)
Theorem pid_prev_error_never_stored (st st' : PIDState) (calls : list (float * float * float)) :
  pid_run st calls = Some st' ->
  prev_error st' = prev_error st \/ prev_error st' = 0%float.
Proof.
  revert st. induction calls as [| [[sp RPM] dt] rest IH]; intros st; cbn [pid_run].
  - intros [= <-]. left. reflexivity.
  - destruct (PIDController _ RPM dt) as [[r st1] |] eqn:Hp; [| discriminate].
    intros Hrun. 
    assert (H1 : prev_error st1 = prev_error st \/ prev_error st1 = 0%float).
    { revert Hp. unfold PIDController. cbn [pid_softSetRPM ki_error prev_error].
      repeat match goal with
             | |- context [if ?c then _ else _] => destruct c
             end;
        try (intros [= <- <-]; cbn; auto).
      destruct (int_of_double _); [| discriminate]. intros [= <- <-]. cbn. auto. }
    destruct (IH st1 Hrun) as [E | E]; [rewrite E; exact H1 | right; exact E].
Qed.

Lemma pid_prev_error_never_stored_witness :
  exists st',
    pid_run pid_with_history pid_three_calls = Some st'
    /\ (prev_error st' = prev_error pid_with_history \/ prev_error st' = 0%float).
Proof.
  eexists. split; [vm_compute; reflexivity |].
  eapply (pid_prev_error_never_stored pid_with_history _ pid_three_calls).
  vm_compute. reflexivity.
Defined.

(** X10. One iteration of [speedControllerTask] always resets the
    transition counter and records the current tick; it never writes the
    raw field of the RPM entry (the operator target) or of the PWM entry.
    The measured RPM is published in the filtered field when the entry's
    mutex is free within 100 ticks; otherwise the entry's values stay as
    they were and the iteration goes on. *)
Theorem speedControllerTask_frame (rate tick : Z) (st st' : SpeedState) (calls : list MotorCall) :
  speedControllerTask_iteration rate tick st = Some (calls, st') ->
  hallEffect_Count st' = 0
  /\ lastTick st' = tick
  /\ raw (values (sc_rpmData st')) = raw (values (sc_rpmData st))
  /\ raw (values (sc_pwmData st')) = raw (values (sc_pwmData st))
  /\ (busy_ticks (mutex (sc_rpmData st)) <= 100 ->
      filtered (values (sc_rpmData st'))
      = RPMCalculate rate (hallEffect_Count st) (uint32_t (tick - lastTick st)))
  /\ (100 < busy_ticks (mutex (sc_rpmData st)) ->
      values (sc_rpmData st') = values (sc_rpmData st)).
Proof.
  intros H. apply speedControllerTask_iteration_Some in H. cbv zeta in H.
  destruct H as (out & pid' & a & b & _ & _ & _ & _ & Ht & Hc & _ & Hr & Hw).
  rewrite Ht, Hc, Hr, Hw. unfold setterVal, xSemaphoreTake.
  change (100 =? portMAX_DELAY) with false. cbn [orb].
  destruct (Z.leb_spec (busy_ticks (mutex (sc_rpmData st))) 100);
    destruct (Z.leb_spec (busy_ticks (mutex (sc_pwmData st))) 100);
    cbn; repeat split; intros; try reflexivity; lia.
Qed.

Lemma speedControllerTask_frame_witness :
  exists calls st',
    speedControllerTask_iteration 1000 5100 speed_rpm_entry_busy = Some (calls, st')
    /\ hallEffect_Count st' = 0
    /\ lastTick st' = 5100
    /\ raw (values (sc_rpmData st')) = raw (values (sc_rpmData speed_rpm_entry_busy))
    /\ raw (values (sc_pwmData st')) = raw (values (sc_pwmData speed_rpm_entry_busy))
    /\ (busy_ticks (mutex (sc_rpmData speed_rpm_entry_busy)) <= 100 ->
        filtered (values (sc_rpmData st'))
        = RPMCalculate 1000 (hallEffect_Count speed_rpm_entry_busy)
            (uint32_t (5100 - lastTick speed_rpm_entry_busy)))
    /\ (100 < busy_ticks (mutex (sc_rpmData speed_rpm_entry_busy)) ->
        values (sc_rpmData st') = values (sc_rpmData speed_rpm_entry_busy)).
Proof.
  eexists _, _. split; [vm_compute; reflexivity |].
  eapply (speedControllerTask_frame 1000 5100 speed_rpm_entry_busy).
  vm_compute. reflexivity.
Defined.



(** ** Hall decoder: enabling and disabling *)

(** An enabled decode: an optional [enableMotor], then one phase update
    that depends on the Hall code only. *)
Lemma hallEffectDecode_enabled (h : Z) :
  exists u, (exists a b c, u = updateMotor a b c) /\ forall flip,
    hallEffectDecode {| hall_motorState := true; flipMotorState := flip;
                        hallEffectState := h |}
    = ((if flip then [] else [enableMotor]) ++ [u],
       {| hall_motorState := true; flipMotorState := true; hallEffectState := h |}).
Proof.
  unfold hallEffectDecode. cbn [hall_motorState flipMotorState hallEffectState negb].
  destruct h as [| p | p];
    [ | destruct p as [[[]|[]|]|[[]|[]|]|] | ];
    (eexists; split; [do 3 eexists; reflexivity | intros []; reflexivity]).
Qed.

(** X12. A decode with the motor flag clear stops and disables the motor.
    The first decode after the flag is set again enables the motor before
    its phase update; the next one issues the phase update alone and
    changes nothing in the state. *)
Theorem hallEffectDecode_enable_edge (st : HallState) :
  let off := hallEffectDecode (set_hall_motorState false st) in
  let on1 := hallEffectDecode (set_hall_motorState true (snd off)) in
  let on2 := hallEffectDecode (snd on1) in
  fst off = [stopMotor false; disableMotor]
  /\ (exists a b c, fst on1 = [enableMotor; updateMotor a b c]
                    /\ fst on2 = [updateMotor a b c])
  /\ snd on2 = snd on1.
Proof.
  destruct st as [m f h]. cbv zeta. unfold set_hall_motorState.
  cbn [hall_motorState flipMotorState hallEffectState].
  destruct (hallEffectDecode_enabled h) as (u & (a & b & c & ->) & Hu).
  assert (Hoff : hallEffectDecode {| hall_motorState := false; flipMotorState := f;
                                     hallEffectState := h |}
                 = ([stopMotor false; disableMotor],
                    {| hall_motorState := false; flipMotorState := false;
                       hallEffectState := h |})) by reflexivity.
  rewrite Hoff. cbn [fst snd hall_motorState flipMotorState hallEffectState].
  rewrite (Hu false). cbn [fst snd app]. rewrite (Hu true). cbn [fst snd app].
  split; [reflexivity |]. split; [| reflexivity].
  exists a, b, c. split; reflexivity.
Qed.

(** X13. When an iteration of [motorTask] times out on the Hall semaphore
    while the motor flag is clear, [checkMotor] stops and disables the
    motor but, unlike [hallEffectDecode], does not record that: if the
    outputs were enabled before, the next iteration with the flag set,
    signalled or not, issues only a phase update and no [enableMotor]. *)
Theorem motorTask_timeout_disable_not_recorded
    (readM readH readN readM' readH' readN' : Z) (signalled : bool)
    (st : HallState) :
  flipMotorState st = true ->
  let off := motorTask_iteration false readM readH readN
               (set_hall_motorState false st) in
  let on := motorTask_iteration signalled readM' readH' readN'
              (set_hall_motorState true (snd off)) in
  fst off = [stopMotor false; disableMotor]
  /\ flipMotorState (snd off) = true
  /\ exists a b c, fst on = [updateMotor a b c].
Proof.
  destruct st as [m f h]. cbn [flipMotorState]. intros ->. cbv zeta.
  unfold motorTask_iteration, set_hall_motorState, checkMotor.
  cbn [hall_motorState flipMotorState hallEffectState negb fst snd].
  split; [reflexivity |]. split; [reflexivity |].
  destruct signalled.
  - destruct (hallEffectDecode_enabled h) as (u & (a & b & c & ->) & Hu).
    rewrite (Hu true). exists a, b, c. reflexivity.
  - destruct (hallEffectDecode_enabled (polled_state readM' readH' readN'))
      as (u & (a & b & c & ->) & Hu).
    rewrite (Hu true). exists a, b, c. reflexivity.
Qed.

Lemma motorTask_timeout_disable_not_recorded_witness :
  fst (motorTask_iteration false 8 0 0 (set_hall_motorState false hall_running))
  = [stopMotor false; disableMotor]
  /\ flipMotorState
       (snd (motorTask_iteration false 8 0 0 (set_hall_motorState false hall_running)))
     = true
  /\ exists a b c,
       fst (motorTask_iteration true 8 0 0
              (set_hall_motorState true
                 (snd (motorTask_iteration false 8 0 0
                         (set_hall_motorState false hall_running)))))
       = [updateMotor a b c].
Proof.
  apply (motorTask_timeout_disable_not_recorded 8 0 0 8 0 0 true hall_running).
  reflexivity.
Defined.

(** ** ADC ring and power monitor *)

(** X14. While the unread samples and the new conversions together are at
    most 39, nothing is lost: the consumer loop of [powerTask] reads the
    unread samples followed by every pushed conversion, in order. *)
Theorem adc_ring_no_loss_below_capacity (r : AdcRing) (xs : list (Z * Z)) :
  ring_ok r ->
  (length (unread r) + length xs <= 39)%nat ->
  drain (Z.to_nat MAXBUFFER) (pushes xs r)
  = Some (unread r ++ map sample_of xs, consumed (pushes xs r)).
Proof.
  intros Hok Hlen. destruct (unread_pushes xs r Hok) as [Hok' Hun].
  rewrite (drain_unread _ _ Hok').
  - rewrite Hun, lastn_short; [reflexivity |].
    rewrite length_app, length_map. exact Hlen.
  - pose proof (unread_count_range (pushes xs r)). unfold MAXBUFFER. lia.
Qed.

Lemma adc_ring_no_loss_below_capacity_witness :
  drain (Z.to_nat MAXBUFFER) (pushes [(1, 2); (3, 4)] adc_boot)
  = Some (unread adc_boot ++ map sample_of [(1, 2); (3, 4)],
          consumed (pushes [(1, 2); (3, 4)] adc_boot)).
Proof.
  apply (adc_ring_no_loss_below_capacity adc_boot [(1, 2); (3, 4)]).
  - apply ring_ok_boot.
  - vm_compute. lia.
Defined.

Lemma count_fold (l : list adcSample) (c : Z) :
  0 <= c < 2 ^ 32 ->
  fold_left (fun c _ => uint32_t (c + 1)) l c = (c + Z.of_nat (length l)) mod 2 ^ 32.
Proof.
  revert c. induction l as [| a l IH]; intros c Hc; cbn [fold_left length].
  - rewrite Z.add_0_r, Z.mod_small; [reflexivity | exact Hc].
  - rewrite IH by (unfold uint32_t; apply Z.mod_pos_bound; reflexivity).
    unfold uint32_t. rewrite Zplus_mod_idemp_l. f_equal. lia.
Qed.

(** X15. The consumer loop of [powerTask] terminates within one pass of
    the buffer, leaves the ring empty, and raises the sample counter by
    exactly the number of unread samples (modulo 2^32). *)
Theorem accumulate_counts_unread (st : PowerState) :
  ring_ok (ring st) ->
  0 <= sample_count st < 2 ^ 32 ->
  exists st1,
    accumulate st = Some st1
    /\ ring st1 = consumed (ring st)
    /\ unread (ring st1) = []
    /\ sample_count st1 = (sample_count st + unread_count (ring st)) mod 2 ^ 32.
Proof.
  intros Hok Hc. unfold accumulate.
  rewrite (drain_unread (Z.to_nat MAXBUFFER) (ring st) Hok)
    by (pose proof (unread_count_range (ring st)); unfold MAXBUFFER; lia).
  eexists. split; [reflexivity |]. cbn [ring sample_count].
  split; [reflexivity |]. split.
  - unfold unread, unread_count, consumed. cbn [adcHead adcTail].
    rewrite Z.sub_diag. reflexivity.
  - rewrite count_fold by exact Hc. rewrite length_unread. reflexivity.
Qed.

Lemma accumulate_counts_unread_witness :
  exists st1,
    accumulate power_five_samples = Some st1
    /\ ring st1 = consumed (ring power_five_samples)
    /\ unread (ring st1) = []
    /\ sample_count st1
       = (sample_count power_five_samples + unread_count (ring power_five_samples))
         mod 2 ^ 32.
Proof.
  apply (accumulate_counts_unread power_five_samples).
  - unfold ring_ok. split; [vm_compute; reflexivity |].
    split; vm_compute; split; congruence.
  - vm_compute. split; congruence.
Defined.

(** X16. No iteration of [powerTask] changes the raw field of the
    current-limit entry: the limit configured by the operator survives
    every monitor cycle. *)
Theorem powerTask_keeps_configured_limit (st st' : PowerState) :
  powerTask_iteration st = Some st' ->
  raw (values (maxCurrentLimit st')) = raw (values (maxCurrentLimit st)).
Proof.
  unfold powerTask_iteration.
  destruct (accumulate st) as [s1 |] eqn:Hacc; [| discriminate].
  destruct (accumulate_frame st s1 Hacc) as (_ & Hl & _).
  destruct (0 <? sample_count s1); [| intros [= <-]; rewrite Hl; reflexivity].
  unfold monitor. destruct (phase_currents s1) as [ab |]; [| discriminate].
  rewrite getter_forever.
  destruct ((0 =? 0) && negb (settlingFlag s1) && _);
    intros [= <-]; cbn; rewrite Hl; reflexivity.
Qed.

Lemma powerTask_keeps_configured_limit_witness :
  exists st',
    powerTask_iteration power_settled_overcurrent = Some st'
    /\ raw (values (maxCurrentLimit st'))
       = raw (values (maxCurrentLimit power_settled_overcurrent)).
Proof.
  eexists. split; [vm_compute; reflexivity |].
  eapply (powerTask_keeps_configured_limit power_settled_overcurrent).
  vm_compute. reflexivity.
Defined.

(** X17. A monitor cycle that is not skipped by the settling guard
    publishes the measured total current in the filtered field of the
    current-limit entry and the estimated power at 24 V in the filtered
    field of the power entry, sets the settling flag, clears the sums and
    the sample counter, and sets the E-stop flag exactly when the total is
    above the limit (an E-stop already set stays set). *)
Theorem monitor_publishes (st st' : PowerState) (ab : float * float) :
  phase_currents st = Some ab ->
  (settlingFlag st = true
   \/ (raw (values (maxCurrentLimit st)) <? total_mA ab)%float = false) ->
  monitor st = Some st' ->
  filtered (values (maxCurrentLimit st')) = total_mA ab
  /\ filtered (values (powerData st')) = estimatePower 24.0 (fst ab) (snd ab)
  /\ settlingFlag st' = true
  /\ sample_count st' = 0 /\ sum_ch0 st' = 0%float /\ sum_ch4 st' = 0%float
  /\ es_estop (pw_estop st')
     = (es_estop (pw_estop st) || (raw (values (maxCurrentLimit st)) <? total_mA ab)%float).
Proof.
  intros Hcur Hc. unfold monitor. rewrite Hcur, getter_forever.
  cbn [Z.eqb andb values raw].
  destruct (raw (values (maxCurrentLimit st)) <? total_mA ab)%float eqn:Hover.
  - destruct Hc as [Hs | Hs]; [| discriminate]. rewrite Hs. cbn [negb andb].
    intros [= <-]. cbn. rewrite orb_true_r. repeat split.
  - rewrite andb_false_r. intros [= <-]. cbn. rewrite orb_false_r.
    repeat split.
Qed.

Lemma monitor_publishes_witness :
  exists ab st',
    phase_currents power_accumulated = Some ab
    /\ monitor power_accumulated = Some st'
    /\ filtered (values (maxCurrentLimit st')) = total_mA ab
    /\ filtered (values (powerData st')) = estimatePower 24.0 (fst ab) (snd ab)
    /\ settlingFlag st' = true
    /\ sample_count st' = 0 /\ sum_ch0 st' = 0%float /\ sum_ch4 st' = 0%float
    /\ es_estop (pw_estop st')
       = (es_estop (pw_estop power_accumulated)
          || (raw (values (maxCurrentLimit power_accumulated)) <? total_mA ab)%float).
Proof.
  eexists _, _. split; [vm_compute; reflexivity |].
  split; [vm_compute; reflexivity |].
  eapply (monitor_publishes power_accumulated).
  - vm_compute. reflexivity.
  - left. reflexivity.
  - vm_compute. reflexivity.
Defined.

(** Checked on every 12-bit ADC code. *)
Lemma readCurrent_checked :
  forallb (fun n => (readCurrent (Z.of_nat n + 1) <? readCurrent (Z.of_nat n))%float)
          (seq 0 2047)
  && forallb (fun n => (readCurrent (Z.of_nat n) <? readCurrent (Z.of_nat n + 1))%float)
             (seq 2048 2047)
  && forallb (fun n => (0 <? readCurrent (Z.of_nat n))%float
                       && (readCurrent (Z.of_nat n) <? 23.6)%float)
             (seq 0 4096) = true.
Proof. vm_compute. reflexivity. Qed.

(** X18. On the 12-bit ADC range 0..4095, [readCurrent] is positive and
    below 23.6 A; it falls strictly from code 0 to code 2047 and rises
    strictly from code 2048 to code 4095, so no code reads as zero
    current. *)
Theorem readCurrent_magnitude (adc : Z) :
  0 <= adc < 4096 ->
  (0 <? readCurrent adc)%float = true
  /\ (readCurrent adc <? 23.6)%float = true
  /\ (adc < 2047 -> (readCurrent (adc + 1) <? readCurrent adc)%float = true)
  /\ (2048 <= adc < 4095 -> (readCurrent adc <? readCurrent (adc + 1))%float = true).
Proof.
  intros Hadc. pose proof readCurrent_checked as A.
  apply andb_prop in A as [A A3]. apply andb_prop in A as [A1 A2].
  rewrite forallb_forall in A1, A2, A3.
  specialize (A3 (Z.to_nat adc) ltac:(apply in_seq; lia)).
  rewrite Z2Nat.id in A3 by lia. apply andb_prop in A3 as [A3 A4].
  split; [exact A3 |]. split; [exact A4 |]. split.
  - intros H. specialize (A1 (Z.to_nat adc) ltac:(apply in_seq; lia)).
    rewrite Z2Nat.id in A1 by lia. exact A1.
  - intros H. specialize (A2 (Z.to_nat adc) ltac:(apply in_seq; lia)).
    rewrite Z2Nat.id in A2 by lia. exact A2.
Qed.

Lemma readCurrent_magnitude_witness :
  (0 <? readCurrent 2008)%float = true
  /\ (readCurrent 2008 <? 23.6)%float = true
  /\ (2008 < 2047 -> (readCurrent 2009 <? readCurrent 2008)%float = true)
  /\ (2048 <= 2008 < 4095 -> (readCurrent 2008 <? readCurrent 2009)%float = true).
Proof.
  apply (readCurrent_magnitude 2008). lia.
Defined.

(** ** Soft ramp: where it gets to *)

(** X19. With E-stop clear and nothing written between ticks, the ramp on
    doubles goes from an integer setpoint [x] to an integer target [t]
    (both 0..4095) in steps of exactly 5: after [n+1] ticks the setpoint is
    [t] if |t - x| <= 5(n+1) and [x] moved by 5(n+1) toward [t] otherwise;
    the target is unchanged, and the motor flag is set unless the target is
    0 and has been reached. *)
Theorem ramp_reaches_target (m : bool) (mx : SemaphoreHandle_t) (f : float)
    (x t : Z) (n : nat) :
  0 <= x <= RPM_LIMIT -> 0 <= t <= RPM_LIMIT ->
  (m = false -> x = 0) ->
  ticks (S n) (ramp_double_state m false mx f x t)
  = ramp_double_state ((0 <? t) || negb (x <=? 5 * Z.of_nat (S n))) false mx f
      (ramp_position x t (S n)) t.
Proof.
  revert m x. induction n as [|n IH]; intros m x Hx Ht Hm;
    rewrite ticks_succ_r, xTimer1AHandler_on_integers by assumption;
    unfold RPM_LIMIT in *.
  - change (ticks 0 ?s) with s.
    destruct m; cbn [negb andb].
    + ramp_cases.
    + specialize (Hm eq_refl). subst x. ramp_cases.
      all: replace t with 0 by lia; reflexivity.
  - destruct m; cbn [negb andb].
    + destruct ((t - ramp_rate false <=? x) && (x <=? t + ramp_rate false)) eqn:N.
      * apply andb_prop in N as [N1 N2]. unfold ramp_rate in N1, N2.
        apply Z.leb_le in N1, N2.
        rewrite IH by (unfold RPM_LIMIT; auto; try lia;
                       intros E; apply negb_false_iff, andb_prop in E as [_ E];
                       apply Z.leb_le in E; lia).
        ramp_cases.
      * cbn [andb negb]. apply andb_false_iff in N. unfold ramp_rate in N.
        rewrite !Z.leb_gt in N. unfold ramp_rate.
        destruct (Z.ltb_spec t x);
          (rewrite IH by (unfold RPM_LIMIT; auto; try discriminate; lia));
          ramp_cases.
    + specialize (Hm eq_refl). subst x.
      destruct (t <=? 0) eqn:T0.
      * apply Z.leb_le in T0. rewrite IH by (unfold RPM_LIMIT; auto; lia).
        ramp_cases.
      * apply Z.leb_gt in T0.
        rewrite ?andb_false_r. cbn [negb]. unfold ramp_rate.
        destruct (Z.leb_spec (t - 5) 0); cbn [andb];
          [destruct (Z.leb_spec 0 (t + 5)); [|lia] | destruct (Z.ltb_spec t 0); [lia|]];
          (rewrite IH by (unfold RPM_LIMIT; auto; try discriminate; lia));
          ramp_cases.
Qed.

Lemma ramp_reaches_target_witness :
  ticks 4 (ramp_double_state false false {| busy_ticks := 0 |} 0 0 20)
  = ramp_double_state true false {| busy_ticks := 0 |} 0 20 20.
Proof.
  apply (ramp_reaches_target false {| busy_ticks := 0 |} 0 0 20 3).
  - unfold RPM_LIMIT. lia.
  - unfold RPM_LIMIT. lia.
  - reflexivity.
Defined.

Lemma estop_stopped_fixed (mx : SemaphoreHandle_t) (f : float) (n : nat) :
  ticks n (ramp_double_state false true mx f 0 0)
  = ramp_double_state false true mx f 0 0.
Proof.
  induction n as [|n IH]; [reflexivity|].
  rewrite ticks_succ_r, xTimer1AHandler_on_integers by (unfold RPM_LIMIT; lia).
  cbn [negb andb Z.leb Z.compare]. exact IH.
Qed.

Lemma estop_rundown (mx : SemaphoreHandle_t) (f : float) (n : nat) (x : Z) :
  0 <= x <= RPM_LIMIT -> x <= 10 * Z.of_nat n -> (1 <= n)%nat ->
  ticks n (ramp_double_state true true mx f x 0)
  = ramp_double_state false true mx f 0 0.
Proof.
  revert x. induction n as [|n IH]; intros x Hx Hn Hpos; [lia|].
  rewrite ticks_succ_r, xTimer1AHandler_on_integers by (auto; unfold RPM_LIMIT; lia).
  unfold RPM_LIMIT, ramp_rate in *. cbn [negb andb].
  destruct (Z.leb_spec x (0 + 10)).
  - replace (0 - 10 <=? x) with true by (symmetry; apply Z.leb_le; lia).
    cbn [andb negb Z.leb Z.compare]. apply estop_stopped_fixed.
  - rewrite andb_false_r. cbn [andb negb].
    replace (0 <? x) with true by (symmetry; apply Z.ltb_lt; lia).
    apply IH; lia.
Qed.

(** X20. With E-stop asserted and nothing written between ticks, from any
    integer setpoint [x] and target [t] in 0..4095 the ramp is at rest
    (setpoint 0, target 0, motor flag clear) after [n] ticks as soon as
    10 n >= x + 20, and stays there. *)
Theorem estop_stops_motor (m : bool) (mx : SemaphoreHandle_t) (f : float)
    (x t : Z) (n : nat) :
  0 <= x <= RPM_LIMIT -> 0 <= t <= RPM_LIMIT ->
  (m = false -> x = 0) ->
  x + 20 <= 10 * Z.of_nat n ->
  ticks n (ramp_double_state m true mx f x t)
  = ramp_double_state false true mx f 0 0.
Proof.
  intros Hx Ht Hm Hn.
  destruct n as [|n]; [lia|].
  rewrite ticks_succ_r, xTimer1AHandler_on_integers by assumption.
  unfold RPM_LIMIT, ramp_rate in *.
  destruct (Z.leb_spec t 0) as [T0|T0].
  - assert (t = 0) by lia. subst t. destruct m; cbn [negb andb].
    + rewrite andb_true_r.
      destruct (Z.leb_spec (0 - 10) x); [|lia]. cbn [andb].
      destruct (Z.leb_spec x (0 + 10)).
      * cbn [negb]. apply estop_stopped_fixed.
      * cbn [negb]. destruct (Z.ltb_spec 0 x); [|lia].
        apply estop_rundown; unfold RPM_LIMIT; lia.
    + rewrite (Hm eq_refl). apply estop_stopped_fixed.
  - rewrite !andb_false_r. cbn [negb].
    destruct ((t - 10 <=? x) && (x <=? t + 10)) eqn:N.
    + apply andb_prop in N as [N1 N2]. apply Z.leb_le in N1, N2.
      apply estop_rundown; unfold RPM_LIMIT; lia.
    + apply andb_false_iff in N. rewrite !Z.leb_gt in N.
      destruct (Z.ltb_spec t x); apply estop_rundown; unfold RPM_LIMIT; lia.
Qed.

Lemma estop_stops_motor_witness :
  ticks 102 (ramp_double_state true true {| busy_ticks := 0 |} 0 1000 2000)
  = ramp_double_state false true {| busy_ticks := 0 |} 0 0 0.
Proof.
  apply (estop_stops_motor true {| busy_ticks := 0 |} 0 1000 2000 102).
  - unfold RPM_LIMIT. lia.
  - unfold RPM_LIMIT. lia.
  - discriminate.
  - lia.
Defined.

(** ** Operator controls *)

Lemma OnButtonPress_toggle_set (st : OperatorState) :
  es_estop (op_estop st) = true ->
  busy_ticks (estopMutex (op_estop st)) <= 200 ->
  OnButtonPress ButtonMotorToggle st
  = (Some (StatusStopped, Some true),
     {| motorRunning := false;
        eStopWasAcknowledged := false;
        g_i32DesiredRPM := g_i32DesiredRPM st;
        g_i32CurrentLimit := g_i32CurrentLimit st;
        op_estop := {| es_estop := false; estopMutex := {| busy_ticks := 0 |} |};
        op_rpmData := op_rpmData st;
        op_maxCurrentLimit := op_maxCurrentLimit st |}).
Proof.
  intros He Hb. unfold OnButtonPress, eStopGetter.
  rewrite (xSemaphoreTake_within _ _ Hb), He. reflexivity.
Qed.

(** X21. A press of the motor toggle button while the E-stop flag is set
    and its mutex is free within 200 ticks acknowledges the E-stop: the
    flag is cleared, the motor is marked stopped, the target in the RPM
    entry is not written, and the screen shows STOPPED with the
    acknowledgment message, whose request flag is consumed in the same
    press. *)
Theorem toggle_acknowledges_estop (st : OperatorState) :
  es_estop (op_estop st) = true ->
  busy_ticks (estopMutex (op_estop st)) <= 200 ->
  let st' := snd (OnButtonPress ButtonMotorToggle st) in
  fst (OnButtonPress ButtonMotorToggle st) = Some (StatusStopped, Some true)
  /\ es_estop (op_estop st') = false
  /\ motorRunning st' = false
  /\ eStopWasAcknowledged st' = false
  /\ op_rpmData st' = op_rpmData st.
Proof.
  intros He Hb. cbv zeta. rewrite (OnButtonPress_toggle_set _ He Hb).
  cbn. auto.
Qed.

Lemma toggle_acknowledges_estop_witness :
  fst (OnButtonPress ButtonMotorToggle (operator_running (estop_flag true 50)))
  = Some (StatusStopped, Some true)
  /\ es_estop (op_estop (snd (OnButtonPress ButtonMotorToggle
                                (operator_running (estop_flag true 50))))) = false
  /\ motorRunning (snd (OnButtonPress ButtonMotorToggle
                          (operator_running (estop_flag true 50)))) = false
  /\ eStopWasAcknowledged (snd (OnButtonPress ButtonMotorToggle
                                  (operator_running (estop_flag true 50)))) = false
  /\ op_rpmData (snd (OnButtonPress ButtonMotorToggle
                        (operator_running (estop_flag true 50))))
     = op_rpmData (operator_running (estop_flag true 50)).
Proof.
  apply (toggle_acknowledges_estop (operator_running (estop_flag true 50))).
  - reflexivity.
  - cbn. lia.
Defined.

(** X22. When the E-stop mutex is held for more than 200 ticks, a press of
    the motor toggle button is handled as a start/stop press whatever the
    flag holds: the flag keeps its value, the running state is inverted and
    the corresponding target is written to the raw field of the RPM
    entry. *)
Theorem toggle_misses_estop_on_timeout (st : OperatorState) :
  200 < busy_ticks (estopMutex (op_estop st)) ->
  let st' := snd (OnButtonPress ButtonMotorToggle st) in
  es_estop (op_estop st') = es_estop (op_estop st)
  /\ motorRunning st' = negb (motorRunning st)
  /\ raw (values (op_rpmData st'))
     = operator_target (negb (motorRunning st)) (g_i32DesiredRPM st)
  /\ filtered (values (op_rpmData st')) = filtered (values (op_rpmData st)).
Proof.
  intros Hb. cbv zeta. unfold OnButtonPress, eStopGetter.
  rewrite (xSemaphoreTake_timeout _ _ short_wait_not_forever Hb).
  change (uint8_t (-1) =? 1) with false. cbv iota.
  unfold UpdateMotorUI, eStopGetter. cbn [op_estop estopMutex es_estop].
  destruct (xSemaphoreTake _ 200) as [[|] m].
  - destruct (es_estop (op_estop st)); cbn [Z.b2z Z.eqb Pos.eqb].
    + cbn. auto.
    + destruct (motorRunning st); cbn; auto.
  - change (uint8_t (-1) =? 1) with false. cbv iota.
    destruct (motorRunning st); cbn; auto.
Qed.

Lemma toggle_misses_estop_on_timeout_witness :
  es_estop (op_estop (snd (OnButtonPress ButtonMotorToggle
                             (operator_running (estop_flag true 700))))) = true
  /\ motorRunning (snd (OnButtonPress ButtonMotorToggle
                          (operator_running (estop_flag true 700)))) = false
  /\ raw (values (op_rpmData (snd (OnButtonPress ButtonMotorToggle
                                     (operator_running (estop_flag true 700))))))
     = operator_target false 1500
  /\ filtered (values (op_rpmData (snd (OnButtonPress ButtonMotorToggle
                                          (operator_running (estop_flag true 700))))))
     = 1490%float.
Proof.
  apply (toggle_misses_estop_on_timeout (operator_running (estop_flag true 700))).
  cbn. lia.
Defined.

Lemma OnButtonPress_toggle_clear (st : OperatorState) :
  es_estop (op_estop st) = false ->
  OnButtonPress ButtonMotorToggle st
  = (Some (if negb (motorRunning st) then StatusRunning else StatusStopped,
           Some false),
     {| motorRunning := negb (motorRunning st);
        eStopWasAcknowledged := false;
        g_i32DesiredRPM := g_i32DesiredRPM st;
        g_i32CurrentLimit := g_i32CurrentLimit st;
        op_estop := snd (eStopGetter 200 (snd (eStopGetter 200 (op_estop st))));
        op_rpmData :=
          {| mutex := {| busy_ticks := 0 |};
             values := {| filtered := filtered (values (op_rpmData st));
                          raw := operator_target (negb (motorRunning st))
                                                 (g_i32DesiredRPM st) |} |};
        op_maxCurrentLimit := op_maxCurrentLimit st |}).
Proof.
  intros He. unfold OnButtonPress.
  assert (G : forall es, es_estop es = false ->
            (fst (eStopGetter 200 es) =? 1) = false
            /\ es_estop (snd (eStopGetter 200 es)) = false).
  { intros es E. unfold eStopGetter.
    destruct (xSemaphoreTake _ _) as [[|] m]; cbn [fst snd es_estop];
      rewrite ?E; auto. }
  destruct (G _ He) as [G1 G2].
  destruct (eStopGetter 200 (op_estop st)) as [r es] eqn:E1.
  cbn [fst snd] in G1, G2. rewrite G1.
  unfold UpdateMotorUI. cbn [op_estop motorRunning eStopWasAcknowledged
    g_i32DesiredRPM g_i32CurrentLimit op_rpmData op_maxCurrentLimit].
  destruct (G _ G2) as [G3 _]. cbn [fst snd].
  destruct (eStopGetter 200 es) as [r2 es2] eqn:E2. cbn [fst snd] in G3 |- *.
  rewrite G3.
  unfold setterVal, xSemaphoreTake, xSemaphoreGive.
  rewrite Z.eqb_refl. cbn [orb].
  destruct (motorRunning st); reflexivity.
Qed.

(** X23. From every state: the E-stop test button sets the flag and marks
    the motor stopped without writing the target; the next press of the
    toggle button acknowledges (flag clear, motor still stopped, target
    still not written); the press after that starts the motor and writes
    the desired RPM as target. *)
Theorem estop_test_acknowledge_restart (st : OperatorState) :
  let st1 := snd (OnButtonPress ButtonEStopTest st) in
  let st2 := snd (OnButtonPress ButtonMotorToggle st1) in
  let st3 := snd (OnButtonPress ButtonMotorToggle st2) in
  es_estop (op_estop st1) = true /\ motorRunning st1 = false
  /\ op_rpmData st1 = op_rpmData st
  /\ fst (OnButtonPress ButtonMotorToggle st1) = Some (StatusStopped, Some true)
  /\ es_estop (op_estop st2) = false /\ motorRunning st2 = false
  /\ op_rpmData st2 = op_rpmData st
  /\ fst (OnButtonPress ButtonMotorToggle st2) = Some (StatusRunning, Some false)
  /\ es_estop (op_estop st3) = false /\ motorRunning st3 = true
  /\ raw (values (op_rpmData st3)) = double_of_Z (g_i32DesiredRPM st).
Proof.
  cbv zeta.
  assert (E1 : snd (OnButtonPress ButtonEStopTest st)
    = {| motorRunning := false;
         eStopWasAcknowledged := eStopWasAcknowledged st;
         g_i32DesiredRPM := g_i32DesiredRPM st;
         g_i32CurrentLimit := g_i32CurrentLimit st;
         op_estop := {| es_estop := true; estopMutex := {| busy_ticks := 0 |} |};
         op_rpmData := op_rpmData st;
         op_maxCurrentLimit := op_maxCurrentLimit st |}) by reflexivity.
  rewrite E1.
  rewrite OnButtonPress_toggle_set by (cbn; first [reflexivity | lia]).
  cbn [fst snd es_estop op_estop motorRunning op_rpmData].
  rewrite OnButtonPress_toggle_clear by reflexivity.
  cbn. repeat split; reflexivity.
Qed.

(** X24. Moving the RPM slider while the motor is stopped and no E-stop
    is set writes the target 0, not the slider value; the value is kept and
    is the target written by the next press of the toggle button, which
    starts the motor. The filtered field (the measured RPM) is not
    touched. *)
Theorem rpm_slider_value_used_at_start (value : Z) (st : OperatorState) :
  motorRunning st = false ->
  es_estop (op_estop st) = false ->
  let st1 := OnSliderChange SliderRPM value st in
  let st2 := snd (OnButtonPress ButtonMotorToggle st1) in
  raw (values (op_rpmData st1)) = double_of_Z 0
  /\ motorRunning st1 = false
  /\ raw (values (op_rpmData st2)) = double_of_Z value
  /\ motorRunning st2 = true
  /\ filtered (values (op_rpmData st2)) = filtered (values (op_rpmData st)).
Proof.
  intros Hm He. cbv zeta.
  rewrite OnButtonPress_toggle_clear by exact He.
  unfold OnSliderChange. rewrite Hm.
  unfold setterVal, xSemaphoreTake, xSemaphoreGive.
  rewrite Z.eqb_refl. cbn. auto.
Qed.

Lemma rpm_slider_value_used_at_start_witness :
  raw (values (op_rpmData (OnSliderChange SliderRPM 2000 operator_stopped)))
  = double_of_Z 0
  /\ motorRunning (OnSliderChange SliderRPM 2000 operator_stopped) = false
  /\ raw (values (op_rpmData
                    (snd (OnButtonPress ButtonMotorToggle
                            (OnSliderChange SliderRPM 2000 operator_stopped)))))
     = double_of_Z 2000
  /\ motorRunning (snd (OnButtonPress ButtonMotorToggle
                          (OnSliderChange SliderRPM 2000 operator_stopped))) = true
  /\ filtered (values (op_rpmData
                         (snd (OnButtonPress ButtonMotorToggle
                                 (OnSliderChange SliderRPM 2000 operator_stopped)))))
     = filtered (values (op_rpmData operator_stopped)).
Proof.
  apply (rpm_slider_value_used_at_start 2000 operator_stopped); reflexivity.
Defined.

(** X25. After the operator has moved the current-limit slider to
    [value], a settled monitor cycle compares the measured total current
    with that value: the E-stop flag is set exactly when the total is above
    it (or was set before); the cycle stores the measured total in the
    filtered field of the entry and leaves the slider value in its raw
    field. *)
Theorem current_slider_limit_is_enforced (value : Z) (op : OperatorState)
    (st st' : PowerState) (ab : float * float) :
  maxCurrentLimit st = op_maxCurrentLimit (OnSliderChange SliderCurrent value op) ->
  settlingFlag st = true ->
  phase_currents st = Some ab ->
  monitor st = Some st' ->
  es_estop (pw_estop st')
  = (es_estop (pw_estop st) || (double_of_Z value <? total_mA ab)%float)
  /\ raw (values (maxCurrentLimit st')) = double_of_Z value
  /\ filtered (values (maxCurrentLimit st')) = total_mA ab
  /\ g_i32CurrentLimit (OnSliderChange SliderCurrent value op) = value.
Proof.
  intros Hl Hs Hcur. unfold monitor. rewrite Hcur, getter_forever, Hs, Hl.
  assert (Hraw : raw (values (op_maxCurrentLimit (OnSliderChange SliderCurrent value op)))
                 = double_of_Z value).
  { unfold OnSliderChange, getter, setterVal, xSemaphoreTake, xSemaphoreGive.
    rewrite Z.eqb_refl. reflexivity. }
  cbn [Z.eqb andb negb]. rewrite Hraw.
  destruct (double_of_Z value <? total_mA ab)%float eqn:Hover;
    intros [= <-]; cbn; rewrite ?orb_true_r, ?orb_false_r, ?Hraw; auto.
Qed.

Lemma current_slider_limit_is_enforced_witness :
  exists ab st',
    phase_currents power_limit_500 = Some ab
    /\ monitor power_limit_500 = Some st'
    /\ es_estop (pw_estop st')
       = (es_estop (pw_estop power_limit_500) || (double_of_Z 500 <? total_mA ab)%float)
    /\ raw (values (maxCurrentLimit st')) = double_of_Z 500
    /\ filtered (values (maxCurrentLimit st')) = total_mA ab
    /\ g_i32CurrentLimit (OnSliderChange SliderCurrent 500 operator_stopped) = 500.
Proof.
  eexists _, _. split; [vm_compute; reflexivity |].
  split; [vm_compute; reflexivity |].
  eapply (current_slider_limit_is_enforced 500 operator_stopped power_limit_500).
  - reflexivity.
  - reflexivity.
  - vm_compute. reflexivity.
  - vm_compute. reflexivity.
Defined.
